(** * NEWAY SECURITY CCTV clocking system: dashboard utilities

    A shallow embedding of the live-monitoring core of
    [static/js/dashboard-utils.js] (the [NewaySecurity] namespace): the
    video reconnect sequence, the two periodic refresh timers, the
    visibility handler, the status manager and the recent-events feed.

    The JavaScript runs as callbacks on one event loop.  The embedding
    makes that loop explicit: a [World] holds the namespace's own data
    ([config], [elements], [state], [StatusManager.indicators]) together
    with the part of the browser the callbacks talk to (clock, timer
    table, outstanding fetches, console), and [step] runs one callback to
    completion.  *)

From Stdlib Require Import ZArith String Ascii List Bool Lia.
From stdpp Require Import base option list gmap strings pretty.

Open Scope string_scope.
Open Scope Z_scope.
Open Scope list_scope.

#[local] Set Warnings "-register-all".

(** ** JavaScript values, as far as a parsed JSON body can hold them

    [VNum n] is the number the integer literal [n] parses to; numbers
    with a fraction are not represented.  An object is the list of its
    own keys, looked up from the front. *)

Inductive JsVal : Type :=
| VUndefined
| VNull
| VBool (b : bool)
| VNum (n : Z)
| VStr (s : string)
| VArr (items : list JsVal)
| VObj (fields : list (string * JsVal)).

Inductive JsError : Type :=
| TypeError (msg : string)
| SyntaxError (msg : string).

(** The outcome of evaluating an expression or a callback. *)
Inductive Res (A : Type) : Type :=
| Ok (a : A)
| Thrown (e : JsError).
Arguments Ok {A} a.
Arguments Thrown {A} e.

(** [if (v)]: JavaScript truthiness. *)
Definition truthy (v : JsVal) : bool :=
  match v with
  | VUndefined | VNull => false
  | VBool b => b
  | VNum n => negb (Z.eqb n 0)
  | VStr s => negb (String.eqb s "")
  | VArr _ | VObj _ => true
  end.

Fixpoint assoc (k : string) (fs : list (string * JsVal)) : JsVal :=
  match fs with
  | [] => VUndefined
  | (k', v) :: rest => if String.eqb k k' then v else assoc k rest
  end.

(** [v.k] for a named property [k]: reading a property of [null] or
    [undefined] throws; arrays and strings have a [length]; every other
    miss is [undefined]. *)
Definition get_prop (v : JsVal) (k : string) : Res JsVal :=
  match v with
  | VUndefined => Thrown (TypeError "Cannot read properties of undefined")
  | VNull => Thrown (TypeError "Cannot read properties of null")
  | VObj fs => Ok (assoc k fs)
  | VArr l => if String.eqb k "length" then Ok (VNum (Z.of_nat (length l)))
              else Ok VUndefined
  | VStr s => if String.eqb k "length" then Ok (VNum (Z.of_nat (String.length s)))
              else Ok VUndefined
  | VBool _ | VNum _ => Ok VUndefined
  end.

Fixpoint join (sep : string) (l : list string) : string :=
  match l with
  | [] => ""
  | [s] => s
  | s :: rest => s +:+ sep +:+ join sep rest
  end.

(** *** Printing a number

    A JSON number with an integer value is held as that integer; the
    engine keeps the nearest double and prints the shortest decimal that
    reads back as it, in exponent form from 22 digits on
    ([Number::toString]). *)

(** The double nearest to the integer [a >= 0], ties to even; a result
    of [2^1024] or more stands for [Infinity]. *)
Definition to_double (a : Z) : Z :=
  if a <? 2 ^ 53 then a
  else
    let e := Z.log2 a - 52 in
    let q := a / 2 ^ e in
    let r := a mod 2 ^ e in
    let half := 2 ^ (e - 1) in
    if (half <? r) || ((r =? half) && Z.odd q) then (q + 1) * 2 ^ e
    else q * 2 ^ e.

(** Whether the integer [c] reads back as the double [v >= 2^53]: it
    lies within half a step of [v], the bounds included when [v]'s
    significand is even. *)
Definition reads_back (v c : Z) : bool :=
  let e := Z.log2 v - 52 in
  let m := v / 2 ^ e in
  let up4 := 2 ^ (e + 1) in
  let low4 := if m =? 2 ^ 52 then 2 ^ e else 2 ^ (e + 1) in
  let d4 := 4 * (c - v) in
  if Z.even m then (- low4 <=? d4) && (d4 <=? up4)
  else (- low4 <? d4) && (d4 <? up4).

(** The integer with the fewest significant digits that reads back as
    [v], the closest one if there are two: multiples of [10^j] are tried
    for [j] counting down. *)
Fixpoint shortest (v : Z) (j : nat) : Z :=
  match j with
  | O => v
  | S j' =>
      let p := 10 ^ Z.of_nat j in
      let lo := v / p * p in
      let hi := lo + p in
      match reads_back v lo, reads_back v hi with
      | true, false => lo
      | false, true => hi
      | true, true =>
          if v - lo <? hi - v then lo
          else if hi - v <? v - lo then hi
          else if Z.even (lo / p) then lo else hi
      | false, false => shortest v j'
      end
  end.

Fixpoint strip_zeros (fuel : nat) (c : Z) : Z :=
  match fuel with
  | O => c
  | S f => if c mod 10 =? 0 then strip_zeros f (c / 10) else c
  end.

(** [Number::toString] of the double [v >= 0]. *)
Definition digits_of_double (v : Z) : string :=
  if 2 ^ 1024 <=? v then "Infinity"
  else if v <? 2 ^ 53 then pretty v
  else
    let c := shortest v (Z.to_nat (Z.log2 v)) in
    let all := pretty c in
    let n := String.length all in
    if (n <=? 21)%nat then all
    else
      match pretty (strip_zeros n c) with
      | String d EmptyString => String d ("e+" +:+ pretty (Z.of_nat (n - 1)))
      | String d rest =>
          String d ("." +:+ rest +:+ "e+" +:+ pretty (Z.of_nat (n - 1)))
      | EmptyString => all
      end.

(** The string a JSON number with integer value [n] prints as. *)
Definition number_string (n : Z) : string :=
  if n <? 0 then "-" +:+ digits_of_double (to_double (- n))
  else digits_of_double (to_double n).

(** *** Printing a value *)

(** Whether [ToString] throws on [v].  A parsed object prints through
    the inherited [Object.prototype.toString] unless it has a [toString]
    key of its own: the value under that key is never callable and the
    inherited [valueOf] returns the object, so the conversion ends in a
    [TypeError].  An array prints its elements. *)
Fixpoint unprintable (v : JsVal) : bool :=
  match v with
  | VObj fs => existsb (λ kv, String.eqb (fst kv) "toString") fs
  | VArr l => existsb unprintable l
  | _ => false
  end.

(** The string [ToString] yields for [v], when it yields one (see
    [template]).  Array elements that are [null] or [undefined] print as
    the empty string. *)
Fixpoint to_string (v : JsVal) : string :=
  match v with
  | VUndefined => "undefined"
  | VNull => "null"
  | VBool true => "true"
  | VBool false => "false"
  | VNum n => number_string n
  | VStr s => s
  | VArr l =>
      join "," (List.map (fun x => match x with
                                   | VUndefined | VNull => ""
                                   | _ => to_string x
                                   end) l)
  | VObj _ => "[object Object]"
  end.

(** [`${v}`]: what a template literal interpolates for [v], or the
    [TypeError] of the conversion. *)
Definition template (v : JsVal) : Res string :=
  if unprintable v
  then Thrown (TypeError "Cannot convert object to primitive value")
  else Ok (to_string v).

(** [v === 'lit'] *)
Definition strict_eq_str (v : JsVal) (lit : string) : bool :=
  match v with
  | VStr s => String.eqb s lit
  | _ => false
  end.

(** ** The namespace's data *)

(** [NewaySecurity.config] *)
Record Config : Type := mkConfig {
  refreshInterval : Z;
  statusCheckInterval : Z;
  reconnectAttempts : Z;
  timeoutDelay : Z
}.

Definition config : Config :=
  {| refreshInterval := 30000;
     statusCheckInterval := 60000;
     reconnectAttempts := 3;
     timeoutDelay := 2000 |}.

(** A status indicator element: its [classList] (an ordered set of
    tokens) and its [title] attribute. *)
Record Indicator : Type := mkIndicator {
  classList : list string;
  title : string
}.

Definition classList_add (c : string) (l : list string) : list string :=
  if bool_decide (c ∈ l) then l else l ++ [c].

Definition classList_remove (c : string) (l : list string) : list string :=
  filter (λ x, x ≠ c) l.

(** [StatusManager.indicators]; [None] is a [querySelector] that found
    nothing. *)
Record Indicators : Type := mkIndicators {
  camera : option Indicator;
  system : option Indicator;
  network : option Indicator
}.

(** One child of the recent-events container: the [className] of the
    [div] and the markup assigned to its [innerHTML]. *)
Record EventItem : Type := mkEventItem {
  className : string;
  innerHTML : string
}.

(** [NewaySecurity.elements], the cached DOM nodes the core touches:
    the stream's [src], the status line's [innerHTML], the children of
    the recent-events container and the recognition counter's
    [textContent].  [None] is an element missing from the page. *)
Record Elements : Type := mkElements {
  el_videoFeed : option string;
  el_videoStatus : option string;
  el_recentEvents : option (list EventItem);
  el_recognitionCount : option string
}.

(** [NewaySecurity.state] (the fields the core reads or writes). *)
Record State : Type := mkState {
  st_cameraConnected : bool;
  st_recentEvents : JsVal
}.

(** ** The browser side *)

(** The two requests the core makes: [StatusCh] is the fetch of
    [/api/status] in [StatusManager.checkStatus], [EventsCh] the fetch of
    [/api/logs?limit=10] in [refreshRecentEvents].  The requests of the
    data and employee managers are not on these channels. *)
Inductive Channel : Type := StatusCh | EventsCh.

Global Instance Channel_eq_dec : EqDecision Channel.
Proof. solve_decision. Defined.

(** What a pending timer will call. *)
Inductive TimerKind : Type :=
| ReconnectTimeout (seq : nat)
| RefreshInterval
| StatusInterval.

Record Timer : Type := mkTimer {
  kind : TimerKind;
  delay : Z;
  due : Z
}.

Inductive LogEntry : Type :=
| LogInfo (msg : string)
| LogError (msg : string)
| LogCaught (msg : string) (e : JsError).

(** [closures] holds the [attempts] variable of every [tryReconnect]
    closure created so far (one per call of [attemptReconnect]);
    [inflight] the fetches not yet settled, oldest first; [issued] every
    fetch ever started. *)
Record World : Type := mkWorld {
  cfg : Config;
  elements : Elements;
  indicators : Indicators;
  state : State;
  clock : Z;
  hidden : bool;
  timers : gmap nat Timer;
  nextTimer : nat;
  closures : list Z;
  inflight : list Channel;
  issued : list Channel;
  console : list LogEntry
}.

Definition set_elements (f : Elements → Elements) (w : World) : World :=
  mkWorld (cfg w) (f (elements w)) (indicators w) (state w) (clock w)
          (hidden w) (timers w) (nextTimer w) (closures w) (inflight w)
          (issued w) (console w).

Definition set_indicators (f : Indicators → Indicators) (w : World) : World :=
  mkWorld (cfg w) (elements w) (f (indicators w)) (state w) (clock w)
          (hidden w) (timers w) (nextTimer w) (closures w) (inflight w)
          (issued w) (console w).

Definition set_state (f : State → State) (w : World) : World :=
  mkWorld (cfg w) (elements w) (indicators w) (f (state w)) (clock w)
          (hidden w) (timers w) (nextTimer w) (closures w) (inflight w)
          (issued w) (console w).

Definition set_clock (t : Z) (w : World) : World :=
  mkWorld (cfg w) (elements w) (indicators w) (state w) t
          (hidden w) (timers w) (nextTimer w) (closures w) (inflight w)
          (issued w) (console w).

Definition set_hidden (h : bool) (w : World) : World :=
  mkWorld (cfg w) (elements w) (indicators w) (state w) (clock w)
          h (timers w) (nextTimer w) (closures w) (inflight w)
          (issued w) (console w).

Definition set_timers (f : gmap nat Timer → gmap nat Timer) (w : World) : World :=
  mkWorld (cfg w) (elements w) (indicators w) (state w) (clock w)
          (hidden w) (f (timers w)) (nextTimer w) (closures w) (inflight w)
          (issued w) (console w).

Definition set_nextTimer (n : nat) (w : World) : World :=
  mkWorld (cfg w) (elements w) (indicators w) (state w) (clock w)
          (hidden w) (timers w) n (closures w) (inflight w)
          (issued w) (console w).

Definition set_closures (f : list Z → list Z) (w : World) : World :=
  mkWorld (cfg w) (elements w) (indicators w) (state w) (clock w)
          (hidden w) (timers w) (nextTimer w) (f (closures w)) (inflight w)
          (issued w) (console w).

Definition set_inflight (f : list Channel → list Channel) (w : World) : World :=
  mkWorld (cfg w) (elements w) (indicators w) (state w) (clock w)
          (hidden w) (timers w) (nextTimer w) (closures w) (f (inflight w))
          (issued w) (console w).

Definition set_issued (f : list Channel → list Channel) (w : World) : World :=
  mkWorld (cfg w) (elements w) (indicators w) (state w) (clock w)
          (hidden w) (timers w) (nextTimer w) (closures w) (inflight w)
          (f (issued w)) (console w).

Definition console_push (e : LogEntry) (w : World) : World :=
  mkWorld (cfg w) (elements w) (indicators w) (state w) (clock w)
          (hidden w) (timers w) (nextTimer w) (closures w) (inflight w)
          (issued w) (console w ++ [e]).

(** [setTimeout(cb, d)] and [setInterval(cb, d)]: a new entry in the
    timer table, first due [d] ms from now. *)
Definition arm (k : TimerKind) (d : Z) (w : World) : World :=
  set_nextTimer (S (nextTimer w))
    (set_timers (insert (nextTimer w) (mkTimer k d (clock w + d))) w).

(** [fetch(url)]: one more outstanding request on the channel. *)
Definition fetch (c : Channel) (w : World) : World :=
  set_issued (λ l, l ++ [c]) (set_inflight (λ l, l ++ [c]) w).

(** The number of requests of channel [c] not yet settled. *)
Definition outstanding (c : Channel) (w : World) : nat :=
  length (filter (λ x, x = c) (inflight w)).

(** ** Callbacks that may throw

    A callback is a function of the world that ends normally or with an
    exception, keeping whatever it had written before the throw.
    [mbind] is sequencing; [catch] is a promise's [.catch(handler)]. *)

Definition Eff (A : Type) : Type := World → World * Res A.

Global Instance Res_ret : MRet Res := λ A a, Ok a.
Global Instance Res_bind : MBind Res := λ A B f r,
  match r with
  | Ok a => f a
  | Thrown e => Thrown e
  end.

Global Instance Eff_ret : MRet Eff := λ A a w, (w, Ok a).
Global Instance Eff_bind : MBind Eff := λ A B f m w,
  match m w with
  | (w', Ok a) => f a w'
  | (w', Thrown e) => (w', Thrown e)
  end.

Definition throw {A : Type} (e : JsError) : Eff A := λ w, (w, Thrown e).

Definition catch {A : Type} (m : Eff A) (h : JsError → Eff A) : Eff A :=
  λ w, match m w with
       | (w', Ok a) => (w', Ok a)
       | (w', Thrown e) => h e w'
       end.

Definition lift (f : World → World) : Eff unit := λ w, (f w, Ok tt).

Definition eval {A : Type} (r : Res A) : Eff A := λ w, (w, r).

(** How a fetch ends: the request rejects, or a response arrives whose
    body parses as JSON ([Some]) or does not ([None]). *)
Inductive FetchOutcome : Type :=
| NetworkFailure
| Response (body : option JsVal).

Definition fetch_settled (o : FetchOutcome) : Eff (option JsVal) :=
  match o with
  | NetworkFailure => throw (TypeError "Failed to fetch")
  | Response b => mret b
  end.

(** [response => response.json()] *)
Definition response_json (b : option JsVal) : Eff JsVal :=
  match b with
  | None => throw (SyntaxError "Unexpected token in JSON")
  | Some d => mret d
  end.

(** ** Status manager *)

Definition set_camera (i : Indicator) (w : World) : World :=
  set_indicators (λ x, mkIndicators (Some i) (system x) (network x)) w.

Definition set_system (i : Indicator) (w : World) : World :=
  set_indicators (λ x, mkIndicators (camera x) (Some i) (network x)) w.

Definition set_network (i : Indicator) (w : World) : World :=
  set_indicators (λ x, mkIndicators (camera x) (system x) (Some i)) w.

Definition updateCameraStatus (isConnected : bool) (w : World) : World :=
  match camera (indicators w) with
  | None => w
  | Some ind =>
      if isConnected then
        set_camera
          (mkIndicator
             (classList_add "status-online"
                (classList_remove "status-offline" (classList ind)))
             "Camera Connected") w
      else
        set_camera
          (mkIndicator
             (classList_add "status-offline"
                (classList_remove "status-online" (classList ind)))
             "Camera Disconnected") w
  end.

Definition updateSystemStatus (status : JsVal) (w : World) : World :=
  match system (indicators w) with
  | None => w
  | Some ind =>
      let cleared :=
        classList_remove "status-warning"
          (classList_remove "status-offline"
             (classList_remove "status-online" (classList ind))) in
      if strict_eq_str status "online" then
        set_system (mkIndicator (classList_add "status-online" cleared)
                                "System Online") w
      else if strict_eq_str status "warning" then
        set_system (mkIndicator (classList_add "status-warning" cleared)
                                "System Warning") w
      else if strict_eq_str status "offline" then
        set_system (mkIndicator (classList_add "status-offline" cleared)
                                "System Offline") w
      else
        set_system (mkIndicator cleared (title ind)) w
  end.

Definition updateNetworkStatus (status : JsVal) (w : World) : World :=
  match network (indicators w) with
  | None => w
  | Some ind =>
      if truthy status then
        set_network
          (mkIndicator
             (classList_add "status-online"
                (classList_remove "status-offline" (classList ind)))
             "Network Connected") w
      else
        set_network
          (mkIndicator
             (classList_add "status-offline"
                (classList_remove "status-online" (classList ind)))
             "Network Disconnected") w
  end.

(** [StatusManager.checkStatus], up to the point where it returns: the
    camera indicator is refreshed and the request is under way. *)
Definition checkStatus (w : World) : World :=
  fetch StatusCh (updateCameraStatus (st_cameraConnected (state w)) w).

(** The [data => { ... }] callback of [checkStatus]. *)
Definition status_then (data : JsVal) : Eff unit :=
  ok ← eval (get_prop data "success");
  if truthy ok then
    st ← eval (get_prop data "status");
    lift (updateSystemStatus st);;
    nw ← eval (get_prop data "network");
    lift (updateNetworkStatus nw)
  else mret tt.

(** The [error => { ... }] callback of [checkStatus]. *)
Definition status_catch (e : JsError) : Eff unit :=
  lift (console_push (LogCaught "Error checking system status:" e));;
  lift (updateSystemStatus (VBool false));;
  lift (updateNetworkStatus (VBool false)).

(** The whole promise chain of [checkStatus], run when its fetch
    settles. *)
Definition status_chain (o : FetchOutcome) : Eff unit :=
  catch (r ← fetch_settled o; data ← response_json r; status_then data)
        status_catch.

(** ** Video feed and reconnection *)

(** [src.split('?')[0]] *)
Fixpoint before_query (s : string) : string :=
  match s with
  | EmptyString => EmptyString
  | String c rest =>
      if Ascii.eqb c "?"%char then EmptyString else String c (before_query rest)
  end.

Definition set_videoStatus (html : string) (w : World) : World :=
  set_elements (λ e, mkElements (el_videoFeed e) (Some html)
                                (el_recentEvents e) (el_recognitionCount e)) w.

Definition set_videoFeed (src : string) (w : World) : World :=
  set_elements (λ e, mkElements (Some src) (el_videoStatus e)
                                (el_recentEvents e) (el_recognitionCount e)) w.

(** The double-quote character of the markup below. *)
Definition dq : string := String (ascii_of_nat 34) EmptyString.

Definition progress (attempts max : Z) : string :=
  "(" +:+ pretty attempts +:+ "/" +:+ pretty max +:+ ")...".

(** The closure [tryReconnect] of the sequence whose [attempts] variable
    is [closures !! s]. *)
Definition tryReconnect (s : nat) (w : World) : World :=
  match closures w !! s with
  | None => w
  | Some attempts =>
      if attempts >=? reconnectAttempts (cfg w) then
        console_push (LogError "Failed to reconnect after multiple attempts") w
      else
        let attempts := attempts + 1 in
        let w := set_closures (<[s := attempts]>) w in
        let w := console_push
                   (LogInfo ("Attempting to reconnect "
                             +:+ progress attempts (reconnectAttempts (cfg w)))) w in
        let w := match el_videoStatus (elements w) with
                 | Some _ =>
                     set_videoStatus
                       ("<i class=" +:+ dq +:+ "fas fa-sync fa-spin" +:+ dq
                        +:+ "></i> Reconnecting "
                        +:+ progress attempts (reconnectAttempts (cfg w))) w
                 | None => w
                 end in
        let w := match el_videoFeed (elements w) with
                 | Some src =>
                     set_videoFeed (before_query src +:+ "?t=" +:+ pretty (clock w)) w
                 | None => w
                 end in
        arm (ReconnectTimeout s) (timeoutDelay (cfg w) * attempts) w
  end.

(** The arrow function handed to [setTimeout] inside [tryReconnect]. *)
Definition reconnectTimerExpired (s : nat) (w : World) : World :=
  if negb (st_cameraConnected (state w)) then tryReconnect s w else w.

(** [attemptReconnect]: a fresh [attempts = 0], then the first try. *)
Definition attemptReconnect (w : World) : World :=
  tryReconnect (length (closures w)) (set_closures (λ l, l ++ [0]) w).

Definition set_cameraConnected (b : bool) (w : World) : World :=
  set_state (λ s, mkState b (st_recentEvents s)) w.

Definition handleVideoError (w : World) : World :=
  attemptReconnect
    (updateCameraStatus false
       (set_cameraConnected false
          (console_push (LogError "Video feed error:") w))).

Definition handleVideoLoad (w : World) : World :=
  updateCameraStatus true
    (set_cameraConnected true
       (console_push (LogInfo "Video feed loaded successfully") w)).

(** ** Recent events feed *)

(** The host's [Date] object: construction from a string and from the
    clock, and the three formatting methods the feed calls.  Parsing and
    the locale formats are the browser's, not the repository's. *)
Class DatePlatform : Type := {
  JsDate : Type;
  date_parse : string → JsDate;
  date_of_clock : Z → JsDate;
  toDateString : JsDate → string;
  toLocaleTimeString : JsDate → string;
  toLocaleString : JsDate → string
}.

(** [event.Event === 'IN' ? a : b], used for the badge's class and for
    its text. *)
Definition badge_class (direction : JsVal) : string :=
  if strict_eq_str direction "IN" then "bg-success" else "bg-secondary".

Definition badge_text (direction : JsVal) : string :=
  if strict_eq_str direction "IN" then "Clock In" else "Clock Out".

(** The line feed and the indentation of the template below. *)
Definition lf : string := String (ascii_of_nat 10) EmptyString.

Fixpoint spaces (n : nat) : string :=
  match n with
  | O => EmptyString
  | S n' => String " "%char (spaces n')
  end.

(** The template literal assigned to [eventItem.innerHTML], with its
    four interpolations: the time label, the name, the badge's class and
    the badge's text.  Nothing is escaped. *)
Definition item_markup (timeStr name badge text : string) : string :=
  lf +:+ spaces 16 +:+ "<div class=" +:+ dq +:+ "recent-event-time" +:+ dq +:+ ">"
     +:+ timeStr +:+ "</div>"
  +:+ lf +:+ spaces 16 +:+ "<div class=" +:+ dq +:+ "recent-event-name" +:+ dq +:+ ">"
     +:+ name +:+ "</div>"
  +:+ lf +:+ spaces 16 +:+ "<div class=" +:+ dq +:+ "recent-event-type" +:+ dq +:+ ">"
  +:+ lf +:+ spaces 20 +:+ "<span class=" +:+ dq +:+ "badge " +:+ badge +:+ dq +:+ ">"
  +:+ lf +:+ spaces 24 +:+ text
  +:+ lf +:+ spaces 20 +:+ "</span>"
  +:+ lf +:+ spaces 16 +:+ "</div>"
  +:+ lf +:+ spaces 12.

Definition set_feed (items : list EventItem) (w : World) : World :=
  set_elements (λ e, mkElements (el_videoFeed e) (el_videoStatus e)
                                (Some items) (el_recognitionCount e)) w.

Definition set_recognitionCount (txt : string) (w : World) : World :=
  set_elements (λ e, mkElements (el_videoFeed e) (el_videoStatus e)
                                (el_recentEvents e) (Some txt)) w.

Definition appendChild (item : EventItem) (w : World) : World :=
  match el_recentEvents (elements w) with
  | Some items => set_feed (items ++ [item]) w
  | None => w
  end.

Definition set_recentEvents (v : JsVal) (w : World) : World :=
  set_state (λ s, mkState (st_cameraConnected s) v) w.

Section Feed.
Context {DP : DatePlatform}.

(** The time label of an event parsed to [eventDate], rendered at
    clock reading [now]. *)
Definition time_label (eventDate : JsDate) (now : Z) : string :=
  if String.eqb (toDateString eventDate) (toDateString (date_of_clock now))
  then "Today, " +:+ toLocaleTimeString eventDate
  else toLocaleString eventDate.

(** The body of the [forEach] callback up to [appendChild]: the item
    built for one event.  Reading a field of [null] or [undefined] throws,
    and so does interpolating a date, a time or a name that cannot be
    printed; the item is appended only when none of that happened. *)
Definition render_item (now : Z) (event : JsVal) : Res EventItem :=
  d ← get_prop event "Date";
  ds ← template d;
  t ← get_prop event "Time";
  ts ← template t;
  let eventDate := date_parse (ds +:+ " " +:+ ts) in
  let timeStr := time_label eventDate now in
  name ← get_prop event "Name";
  ns ← template name;
  direction ← get_prop event "Event";
  mret (mkEventItem "recent-event-item"
          (item_markup timeStr ns (badge_class direction) (badge_text direction))).

(** [events.forEach(event => { ... })] over an array's elements. *)
Fixpoint forEach_render (events : list JsVal) : Eff unit :=
  match events with
  | [] => mret tt
  | event :: rest =>
      λ w, match render_item (clock w) event with
           | Ok item => forEach_render rest (appendChild item w)
           | Thrown e => (w, Thrown e)
           end
  end.

(** [recognitionCount.textContent = events.length], when the counter
    is on the page. *)
Definition update_count (len : JsVal) : Eff unit :=
  λ w, match el_recognitionCount (elements w) with
       | Some _ => (set_recognitionCount (to_string len) w, Ok tt)
       | None => (w, Ok tt)
       end.

(** [updateRecentEventsDisplay] past its guard: clear the container,
    append one item per event, update the counter.  Only an array has
    a [forEach] to call. *)
Definition replace_feed (events len : JsVal) : Eff unit :=
  lift (set_feed []);;
  match events with
  | VArr l => forEach_render l
  | _ => throw (TypeError "events.forEach is not a function")
  end;;
  update_count len.

(** The guard [!events || !events.length], then the replacement. *)
Definition guarded_replace (events : JsVal) : Eff unit :=
  if negb (truthy events) then mret tt
  else
    len ← eval (get_prop events "length");
    if negb (truthy len) then mret tt else replace_feed events len.

Definition updateRecentEventsDisplay (events : JsVal) : Eff unit :=
  λ w, match el_recentEvents (elements w) with
       | None => (w, Ok tt)
       | Some _ => guarded_replace events w
       end.

(** [refreshRecentEvents], up to the point where it returns. *)
Definition refreshRecentEvents (w : World) : World :=
  match el_recentEvents (elements w) with
  | None => w
  | Some _ => fetch EventsCh w
  end.

(** The [data => { ... }] callback of [refreshRecentEvents]. *)
Definition logs_then (data : JsVal) : Eff unit :=
  ok ← eval (get_prop data "success");
  if truthy ok then
    events ← eval (get_prop data "events");
    lift (set_recentEvents events);;
    updateRecentEventsDisplay events
  else mret tt.

(** The [error => { ... }] callback of [refreshRecentEvents]. *)
Definition logs_catch (e : JsError) : Eff unit :=
  lift (console_push (LogCaught "Error fetching recent events:" e)).

Definition logs_chain (o : FetchOutcome) : Eff unit :=
  catch (r ← fetch_settled o; data ← response_json r; logs_then data)
        logs_catch.

(** ** The coordinator *)

Definition startRefreshTimers (w : World) : World :=
  arm StatusInterval (statusCheckInterval (cfg w))
    (arm RefreshInterval (refreshInterval (cfg w)) w).

Definition handleVisibilityChange (w : World) : World :=
  if negb (hidden w) then checkStatus (refreshRecentEvents w) else w.

(** [init], after the DOM look-ups: [StatusManager.init] runs the
    first status check, then the two intervals are started. *)
Definition init (w : World) : World :=
  console_push (LogInfo "Dashboard utilities initialized")
    (startRefreshTimers
       (checkStatus
          (console_push
             (LogInfo "Initializing NEWAY SECURITY dashboard utilities...") w))).

(** The page at [DOMContentLoaded], before [init]. *)
Definition page (c : Config) (e : Elements) (i : Indicators) (now : Z) : World :=
  {| cfg := c; elements := e; indicators := i;
     state := mkState false (VArr []);
     clock := now; hidden := false;
     timers := ∅; nextTimer := 0%nat;
     closures := []; inflight := []; issued := []; console := [] |}.

(** ** The event loop

    The events are those the core's own callbacks answer: the stream's
    [error] and [load], [visibilitychange], the passing of time, a due
    timer and a settled request on one of the two channels.  The
    [shown.bs.tab] listener ([handleTabChange], which hands over to
    [DataManager.refreshLogsData] and to
    [EmployeeManager.refreshEmployeeList]) and the [resize] listener are
    not among them: a run of this loop says nothing about what a tab
    change requests or reloads. *)

Inductive Event : Type :=
| EvVideoError
| EvVideoLoad
| EvVisibility (nowHidden : bool)
| EvAdvance (dt : Z)
| EvTimer (id : nat)
| EvSettle (i : nat) (o : FetchOutcome).

(** A due timer runs its callback.  A timeout leaves the table before
    its callback runs; an interval is due again one period later. *)
Definition fire (id : nat) (t : Timer) (w : World) : World :=
  match kind t with
  | ReconnectTimeout s => reconnectTimerExpired s (set_timers (delete id) w)
  | RefreshInterval =>
      refreshRecentEvents
        (set_timers (<[id := mkTimer (kind t) (delay t) (clock w + delay t)]>) w)
  | StatusInterval =>
      checkStatus
        (set_timers (<[id := mkTimer (kind t) (delay t) (clock w + delay t)]>) w)
  end.

Definition settle (c : Channel) (o : FetchOutcome) : Eff unit :=
  match c with
  | StatusCh => status_chain o
  | EventsCh => logs_chain o
  end.

(** One turn of the loop; [None] when the browser cannot deliver the
    event in this world (no such timer or not yet due, no such request,
    a visibility event without a change, time running backwards). *)
Definition step (e : Event) (w : World) : option World :=
  match e with
  | EvVideoError => Some (handleVideoError w)
  | EvVideoLoad => Some (handleVideoLoad w)
  | EvVisibility h =>
      if Bool.eqb h (hidden w) then None
      else Some (handleVisibilityChange (set_hidden h w))
  | EvAdvance dt =>
      if 0 <=? dt then Some (set_clock (clock w + dt) w) else None
  | EvTimer id =>
      t ← timers w !! id;
      if due t <=? clock w then Some (fire id t w) else None
  | EvSettle i o =>
      c ← inflight w !! i;
      Some (fst (settle c o (set_inflight (delete i) w)))
  end.

Fixpoint run (es : list Event) (w : World) : option World :=
  match es with
  | [] => Some w
  | e :: rest => w' ← step e w; run rest w'
  end.

End Feed.

(** ** A concrete page for the examples *)

(** A stand-in [Date]: a date is its source string "YYYY-MM-DD HH:MM:SS",
    the date part is the first ten characters, the time part what follows
    the blank; the clock counts milliseconds on 2024-01-01. *)
Definition sample_dates : DatePlatform :=
  {| JsDate := string;
     date_parse := λ s, s;
     date_of_clock := λ _, "2024-01-01 00:00:00";
     toDateString := λ d, substring 0 10 d;
     toLocaleTimeString := λ d, substring 11 8 d;
     toLocaleString := λ d, d |}.

Definition sample_elements : Elements :=
  {| el_videoFeed := Some "/video_feed";
     el_videoStatus := Some "Live";
     el_recentEvents :=
       Some [mkEventItem "recent-event-item"
               (item_markup "Today, 08:15:00" "J. Doe" "bg-success" "Clock In")];
     el_recognitionCount := Some "1" |}.

Definition sample_indicators : Indicators :=
  {| camera := Some (mkIndicator ["status-indicator"; "camera-status"] "");
     system := Some (mkIndicator ["status-indicator"; "system-status"; "status-online"]
                                 "System Online");
     network := Some (mkIndicator ["status-indicator"; "network-status"; "status-online"]
                                  "Network Connected") |}.

(** The sample page just after [init], at clock reading 0. *)
Definition sample_world : World :=
  init (page config sample_elements sample_indicators 0).

(** The world the sample page is in after the events [es]. *)
Definition sample_after (es : list Event) : World :=
  default sample_world (run (DP := sample_dates) es sample_world).

(** One stream error, then the sequence's timers fire one after the
    other while the camera stays disconnected. *)
Definition one_error_then_timeouts : list Event :=
  [EvVideoError; EvAdvance 2000; EvTimer 2; EvAdvance 4000; EvTimer 3;
   EvAdvance 6000; EvTimer 4].

(** The schedule of the first [n] retries of the sequence whose first
    timer got the id [first], with the camera staying disconnected: the
    delay of attempt [j] passes, then the timer that attempt armed
    fires. *)
Fixpoint retries (td : Z) (first : nat) (n : nat) : list Event :=
  match n with
  | O => []
  | S n' =>
      retries td first n' ++ [EvAdvance (td * Z.of_nat n); EvTimer (first + n')%nat]
  end.

(** The reconnect sequences with a timer pending. *)
Definition active_sequences (w : World) : list nat :=
  omap (λ '(_, t), match kind t with
                   | ReconnectTimeout s => Some s
                   | _ => None
                   end) (map_to_list (timers w)).

(** The interval that polls a channel. *)
Definition poll_timer (c : Channel) : TimerKind :=
  match c with
  | StatusCh => StatusInterval
  | EventsCh => RefreshInterval
  end.

(** A fetch that ends in a rejected promise before any body is seen. *)
Definition rejects (o : FetchOutcome) : bool :=
  match o with
  | NetworkFailure | Response None => true
  | Response (Some _) => false
  end.

(** The item the callback builds for an event at clock reading 0, if
    it builds one. *)
Definition render_item_result {DP : DatePlatform} (event : JsVal) : option EventItem :=
  match render_item 0 event with
  | Ok item => Some item
  | Thrown _ => None
  end.

(** An event the [forEach] callback gets through: its fields can be
    read, and its date, time and name can be printed. *)
Definition prints (event : JsVal) (k : string) : bool :=
  match get_prop event k with
  | Ok v => negb (unprintable v)
  | Thrown _ => false
  end.

Definition renderable (event : JsVal) : bool :=
  prints event "Date" && prints event "Time" && prints event "Name".

(** What the feed holds for one event at clock reading [now]: an item
    of class [recent-event-item] whose markup is the template filled in
    with the time label ("Today, " and the time when the event's date
    string is today's, the full date and time otherwise), the printed
    name, and the badge: the green "Clock In" for direction 'IN', the
    grey "Clock Out" for every other direction. *)
Definition rendered_as {DP : DatePlatform}
    (now : Z) (event : JsVal) (item : EventItem) : Prop :=
  ∃ (d t n dir : JsVal) (badge text : string),
    get_prop event "Date" = Ok d
    ∧ get_prop event "Time" = Ok t
    ∧ get_prop event "Name" = Ok n
    ∧ get_prop event "Event" = Ok dir
    ∧ (dir = VStr "IN" → badge = "bg-success" ∧ text = "Clock In")
    ∧ (dir ≠ VStr "IN" → badge = "bg-secondary" ∧ text = "Clock Out")
    ∧ className item = "recent-event-item"
    ∧ innerHTML item
      = item_markup
          (let eventDate := date_parse (to_string d +:+ " " +:+ to_string t) in
           if String.eqb (toDateString eventDate) (toDateString (date_of_clock now))
           then "Today, " +:+ toLocaleTimeString eventDate
           else toLocaleString eventDate)
          (to_string n) badge text.

(** Every pending timer was handed out by [arm]: its id lies below the
    next id to hand out. *)
Definition timer_ids_fresh (w : World) : Prop :=
  ∀ (id : nat) (t : Timer), timers w !! id = Some t → (id < nextTimer w)%nat.

(** [w'] has the timer table of [w]. *)
Definition same_timers (w w' : World) : Prop :=
  timers w' = timers w ∧ nextTimer w' = nextTimer w.

(** A callback that arms and clears no timer. *)
Definition keeps_timers {A : Type} (m : Eff A) : Prop :=
  ∀ w : World, same_timers w (fst (m w)).

Definition sample_event (date time name direction : string) : JsVal :=
  VObj [("Name", VStr name); ("Date", VStr date); ("Time", VStr time);
        ("Event", VStr direction)].

(** ** The control state and how one turn of the loop changes it *)

(** The browser-side part of a world, which the response callbacks of
    the two fetches never write. *)
Definition browser_of (w : World)
    : Config * Z * bool * gmap nat Timer * nat * list Z * list Channel * list Channel :=
  (cfg w, clock w, hidden w, timers w, nextTimer w, closures w, inflight w, issued w).

Definition keeps_browser {A : Type} (m : Eff A) : Prop :=
  ∀ w : World, browser_of (fst (m w)) = browser_of w.

(** What a turn of the loop can do to the timer table and to the
    attempt counters: nothing; re-arm an interval; let a reconnect timer
    expire without a retry; retry within a sequence; start a sequence
    (with a first attempt, or with none when no attempt is allowed). *)
Inductive ctl_step (w w' : World) : Prop :=
| ctl_same :
    timers w' = timers w → nextTimer w' = nextTimer w →
    closures w' = closures w → ctl_step w w'
| ctl_rearm (id : nat) (t : Timer) (d : Z) :
    timers w !! id = Some t →
    kind t = RefreshInterval ∨ kind t = StatusInterval →
    timers w' = <[id := mkTimer (kind t) (delay t) d]> (timers w) →
    nextTimer w' = nextTimer w →
    closures w' = closures w → ctl_step w w'
| ctl_expire (id s : nat) (t : Timer) :
    timers w !! id = Some t →
    kind t = ReconnectTimeout s →
    timers w' = delete id (timers w) →
    nextTimer w' = nextTimer w →
    closures w' = closures w → ctl_step w w'
| ctl_retry (id s : nat) (t : Timer) (a d : Z) :
    timers w !! id = Some t →
    kind t = ReconnectTimeout s →
    closures w !! s = Some a →
    a < reconnectAttempts (cfg w) →
    timers w' = <[nextTimer w := mkTimer (ReconnectTimeout s)
                                         (timeoutDelay (cfg w) * (a + 1)) d]>
                  (delete id (timers w)) →
    nextTimer w' = S (nextTimer w) →
    closures w' = <[s := a + 1]> (closures w) → ctl_step w w'
| ctl_start (d : Z) :
    0 < reconnectAttempts (cfg w) →
    timers w' = <[nextTimer w := mkTimer (ReconnectTimeout (length (closures w)))
                                         (timeoutDelay (cfg w) * (0 + 1)) d]>
                  (timers w) →
    nextTimer w' = S (nextTimer w) →
    closures w' = closures w ++ [0 + 1] → ctl_step w w'
| ctl_refused :
    reconnectAttempts (cfg w) <= 0 →
    timers w' = timers w → nextTimer w' = nextTimer w →
    closures w' = closures w ++ [0] → ctl_step w w'.

(** No attempt counter leaves the range from 0 to [reconnectAttempts]. *)
Definition counters_bounded (w : World) : Prop :=
  Forall (λ a, 0 <= a <= Z.max 0 (reconnectAttempts (cfg w))) (closures w).

(** Every pending reconnect timer belongs to an existing sequence that
    has made at least one attempt, carries the delay of that sequence's
    current attempt, and is the only timer of its sequence. *)
Definition reconnect_timers_ok (w : World) : Prop :=
  ∀ (id s : nat) (t : Timer),
    timers w !! id = Some t → kind t = ReconnectTimeout s →
    (∃ a : Z, closures w !! s = Some a ∧ 1 <= a
              ∧ delay t = timeoutDelay (cfg w) * a)
    ∧ ∀ (id' : nat) (t' : Timer),
        timers w !! id' = Some t' → kind t' = ReconnectTimeout s → id' = id.

(** The two polling intervals started by [startRefreshTimers] are in the
    timer table, with their configured periods, and are the only
    intervals. *)
Definition intervals_armed (w : World) : Prop :=
  (∃ d : Z, timers w !! 0%nat
            = Some (mkTimer RefreshInterval (refreshInterval (cfg w)) d))
  ∧ (∃ d : Z, timers w !! 1%nat
              = Some (mkTimer StatusInterval (statusCheckInterval (cfg w)) d))
  ∧ ∀ (id : nat) (t : Timer),
      timers w !! id = Some t →
      (kind t = RefreshInterval → id = 0%nat)
      ∧ (kind t = StatusInterval → id = 1%nat).

Definition control_invariant (c : Config) (w : World) : Prop :=
  cfg w = c ∧ timer_ids_fresh w ∧ counters_bounded w
  ∧ reconnect_timers_ok w ∧ intervals_armed w.

(** The default configuration with reconnection switched off. *)
Definition no_retry_config : Config :=
  {| refreshInterval := 30000; statusCheckInterval := 60000;
     reconnectAttempts := 0; timeoutDelay := 2000 |}.

(** A page with none of the elements the core looks up. *)
Definition bare_elements : Elements :=
  {| el_videoFeed := None; el_videoStatus := None;
     el_recentEvents := None; el_recognitionCount := None |}.

(** ** CSV export ([DataManager.exportToCSV]) *)

(** What the selectors read off a table: the text of the header cells,
    and for each body row the text of its cells. *)
Record Table : Type := mkTable {
  thead : list string;
  tbody : list (list string)
}.

Definition newline_char : ascii := ascii_of_nat 10.

Definition newline : string := String newline_char EmptyString.

(** [[headers.join(','), ...rows.map(row => row.join(','))].join('\n')] *)
Definition csv_content (t : Table) : string :=
  join newline (join "," (thead t) :: List.map (join ",") (tbody t)).

(** The file the hidden link offers when it is clicked. *)
Record Download : Type := mkDownload {
  dl_content : string;
  dl_type : string;
  dl_name : string
}.

(** [exportToCSV(tableId, filename)], given what [getElementById(tableId)]
    finds.  The link is removed again after the click, so the download
    is the only effect. *)
Definition exportToCSV (table : option Table) (filename : JsVal) : option Download :=
  match table with
  | None => None
  | Some t =>
      Some (mkDownload (csv_content t) "text/csv;charset=utf-8;"
              (if truthy filename then to_string filename else "export.csv"))
  end.

(** Reading a CSV text back: [s.split(c)], and lines split at commas. *)
Fixpoint split_on (c : ascii) (s : string) : list string :=
  match s with
  | EmptyString => [EmptyString]
  | String a r =>
      if Ascii.eqb a c then EmptyString :: split_on c r
      else match split_on c r with
           | h :: t => String a h :: t
           | [] => [String a EmptyString]
           end
  end.

Definition parse_csv (s : string) : list (list string) :=
  List.map (split_on ","%char) (split_on newline_char s).

Fixpoint has_char (c : ascii) (s : string) : bool :=
  match s with
  | EmptyString => false
  | String a r => if Ascii.eqb a c then true else has_char c r
  end.

Fixpoint count_char (c : ascii) (s : string) : nat :=
  match s with
  | EmptyString => 0
  | String a r => if Ascii.eqb a c then S (count_char c r) else count_char c r
  end.


(** ** Image preview ([EmployeeManager.handleFileSelection]) *)

Record File : Type := mkFile {
  file_name : string;
  file_type : string;
  file_data : string
}.

Record ImagePreview : Type := mkPreview {
  preview_src : string;
  preview_name : string
}.

(** [s.match(pat)] for a pattern without special characters followed by
    [.*]: the pattern is not anchored, so it matches when [pat] occurs
    anywhere in [s]. *)
Fixpoint contains (pat s : string) : bool :=
  if String.prefix pat s then true
  else match s with
       | EmptyString => false
       | String _ r => contains pat r
       end.

(** [file.type.match('image.*')] *)
Definition is_image (f : File) : bool := contains "image" (file_type f).

(** The preview container's children and the [FileReader]s still
    reading, oldest first. *)
Record PreviewPage : Type := mkPreviewPage {
  previewContainer : option (list ImagePreview);
  reading : list File
}.

Definition preview_of (f : File) : ImagePreview :=
  mkPreview (file_data f) (file_name f).

(** [handleFileSelection] for the input's [files]: without the container
    nothing happens; with it, the container is emptied and one reader is
    started per image file. *)
Definition handleFileSelection (files : list File) (p : PreviewPage) : PreviewPage :=
  match previewContainer p with
  | None => p
  | Some _ => mkPreviewPage (Some []) (reading p ++ List.filter is_image files)
  end.

(** [reader.onload] of the [i]-th pending reader: its preview is
    appended to the container. *)
Definition reader_onload (i : nat) (p : PreviewPage) : option PreviewPage :=
  f ← reading p !! i;
  Some (mkPreviewPage ((λ l, l ++ [preview_of f]) <$> previewContainer p)
                      (delete i (reading p))).

(** The readers finish in the order [order] gives. *)
Fixpoint loads (order : list nat) (p : PreviewPage) : option PreviewPage :=
  match order with
  | [] => Some p
  | i :: rest => p' ← reader_onload i p; loads rest p'
  end.

(** ** Employee management ([EmployeeManager]) *)

(** An alert built by [showNotification]: its class and its message. *)
Record Notification : Type := mkNotification {
  note_id : nat;
  note_class : string;
  note_message : string
}.

Record Button : Type := mkButton {
  btn_html : string;
  btn_disabled : bool
}.

(** A [.delete-employee] button: its [data-name], the button itself,
    whether it sits inside an [.employee-card] that has a parent element,
    and whether that parent has been removed from the page. *)
Record EmployeeCard : Type := mkCard {
  card_name : JsVal;
  card_button : Button;
  card_wrapped : bool;
  card_removed : bool
}.

(** The add-employee form: the verdict of [checkValidity], the
    [was-validated] class, the current and the default field values, and
    the submit button. *)
Record AddForm : Type := mkAddForm {
  form_valid : bool;
  form_was_validated : bool;
  form_fields : list (string * string);
  form_defaults : list (string * string);
  form_submit : Button
}.

(** [mainContent] holds the alerts at the front of [.main-content]
    ([None]: the page has no such element); [noteTimers] the alerts whose
    five-second timer is pending; [modal] the add-employee modal's
    instance, if any, and whether it is shown; [deleting] and [adding] the
    requests under way, each with what its callbacks have captured. *)
Record EmployeePage : Type := mkEmployeePage {
  mainContent : option (list Notification);
  noteTimers : list nat;
  nextNote : nat;
  cards : list EmployeeCard;
  form : AddForm;
  modal : option bool;
  reloading : bool;
  deleting : list (nat * JsVal);
  adding : list (JsVal * string);
  emp_console : list LogEntry
}.

Definition EEff (A : Type) : Type := EmployeePage → EmployeePage * Res A.

Global Instance EEff_ret : MRet EEff := λ A a p, (p, Ok a).
Global Instance EEff_bind : MBind EEff := λ A B f m p,
  match m p with
  | (p', Ok a) => f a p'
  | (p', Thrown e) => (p', Thrown e)
  end.

Definition ecatch {A : Type} (m : EEff A) (h : JsError → EEff A) : EEff A :=
  λ p, match m p with
       | (p', Ok a) => (p', Ok a)
       | (p', Thrown e) => h e p'
       end.

(** [promise.finally(f)]: [f] runs either way; the promise keeps its
    outcome unless [f] throws. *)
Definition efinally {A : Type} (m : EEff A) (f : EEff unit) : EEff A :=
  λ p, match m p with
       | (p', r) => match f p' with
                    | (p'', Ok _) => (p'', r)
                    | (p'', Thrown e) => (p'', Thrown e)
                    end
       end.

Definition elift (f : EmployeePage → EmployeePage) : EEff unit := λ p, (f p, Ok tt).

Definition eeval {A : Type} (r : Res A) : EEff A := λ p, (p, r).

(** The body a settled fetch hands to the second [then], if it gets
    that far. *)
Definition settled_body (o : FetchOutcome) : Res JsVal :=
  match o with
  | NetworkFailure => Thrown (TypeError "Failed to fetch")
  | Response None => Thrown (SyntaxError "Unexpected token in JSON")
  | Response (Some d) => Ok d
  end.

Definition set_cards (f : list EmployeeCard → list EmployeeCard) (p : EmployeePage)
    : EmployeePage :=
  mkEmployeePage (mainContent p) (noteTimers p) (nextNote p) (f (cards p)) (form p)
                 (modal p) (reloading p) (deleting p) (adding p) (emp_console p).

Definition set_form (f : AddForm → AddForm) (p : EmployeePage) : EmployeePage :=
  mkEmployeePage (mainContent p) (noteTimers p) (nextNote p) (cards p) (f (form p))
                 (modal p) (reloading p) (deleting p) (adding p) (emp_console p).

Definition set_modal (m : option bool) (p : EmployeePage) : EmployeePage :=
  mkEmployeePage (mainContent p) (noteTimers p) (nextNote p) (cards p) (form p)
                 m (reloading p) (deleting p) (adding p) (emp_console p).

Definition set_reloading (b : bool) (p : EmployeePage) : EmployeePage :=
  mkEmployeePage (mainContent p) (noteTimers p) (nextNote p) (cards p) (form p)
                 (modal p) b (deleting p) (adding p) (emp_console p).

Definition set_deleting (f : list (nat * JsVal) → list (nat * JsVal))
    (p : EmployeePage) : EmployeePage :=
  mkEmployeePage (mainContent p) (noteTimers p) (nextNote p) (cards p) (form p)
                 (modal p) (reloading p) (f (deleting p)) (adding p) (emp_console p).

Definition set_adding (f : list (JsVal * string) → list (JsVal * string))
    (p : EmployeePage) : EmployeePage :=
  mkEmployeePage (mainContent p) (noteTimers p) (nextNote p) (cards p) (form p)
                 (modal p) (reloading p) (deleting p) (f (adding p)) (emp_console p).

Definition emp_log (e : LogEntry) (p : EmployeePage) : EmployeePage :=
  mkEmployeePage (mainContent p) (noteTimers p) (nextNote p) (cards p) (form p)
                 (modal p) (reloading p) (deleting p) (adding p) (emp_console p ++ [e]).

(** [showNotification(type, message)]: the alert is put in front of the
    other children of [.main-content] and its timer is started; on a page
    without [.main-content] the [prepend] call throws before any of
    that. *)
Definition showNotification (type message : string) : EEff unit :=
  λ p, match mainContent p with
       | None => (p, Thrown (TypeError "Cannot read properties of null"))
       | Some notes =>
           let n := mkNotification (nextNote p)
                      ("alert alert-" +:+ type +:+ " alert-dismissible fade show")
                      message in
           (mkEmployeePage (Some (n :: notes)) (noteTimers p ++ [note_id n])
                           (S (nextNote p)) (cards p) (form p) (modal p)
                           (reloading p) (deleting p) (adding p) (emp_console p),
            Ok tt)
       end.

(** The alert's timer fires: the alert leaves the page. *)
Definition dismiss (id : nat) (p : EmployeePage) : EmployeePage :=
  mkEmployeePage (filter (λ n, note_id n ≠ id) <$> mainContent p)
                 (filter (λ x, x ≠ id) (noteTimers p))
                 (nextNote p) (cards p) (form p) (modal p)
                 (reloading p) (deleting p) (adding p) (emp_console p).

Definition spinner_html : string :=
  "<i class=" +:+ dq +:+ "fas fa-spinner fa-spin" +:+ dq +:+ "></i>".

Definition trash_html : string :=
  "<i class=" +:+ dq +:+ "fas fa-trash-alt" +:+ dq +:+ "></i> Delete".

Definition set_card_button (i : nat) (b : Button) (p : EmployeePage) : EmployeePage :=
  set_cards (λ cs, match cs !! i with
                   | Some c => <[i := mkCard (card_name c) b (card_wrapped c)
                                             (card_removed c)]> cs
                   | None => cs
                   end) p.

(** [handleDeleteEmployee] on the [i]-th delete button, with the answer
    the user gives to [confirm]. *)
Definition handleDeleteEmployee (i : nat) (confirmed : bool) (p : EmployeePage)
    : EmployeePage :=
  match cards p !! i with
  | None => p
  | Some c =>
      if confirmed then
        set_deleting (λ l, l ++ [(i, card_name c)])
          (set_card_button i (mkButton spinner_html true) p)
      else p
  end.

(** [button.closest('.employee-card').parentElement.remove()] *)
Definition remove_card (i : nat) : EEff unit :=
  λ p, match cards p !! i with
       | None => (p, Ok tt)
       | Some c =>
           if card_wrapped c then
             (set_cards (<[i := mkCard (card_name c) (card_button c) true true]>) p,
              Ok tt)
           else (p, Thrown (TypeError "Cannot read properties of null"))
       end.

Definition restore_delete_button (i : nat) : EEff unit :=
  elift (set_card_button i (mkButton trash_html false)).

Definition delete_then (i : nat) (name data : JsVal) : EEff unit :=
  ok ← eeval (get_prop data "success");
  if truthy ok then
    showNotification "success"
      ("Employee " +:+ to_string name +:+ " deleted successfully!");;
    remove_card i
  else
    err ← eeval (get_prop data "error");
    msg ← eeval (template err);
    showNotification "danger" ("Error: " +:+ msg);;
    restore_delete_button i.

Definition delete_catch (i : nat) (e : JsError) : EEff unit :=
  elift (emp_log (LogCaught "Error deleting employee:" e));;
  showNotification "danger" "An error occurred while deleting the employee";;
  restore_delete_button i.

(** The promise chain of [handleDeleteEmployee], run when the request
    settles. *)
Definition delete_chain (i : nat) (name : JsVal) (o : FetchOutcome) : EEff unit :=
  ecatch (data ← eeval (settled_body o); delete_then i name data) (delete_catch i).

Fixpoint field (k : string) (fs : list (string * string)) : JsVal :=
  match fs with
  | [] => VNull
  | (k', v) :: rest => if String.eqb k k' then VStr v else field k rest
  end.

Definition set_submit (b : Button) (p : EmployeePage) : EmployeePage :=
  set_form (λ f, mkAddForm (form_valid f) (form_was_validated f) (form_fields f)
                           (form_defaults f) b) p.

(** [handleAddEmployee], for a form that has its submit button: an
    invalid form is only marked; a valid one is sent, with the submit
    button in its loading state until the request settles.  The request
    keeps the name the form held and the button's text. *)
Definition handleAddEmployee (p : EmployeePage) : EmployeePage :=
  if negb (form_valid (form p)) then
    set_form (λ f, mkAddForm (form_valid f) true (form_fields f)
                             (form_defaults f) (form_submit f)) p
  else
    set_adding (λ l, l ++ [(field "name" (form_fields (form p)),
                            btn_html (form_submit (form p)))])
      (set_submit (mkButton (spinner_html +:+ " Saving...") true) p).

Definition hide_modal (p : EmployeePage) : EmployeePage :=
  match modal p with
  | Some _ => set_modal (Some false) p
  | None => p
  end.

Definition reset_form (p : EmployeePage) : EmployeePage :=
  set_form (λ f, mkAddForm (form_valid f) (form_was_validated f) (form_defaults f)
                           (form_defaults f) (form_submit f)) p.

(** [refreshEmployeeList]: [window.location.reload()] *)
Definition refreshEmployeeList (p : EmployeePage) : EmployeePage :=
  set_reloading true p.

Definition add_then (name data : JsVal) : EEff unit :=
  ok ← eeval (get_prop data "success");
  if truthy ok then
    showNotification "success"
      ("Employee " +:+ to_string name +:+ " added successfully!");;
    elift hide_modal;;
    elift reset_form;;
    elift refreshEmployeeList
  else
    err ← eeval (get_prop data "error");
    msg ← eeval (template err);
    showNotification "danger" ("Error: " +:+ msg).

Definition add_catch (e : JsError) : EEff unit :=
  elift (emp_log (LogCaught "Error adding employee:" e));;
  showNotification "danger" "An error occurred while adding the employee".

Definition add_finally (originalText : string) : EEff unit :=
  elift (set_submit (mkButton originalText false)).

(** The promise chain of [handleAddEmployee], run when the request
    settles. *)
Definition add_chain (name : JsVal) (originalText : string) (o : FetchOutcome)
    : EEff unit :=
  efinally
    (ecatch (data ← eeval (settled_body o); add_then name data) add_catch)
    (add_finally originalText).

(** A response that the callbacks take for a success: a JSON body whose
    [success] is truthy. *)
Definition succeeds (o : FetchOutcome) : bool :=
  match settled_body o with
  | Ok data => match get_prop data "success" with
               | Ok ok => truthy ok
               | Thrown _ => false
               end
  | Thrown _ => false
  end.

Definition sample_employee_page : EmployeePage :=
  {| mainContent := Some [];
     noteTimers := []; nextNote := 0%nat;
     cards := [mkCard (VStr "J. Doe") (mkButton trash_html false) true false];
     form := mkAddForm true false [("name", "A. Roe")] [("name", "")]
                       (mkButton "Save Employee" false);
     modal := Some true; reloading := false;
     deleting := []; adding := []; emp_console := [] |}.

(** The same page without a [.main-content] element. *)
Definition sample_bare_employee_page : EmployeePage :=
  {| mainContent := None;
     noteTimers := []; nextNote := 0%nat;
     cards := [mkCard (VStr "J. Doe") (mkButton trash_html false) true false];
     form := mkAddForm true false [("name", "A. Roe")] [("name", "")]
                       (mkButton "Save Employee" false);
     modal := Some true; reloading := false;
     deleting := []; adding := []; emp_console := [] |}.

(** What the dashboard holds about the stream: the camera flag, the
    camera indicator, the stream's [src] and the attempt counters. *)
Definition stream_view (w : World) : bool * option Indicator * option string * list Z :=
  (st_cameraConnected (state w), camera (indicators w),
   el_videoFeed (elements w), closures w).

(** The camera indicator shows what the camera flag says. *)
Definition camera_in_sync (w : World) : Prop :=
  ∀ ind : Indicator,
    camera (indicators w) = Some ind →
    ("status-online" ∈ classList ind ↔ st_cameraConnected (state w) = true)
    ∧ ("status-offline" ∈ classList ind ↔ st_cameraConnected (state w) = false).

(** A callback that leaves an observation of the world as it found it. *)
Definition keeps {X A : Type} (obs : World → X) (m : Eff A) : Prop :=
  ∀ w : World, obs (fst (m w)) = obs w.

Definition present {A : Type} (o : option A) : bool :=
  match o with
  | Some _ => true
  | None => false
  end.

(** Which elements and indicators the page has, and the stream's URL
    without its query. *)
Definition page_shape (w : World)
    : option string * bool * bool * bool * bool * bool * bool :=
  (before_query <$> el_videoFeed (elements w),
   present (el_videoStatus (elements w)),
   present (el_recentEvents (elements w)),
   present (el_recognitionCount (elements w)),
   present (camera (indicators w)),
   present (system (indicators w)),
   present (network (indicators w))).

(** Everything but the system indicator, the network indicator and the
    console. *)
Definition beside_status (w : World) :=
  (elements w, state w, camera (indicators w), browser_of w).

(** Everything but the stored events, the feed, the recognition counter
    and the console. *)
Definition beside_feed (w : World) :=
  (indicators w, st_cameraConnected (state w), el_videoFeed (elements w),
   el_videoStatus (elements w), browser_of w).

(** The class list of the system indicator once [updateSystemStatus] has
    removed the three status classes. *)
Definition status_cleared (l : list string) : list string :=
  classList_remove "status-warning"
    (classList_remove "status-offline" (classList_remove "status-online" l)).

(** * Properties *)

(** ** Reconnection *)

Section Reconnect.
Context {DP : DatePlatform}.

Lemma tryReconnect_attempt (w : World) (s : nat) (a : Z) :
  closures w !! s = Some a →
  a < reconnectAttempts (cfg w) →
  closures (tryReconnect s w) = <[s := a + 1]> (closures w)
  ∧ timers (tryReconnect s w)
    = <[nextTimer w := mkTimer (ReconnectTimeout s)
                               (timeoutDelay (cfg w) * (a + 1))
                               (clock w + timeoutDelay (cfg w) * (a + 1))]>
        (timers w)
  ∧ nextTimer (tryReconnect s w) = S (nextTimer w).
Proof.
  intros Hs Ha. unfold tryReconnect. rewrite Hs.
  destruct (Z.geb_spec a (reconnectAttempts (cfg w))) as [Hge|_]; [lia|].
  destruct w as [c [vf vs re rc] i st ck h ts nt cl inf iss con].
  destruct vf, vs; repeat split.
Qed.

Lemma tryReconnect_exhausted (w : World) (s : nat) (a : Z) :
  closures w !! s = Some a →
  reconnectAttempts (cfg w) <= a →
  tryReconnect s w
  = console_push (LogError "Failed to reconnect after multiple attempts") w.
Proof.
  intros Hs Ha. unfold tryReconnect. rewrite Hs.
  destruct (Z.geb_spec a (reconnectAttempts (cfg w))) as [_|Hlt]; [done|lia].
Qed.

Lemma tryReconnect_keeps (s : nat) (w : World) :
  cfg (tryReconnect s w) = cfg w
  ∧ state (tryReconnect s w) = state w
  ∧ clock (tryReconnect s w) = clock w.
Proof.
  unfold tryReconnect. destruct (closures w !! s); [|repeat split].
  destruct (_ >=? _); [repeat split|].
  destruct w as [c [vf vs re rc] i st ck h ts nt cl inf iss con].
  destruct vf, vs; repeat split.
Qed.

Lemma run_app (es1 es2 : list Event) (w : World) :
  run (es1 ++ es2) w = run es1 w ≫= run es2.
Proof.
  revert w. induction es1 as [|e es1 IH]; intros w; [reflexivity|].
  cbn [app run]. destruct (step e w) as [w1|]; [apply IH|reflexivity].
Qed.

(** The first attempt of a sequence, made by the stream's error
    handler. *)
Lemma handleVideoError_attempt (w : World) :
  0 < reconnectAttempts (cfg w) →
  cfg (handleVideoError w) = cfg w
  ∧ st_cameraConnected (state (handleVideoError w)) = false
  ∧ clock (handleVideoError w) = clock w
  ∧ closures (handleVideoError w) = closures w ++ [1]
  ∧ nextTimer (handleVideoError w) = S (nextTimer w)
  ∧ timers (handleVideoError w)
    = <[nextTimer w := mkTimer (ReconnectTimeout (length (closures w)))
                               (timeoutDelay (cfg w) * 1)
                               (clock w + timeoutDelay (cfg w) * 1)]>
        (timers w).
Proof.
  intros Hmax. unfold handleVideoError, attemptReconnect.
  set (w1 := updateCameraStatus false _).
  assert (E : cfg w1 = cfg w ∧ closures w1 = closures w ∧ timers w1 = timers w
              ∧ nextTimer w1 = nextTimer w ∧ clock w1 = clock w
              ∧ st_cameraConnected (state w1) = false).
  { subst w1. unfold updateCameraStatus. cbn.
    destruct (camera (indicators w)); cbn; repeat split. }
  destruct E as (Ecfg & Ecl & Etm & Ent & Eck & Est).
  set (w2 := set_closures _ w1).
  assert (Hs : closures w2 !! length (closures w1) = Some 0).
  { subst w2. cbn. rewrite lookup_app_r by lia.
    replace (length (closures w1) - length (closures w1))%nat with 0%nat by lia.
    reflexivity. }
  assert (Hlt : 0 < reconnectAttempts (cfg w2)).
  { subst w2. cbn. rewrite Ecfg. exact Hmax. }
  destruct (tryReconnect_attempt w2 (length (closures w1)) 0 Hs Hlt) as (Hc & Ht & Hn).
  destruct (tryReconnect_keeps (length (closures w1)) w2) as (Kc & Ks & Kk).
  rewrite Kc, Ks, Kk, Hc, Ht, Hn. subst w2. cbn. rewrite Ecfg, Ecl, Etm, Ent, Eck, Est.
  repeat split.
  rewrite insert_app_r_alt by lia.
  replace (length (closures w) - length (closures w))%nat with 0%nat by lia.
  reflexivity.
Qed.

(** A later attempt, made by the timer's callback: with the camera
    still disconnected and attempts left, the turn of the loop that
    delivers the timer takes it out of the table, raises the sequence's
    counter by one and arms the next timer. *)
Lemma reconnect_timer_retries (w : World) (id s : nat) (t : Timer) (a : Z) :
  timers w !! id = Some t →
  kind t = ReconnectTimeout s →
  due t <= clock w →
  st_cameraConnected (state w) = false →
  closures w !! s = Some a →
  a < reconnectAttempts (cfg w) →
  ∃ w' : World,
    step (EvTimer id) w = Some w'
    ∧ cfg w' = cfg w
    ∧ state w' = state w
    ∧ clock w' = clock w
    ∧ closures w' = <[s := a + 1]> (closures w)
    ∧ nextTimer w' = S (nextTimer w)
    ∧ timers w'
      = <[nextTimer w := mkTimer (ReconnectTimeout s)
                                 (timeoutDelay (cfg w) * (a + 1))
                                 (clock w + timeoutDelay (cfg w) * (a + 1))]>
          (delete id (timers w)).
Proof.
  intros Ht Hk Hdue Hcam Hs Ha.
  exists (tryReconnect s (set_timers (delete id) w)). split.
  - cbn. rewrite Ht. cbn.
    destruct (Z.leb_spec (due t) (clock w)) as [_|?]; [|lia].
    unfold fire. rewrite Hk. unfold reconnectTimerExpired. cbn.
    rewrite Hcam. reflexivity.
  - destruct (tryReconnect_keeps s (set_timers (delete id) w)) as (Kc & Ks & Kk).
    destruct (tryReconnect_attempt (set_timers (delete id) w) s a Hs Ha)
      as (Hc & Htm & Hn).
    rewrite Kc, Ks, Kk, Hc, Htm, Hn. repeat split.
Qed.

(** C2.  One reconnect sequence, from the stream error that starts it:
    the error handler makes attempt 1, and each later attempt is made by
    the callback of the timer the attempt before it armed, delivered by
    the loop when its delay has passed and the camera is still
    disconnected.  For every [k] from 1 to [reconnectAttempts], after
    attempt [k] the sequence's counter is [k] and the timer that attempt
    armed is a single-shot timer of the sequence with delay
    [timeoutDelay * k]. *)
Theorem backoff_delay_linear (w : World) (k : Z) :
  0 <= timeoutDelay (cfg w) →
  1 <= k <= reconnectAttempts (cfg w) →
  ∃ w' : World,
    run (EvVideoError
         :: retries (timeoutDelay (cfg w)) (nextTimer w) (Z.to_nat (k - 1))) w
    = Some w'
    ∧ closures w' !! length (closures w) = Some k
    ∧ timers w' !! (nextTimer w + Z.to_nat (k - 1))%nat
      = Some (mkTimer (ReconnectTimeout (length (closures w)))
                      (timeoutDelay (cfg w) * k)
                      (clock w' + timeoutDelay (cfg w) * k)).
Proof.
  intros Htd Hk.
  assert (G : ∀ n : nat,
    Z.of_nat n < reconnectAttempts (cfg w) →
    ∃ w' : World,
      run (EvVideoError :: retries (timeoutDelay (cfg w)) (nextTimer w) n) w = Some w'
      ∧ cfg w' = cfg w
      ∧ st_cameraConnected (state w') = false
      ∧ length (closures w') = S (length (closures w))
      ∧ closures w' !! length (closures w) = Some (Z.of_nat n + 1)
      ∧ nextTimer w' = S (nextTimer w + n)
      ∧ timers w' !! (nextTimer w + n)%nat
        = Some (mkTimer (ReconnectTimeout (length (closures w)))
                        (timeoutDelay (cfg w) * (Z.of_nat n + 1))
                        (clock w' + timeoutDelay (cfg w) * (Z.of_nat n + 1)))).
  { induction n as [|n IH]; intros Hn.
    - destruct (handleVideoError_attempt w) as (Hc & Hs & Hck & Hcl & Hnt & Htm); [lia|].
      exists (handleVideoError w). split; [reflexivity|].
      rewrite Hc, Hs, Hck, Hcl, Hnt, Htm.
      replace (nextTimer w + 0)%nat with (nextTimer w) by lia.
      split; [reflexivity|]. split; [reflexivity|].
      split; [rewrite length_app; cbn; lia|].
      split; [rewrite lookup_app_r by lia;
              replace (length (closures w) - length (closures w))%nat with 0%nat by lia;
              reflexivity|].
      split; [reflexivity|].
      rewrite lookup_insert_eq. reflexivity.
    - destruct IH as (w1 & Hrun & Hc & Hs & Hlen & Hcl & Hnt & Htm); [lia|].
      set (d := timeoutDelay (cfg w) * Z.of_nat (S n)).
      assert (Hd : 0 <= d) by (subst d; lia).
      set (w2 := set_clock (clock w1 + d) w1).
      assert (Hdue : due (mkTimer (ReconnectTimeout (length (closures w)))
                            (timeoutDelay (cfg w) * (Z.of_nat n + 1))
                            (clock w1 + timeoutDelay (cfg w) * (Z.of_nat n + 1)))
                     <= clock w2).
      { subst w2 d. cbn. lia. }
      assert (Hlt : Z.of_nat n + 1 < reconnectAttempts (cfg w2)).
      { subst w2. cbn. rewrite Hc. lia. }
      destruct (reconnect_timer_retries w2 (nextTimer w + n)%nat
                  (length (closures w)) _ (Z.of_nat n + 1) Htm eq_refl Hdue Hs Hcl Hlt)
        as (w3 & Hstep & Kc & Ks & Kk & Kcl & Knt & Ktm).
      exists w3. split.
      + change (EvVideoError :: retries (timeoutDelay (cfg w)) (nextTimer w) (S n))
          with ((EvVideoError :: retries (timeoutDelay (cfg w)) (nextTimer w) n)
                ++ [EvAdvance d; EvTimer (nextTimer w + n)%nat]).
        assert (Hadv : step (EvAdvance d) w1 = Some w2).
        { cbn. destruct (Z.leb_spec 0 d) as [_|?]; [reflexivity|lia]. }
        rewrite run_app, Hrun. cbn [mbind option_bind run].
        rewrite Hadv. cbn [mbind option_bind]. rewrite Hstep. reflexivity.
      + rewrite Kc, Ks, Kk, Kcl, Knt, Ktm. subst w2. cbn [cfg set_clock state closures nextTimer clock timers].
        split; [exact Hc|]. split; [exact Hs|].
        split; [rewrite length_insert; exact Hlen|].
        split; [rewrite list_lookup_insert_eq by lia; f_equal; lia|].
        split; [rewrite Hnt; lia|].
        rewrite Hnt. replace (nextTimer w + S n)%nat with (S (nextTimer w + n)) by lia.
        rewrite lookup_insert_eq, Hc. do 2 f_equal; lia. }
  destruct (G (Z.to_nat (k - 1))) as (w' & Hrun & _ & _ & _ & Hcl & _ & Htm); [lia|].
  exists w'. split; [exact Hrun|].
  replace (Z.of_nat (Z.to_nat (k - 1)) + 1) with k in * by lia.
  split; [exact Hcl|exact Htm].
Qed.

(** C3, as the code has it.  When the timer of a sequence that has
    made [reconnectAttempts] attempts (or more) expires with the camera
    still disconnected, the callback only writes the failure to the
    console: no timer is armed, the stream is not reloaded, and state,
    elements, indicators and counters stay as the last attempt left
    them.  Nothing records a failed state. *)
Theorem exhausted_sequence_only_logs (w : World) (id s : nat) (t : Timer) (a : Z) :
  timers w !! id = Some t →
  kind t = ReconnectTimeout s →
  due t <= clock w →
  st_cameraConnected (state w) = false →
  closures w !! s = Some a →
  reconnectAttempts (cfg w) <= a →
  step (EvTimer id) w
  = Some (console_push (LogError "Failed to reconnect after multiple attempts")
            (set_timers (delete id) w)).
Proof.
  intros Ht Hk Hdue Hcam Hs Ha. cbn. rewrite Ht. cbn.
  destruct (Z.leb_spec (due t) (clock w)) as [_|?]; [|lia].
  unfold fire. rewrite Hk. unfold reconnectTimerExpired. cbn. rewrite Hcam. cbn.
  f_equal. apply (tryReconnect_exhausted _ s a); assumption.
Qed.

(** C4, as the code has it.  Every stream-error event starts a retry
    sequence of its own: a new counter is allocated, its first attempt
    is made at once and its timer is armed, while every timer already
    pending (those of the sequences in flight among them) stays
    pending and every existing counter keeps its value. *)
Theorem error_starts_a_new_sequence (w : World) :
  0 < reconnectAttempts (cfg w) →
  timers w !! nextTimer w = None →
  closures (handleVideoError w) = closures w ++ [1]
  ∧ timers (handleVideoError w) !! nextTimer w
    = Some (mkTimer (ReconnectTimeout (length (closures w)))
                    (timeoutDelay (cfg w) * 1)
                    (clock w + timeoutDelay (cfg w) * 1))
  ∧ ∀ (id : nat) (t : Timer),
      timers w !! id = Some t → timers (handleVideoError w) !! id = Some t.
Proof.
  intros Hmax Hfresh. unfold handleVideoError, attemptReconnect.
  set (w1 := updateCameraStatus false _).
  assert (E : cfg w1 = cfg w ∧ closures w1 = closures w ∧ timers w1 = timers w
              ∧ nextTimer w1 = nextTimer w ∧ clock w1 = clock w).
  { subst w1. unfold updateCameraStatus. cbn.
    destruct (camera (indicators w)); cbn; repeat split. }
  destruct E as (Ecfg & Ecl & Etm & Ent & Eck).
  set (w2 := set_closures _ w1).
  assert (Hs : closures w2 !! length (closures w1) = Some 0).
  { subst w2. cbn. rewrite lookup_app_r by lia.
    replace (length (closures w1) - length (closures w1))%nat with 0%nat by lia.
    reflexivity. }
  assert (Hlt : 0 < reconnectAttempts (cfg w2)).
  { subst w2. cbn. rewrite Ecfg. exact Hmax. }
  destruct (tryReconnect_attempt w2 (length (closures w1)) 0 Hs Hlt) as (Hc & Ht & _).
  rewrite Hc, Ht. subst w2. cbn. rewrite Ecfg, Ecl, Etm, Ent, Eck.
  split; [|split].
  - rewrite insert_app_r_alt by lia.
    replace (length (closures w) - length (closures w))%nat with 0%nat by lia.
    reflexivity.
  - rewrite lookup_insert_eq. reflexivity.
  - intros id t Hid. rewrite lookup_insert_ne; [exact Hid|].
    intros E. rewrite <- E in Hid. congruence.
Qed.

(** C9.  A reconnect timer that expires when the camera is connected
    again is a no-op: its callback returns the world as it found it,
    so the whole turn of the loop only takes the expired timer out of
    the table.  No state is written, the stream is not reloaded and no
    timer is armed. *)
Theorem stale_reconnect_timer_noop (w : World) (id s : nat) (t : Timer) :
  timers w !! id = Some t →
  kind t = ReconnectTimeout s →
  due t <= clock w →
  st_cameraConnected (state w) = true →
  reconnectTimerExpired s w = w
  ∧ step (EvTimer id) w = Some (set_timers (delete id) w).
Proof.
  intros Ht Hk Hdue Hcam. split.
  - unfold reconnectTimerExpired. rewrite Hcam. reflexivity.
  - cbn. rewrite Ht. cbn.
    destruct (Z.leb_spec (due t) (clock w)) as [_|?]; [|lia].
    unfold fire. rewrite Hk. unfold reconnectTimerExpired. cbn.
    rewrite Hcam. reflexivity.
Qed.

End Reconnect.

(** The default configuration: the three timers of one sequence are armed
    with delays 2000, 4000 and 6000 ms. *)
Example default_backoff_delays :
  let w := sample_after [EvVideoError; EvAdvance 2000; EvTimer 2;
                         EvAdvance 4000; EvTimer 3] in
  delay <$> timers (sample_after [EvVideoError]) !! 2%nat = Some 2000
  ∧ delay <$> timers (sample_after [EvVideoError; EvAdvance 2000; EvTimer 2]) !! 3%nat
    = Some 4000
  ∧ delay <$> timers w !! 4%nat = Some 6000
  ∧ active_sequences w = [0%nat].
Proof. vm_compute. repeat split. Qed.

Lemma backoff_delay_linear_witness :
  let w := sample_world in
  let s := length (closures w) in
  let delays (k : Z) : Prop :=
    ∃ w' : World,
      run (DP := sample_dates)
        (EvVideoError
         :: retries (timeoutDelay (cfg w)) (nextTimer w) (Z.to_nat (k - 1))) w
      = Some w'
      ∧ closures w' !! s = Some k
      ∧ timers w' !! (nextTimer w + Z.to_nat (k - 1))%nat
        = Some (mkTimer (ReconnectTimeout s) (timeoutDelay (cfg w) * k)
                        (clock w' + timeoutDelay (cfg w) * k)) in
  0 <= timeoutDelay (cfg w)
  ∧ reconnectAttempts (cfg w) = 3
  ∧ timeoutDelay (cfg w) * 1 = 2000
  ∧ timeoutDelay (cfg w) * 2 = 4000
  ∧ timeoutDelay (cfg w) * 3 = 6000
  ∧ delays 1 ∧ delays 2 ∧ delays 3.
Proof.
  intros w s delays.
  assert (Htd : 0 <= timeoutDelay (cfg w)) by (vm_compute; discriminate).
  assert (H1 : 1 <= 1 <= reconnectAttempts (cfg w)) by (vm_compute; split; discriminate).
  assert (H2 : 1 <= 2 <= reconnectAttempts (cfg w)) by (vm_compute; split; discriminate).
  assert (H3 : 1 <= 3 <= reconnectAttempts (cfg w)) by (vm_compute; split; discriminate).
  split; [exact Htd|]. split; [reflexivity|].
  split; [reflexivity|]. split; [reflexivity|]. split; [reflexivity|].
  split; [exact (backoff_delay_linear (DP := sample_dates) w 1 Htd H1)|].
  split; [exact (backoff_delay_linear (DP := sample_dates) w 2 Htd H2)|].
  exact (backoff_delay_linear (DP := sample_dates) w 3 Htd H3).
Defined.

(** C3 fails as stated: the code has no terminal failed state.  On the
    sample page one stream error is followed by the three attempts and the
    failure message; the sequence is exhausted and no reconnect timer is
    pending.  The next stream error nevertheless reloads the stream and
    arms a reconnect timer again. *)
Lemma exhausted_monitor_restarts_on_error :
  ∃ w w' : World,
    run (DP := sample_dates) one_error_then_timeouts sample_world = Some w
    ∧ closures w !! 0%nat = Some (reconnectAttempts (cfg w))
    ∧ active_sequences w = []
    ∧ step (DP := sample_dates) EvVideoError w = Some w'
    ∧ active_sequences w' = [1%nat]
    ∧ el_videoFeed (elements w) = Some "/video_feed?t=6000"
    ∧ el_videoFeed (elements w') = Some "/video_feed?t=12000".
Proof.
  do 2 eexists. split; [vm_compute; reflexivity|].
  split; [vm_compute; reflexivity|]. split; [vm_compute; reflexivity|].
  split; [vm_compute; reflexivity|]. vm_compute. repeat split.
Qed.

Lemma exhausted_sequence_only_logs_witness :
  let w := sample_after [EvVideoError; EvAdvance 2000; EvTimer 2;
                         EvAdvance 4000; EvTimer 3; EvAdvance 6000] in
  let t := mkTimer (ReconnectTimeout 0) 6000 12000 in
  timers w !! 4%nat = Some t
  ∧ due t <= clock w
  ∧ st_cameraConnected (state w) = false
  ∧ closures w !! 0%nat = Some 3
  ∧ reconnectAttempts (cfg w) <= 3
  ∧ step (DP := sample_dates) (EvTimer 4) w
    = Some (console_push (LogError "Failed to reconnect after multiple attempts")
              (set_timers (delete 4%nat) w)).
Proof.
  intros w t.
  assert (Ht : timers w !! 4%nat = Some t) by (vm_compute; reflexivity).
  assert (Hd : due t <= clock w) by (vm_compute; discriminate).
  assert (Hc : st_cameraConnected (state w) = false) by (vm_compute; reflexivity).
  assert (Hs : closures w !! 0%nat = Some 3) by (vm_compute; reflexivity).
  assert (Ha : reconnectAttempts (cfg w) <= 3) by (vm_compute; discriminate).
  repeat (split; [assumption|]).
  exact (exhausted_sequence_only_logs (DP := sample_dates) w 4%nat 0%nat t 3
           Ht eq_refl Hd Hc Hs Ha).
Defined.

(** C4 fails as stated: a second stream error, arriving while the first
    sequence waits for its timer, starts a second sequence.  Both have a
    timer pending and each has a counter of its own. *)
Lemma second_error_starts_parallel_sequence :
  ∃ w1 w2 : World,
    step (DP := sample_dates) EvVideoError sample_world = Some w1
    ∧ active_sequences w1 = [0%nat]
    ∧ step (DP := sample_dates) EvVideoError w1 = Some w2
    ∧ length (active_sequences w2) = 2%nat
    ∧ closures w2 = [1; 1].
Proof.
  do 2 eexists. split; [vm_compute; reflexivity|].
  split; [vm_compute; reflexivity|]. split; [vm_compute; reflexivity|].
  vm_compute. repeat split.
Qed.

Lemma error_starts_a_new_sequence_witness :
  let w := sample_after [EvVideoError] in
  0 < reconnectAttempts (cfg w)
  ∧ timers w !! nextTimer w = None
  ∧ closures (handleVideoError w) = closures w ++ [1]
  ∧ timers (handleVideoError w) !! nextTimer w
    = Some (mkTimer (ReconnectTimeout (length (closures w)))
                    (timeoutDelay (cfg w) * 1)
                    (clock w + timeoutDelay (cfg w) * 1))
  ∧ ∀ (id : nat) (t : Timer),
      timers w !! id = Some t → timers (handleVideoError w) !! id = Some t.
Proof.
  intros w.
  assert (Hm : 0 < reconnectAttempts (cfg w)) by (vm_compute; reflexivity).
  assert (Hf : timers w !! nextTimer w = None) by (vm_compute; reflexivity).
  split; [exact Hm|]. split; [exact Hf|].
  exact (error_starts_a_new_sequence w Hm Hf).
Defined.

Lemma stale_reconnect_timer_noop_witness :
  let w := sample_after [EvVideoError; EvVideoLoad; EvAdvance 2000] in
  let t := mkTimer (ReconnectTimeout 0) 2000 2000 in
  timers w !! 2%nat = Some t
  ∧ due t <= clock w
  ∧ st_cameraConnected (state w) = true
  ∧ reconnectTimerExpired 0 w = w
  ∧ step (DP := sample_dates) (EvTimer 2) w = Some (set_timers (delete 2%nat) w).
Proof.
  intros w t.
  assert (Ht : timers w !! 2%nat = Some t) by (vm_compute; reflexivity).
  assert (Hd : due t <= clock w) by (vm_compute; discriminate).
  assert (Hc : st_cameraConnected (state w) = true) by (vm_compute; reflexivity).
  repeat (split; [assumption|]).
  exact (stale_reconnect_timer_noop (DP := sample_dates) w 2%nat 0%nat t
           Ht eq_refl Hd Hc).
Defined.

(** ** Polling and visibility *)

Lemma updateCameraStatus_frame (b : bool) (w : World) :
  inflight (updateCameraStatus b w) = inflight w
  ∧ issued (updateCameraStatus b w) = issued w
  ∧ timers (updateCameraStatus b w) = timers w
  ∧ nextTimer (updateCameraStatus b w) = nextTimer w
  ∧ elements (updateCameraStatus b w) = elements w.
Proof.
  unfold updateCameraStatus.
  destruct (camera (indicators w)); [destruct b|]; repeat split.
Qed.

Lemma checkStatus_requests (w : World) :
  outstanding StatusCh (checkStatus w) = S (outstanding StatusCh w)
  ∧ issued (checkStatus w) = issued w ++ [StatusCh]
  ∧ timers (checkStatus w) = timers w
  ∧ nextTimer (checkStatus w) = nextTimer w.
Proof.
  destruct (updateCameraStatus_frame (st_cameraConnected (state w)) w)
    as (Hi & Hs & Ht & Hn & _).
  unfold checkStatus, fetch, outstanding. cbn.
  rewrite Hi, Hs, Ht, Hn, filter_app, length_app. cbn.
  case_decide; [|done]. cbn. repeat split. lia.
Qed.

Lemma refreshRecentEvents_requests (w : World) (items : list EventItem) :
  el_recentEvents (elements w) = Some items →
  outstanding EventsCh (refreshRecentEvents w) = S (outstanding EventsCh w)
  ∧ issued (refreshRecentEvents w) = issued w ++ [EventsCh]
  ∧ timers (refreshRecentEvents w) = timers w
  ∧ nextTimer (refreshRecentEvents w) = nextTimer w.
Proof.
  intros He. unfold refreshRecentEvents, fetch, outstanding. rewrite He. cbn.
  rewrite filter_app, length_app. cbn.
  case_decide; [|done]. cbn. repeat split. lia.
Qed.

Section Polling.
Context {DP : DatePlatform}.

(** C1, as the code has it.  A poll tick always issues a request on
    its channel, whatever is outstanding: the interval callbacks call
    [refreshRecentEvents] and [checkStatus] without looking at earlier
    requests, so each tick adds one to the channel's outstanding
    requests (for the events channel when the recent-events container
    is on the page). *)
Theorem poll_tick_always_issues
    (w : World) (c : Channel) (id : nat) (t : Timer) :
  timers w !! id = Some t →
  kind t = poll_timer c →
  due t <= clock w →
  (c = EventsCh → is_Some (el_recentEvents (elements w))) →
  ∃ w', step (EvTimer id) w = Some w'
        ∧ outstanding c w' = S (outstanding c w)
        ∧ issued w' = issued w ++ [c].
Proof.
  intros Ht Hk Hdue Hel. cbn. rewrite Ht. cbn.
  destruct (Z.leb_spec (due t) (clock w)) as [_|?]; [|lia].
  eexists. split; [reflexivity|].
  unfold fire. rewrite Hk. destruct c; cbv [poll_timer].
  - match goal with |- context [checkStatus ?x] =>
      destruct (checkStatus_requests x) as (Ho & Hi & _) end.
    rewrite Ho, Hi. split; reflexivity.
  - destruct (Hel eq_refl) as [items He].
    match goal with |- context [refreshRecentEvents ?x] =>
      destruct (refreshRecentEvents_requests x items He) as (Ho & Hi & _) end.
    rewrite Ho, Hi. split; reflexivity.
Qed.

(** C6, as the code has it.  A visibility change never touches the
    timer table.  When the page becomes visible again the handler
    issues exactly one event refresh (when the recent-events container
    is on the page) and then exactly one status check, however long the
    page was hidden; when the page becomes hidden it issues nothing. *)
Theorem visibility_change_catch_up (w : World) :
  ∃ w', step (EvVisibility (negb (hidden w))) w = Some w'
        ∧ timers w' = timers w
        ∧ nextTimer w' = nextTimer w
        ∧ issued w'
          = issued w
            ++ (if hidden w
                then match el_recentEvents (elements w) with
                     | Some _ => [EventsCh; StatusCh]
                     | None => [StatusCh]
                     end
                else []).
Proof.
  cbn. destruct (hidden w) eqn:Hh; cbn.
  - eexists. split; [reflexivity|]. unfold handleVisibilityChange.
    cbn [hidden set_hidden negb].
    match goal with |- context [checkStatus ?x] =>
      destruct (checkStatus_requests x) as (_ & Hi & Ht & Hn) end.
    rewrite Hi, Ht, Hn.
    destruct (el_recentEvents (elements w)) as [items|] eqn:He.
    + destruct (refreshRecentEvents_requests (set_hidden false w) items He)
        as (_ & Hi' & Ht' & Hn').
      rewrite Hi', Ht', Hn'. cbn. rewrite <- app_assoc. repeat split.
    + unfold refreshRecentEvents. cbn. rewrite He. repeat split.
  - eexists. split; [reflexivity|]. unfold handleVisibilityChange. cbn.
    rewrite app_nil_r. repeat split.
Qed.

End Polling.

(** C1 fails as stated: on the sample page the status request made by
    [init] is still outstanding when the first status tick comes due; the
    tick issues a second request, so two are in flight. *)
Lemma status_tick_while_outstanding :
  ∃ w w' : World,
    run (DP := sample_dates) [EvAdvance 60000] sample_world = Some w
    ∧ outstanding StatusCh w = 1%nat
    ∧ step (DP := sample_dates) (EvTimer 1) w = Some w'
    ∧ outstanding StatusCh w' = 2%nat
    ∧ issued w' = issued w ++ [StatusCh].
Proof.
  do 2 eexists. split; [vm_compute; reflexivity|].
  split; [vm_compute; reflexivity|]. split; [vm_compute; reflexivity|].
  vm_compute. repeat split.
Qed.

Lemma poll_tick_always_issues_witness :
  let w := sample_after [EvAdvance 30000; EvTimer 0; EvAdvance 30000] in
  let t := mkTimer RefreshInterval 30000 60000 in
  timers w !! 0%nat = Some t
  ∧ due t <= clock w
  ∧ outstanding EventsCh w = 1%nat
  ∧ ∃ w', step (DP := sample_dates) (EvTimer 0) w = Some w'
          ∧ outstanding EventsCh w' = S (outstanding EventsCh w)
          ∧ issued w' = issued w ++ [EventsCh].
Proof.
  intros w t.
  assert (Ht : timers w !! 0%nat = Some t) by (vm_compute; reflexivity).
  assert (Hd : due t <= clock w) by (vm_compute; discriminate).
  assert (He : EventsCh = EventsCh → is_Some (el_recentEvents (elements w)))
    by (intros _; vm_compute; eexists; reflexivity).
  split; [exact Ht|]. split; [exact Hd|]. split; [vm_compute; reflexivity|].
  exact (poll_tick_always_issues (DP := sample_dates) w EventsCh 0%nat t
           Ht eq_refl Hd He).
Defined.

(** C6 fails as stated: the intervals are never cancelled and never
    restarted.  The sample page is hidden at 10000 ms.  While hidden, the
    events tick due at 30000 ms is delivered and issues its request.  The
    page becomes visible at 40000 ms: the events interval is still the
    one re-armed by the tick, due at 60000 ms and not 30000 ms after the
    return (70000), and the status interval is still due at 60000 ms and
    not at 100000. *)
Lemma intervals_run_through_hidden_page :
  ∃ w1 w2 w3 : World,
    run (DP := sample_dates) [EvAdvance 10000; EvVisibility true; EvAdvance 20000]
        sample_world = Some w1
    ∧ hidden w1 = true
    ∧ step (DP := sample_dates) (EvTimer 0) w1 = Some w2
    ∧ issued w2 = issued w1 ++ [EventsCh]
    ∧ run (DP := sample_dates) [EvAdvance 10000; EvVisibility false] w2 = Some w3
    ∧ clock w3 = 40000
    ∧ due <$> timers w3 !! 0%nat = Some 60000
    ∧ due <$> timers w3 !! 1%nat = Some 60000.
Proof.
  do 3 eexists. split; [vm_compute; reflexivity|].
  split; [vm_compute; reflexivity|]. split; [vm_compute; reflexivity|].
  split; [vm_compute; reflexivity|]. split; [vm_compute; reflexivity|].
  vm_compute. repeat split.
Qed.

(** ** Status checks *)

Lemma classList_add_elem (c : string) (l : list string) :
  c ∈ classList_add c l.
Proof.
  unfold classList_add. case_bool_decide; [assumption|].
  apply elem_of_app. right. apply list_elem_of_singleton. reflexivity.
Qed.

Lemma classList_swap_absent (c d : string) (l : list string) :
  c ≠ d → d ∉ classList_add c (classList_remove d l).
Proof.
  intros Hcd. unfold classList_add, classList_remove.
  case_bool_decide; intros Hin.
  - apply list_elem_of_filter in Hin. destruct Hin as [Hne _]. congruence.
  - apply elem_of_app in Hin. destruct Hin as [Hin|Hin].
    + apply list_elem_of_filter in Hin. destruct Hin as [Hne _]. congruence.
    + apply list_elem_of_singleton in Hin. congruence.
Qed.

Lemma updateSystemStatus_network (v : JsVal) (w : World) :
  network (indicators (updateSystemStatus v w)) = network (indicators w).
Proof.
  unfold updateSystemStatus. destruct (system (indicators w)); [|reflexivity].
  repeat (match goal with |- context [if ?b then _ else _] => destruct b end);
    reflexivity.
Qed.

Lemma status_catch_eq (e : JsError) (w : World) :
  status_catch e w
  = (updateNetworkStatus (VBool false)
       (updateSystemStatus (VBool false)
          (console_push (LogCaught "Error checking system status:" e) w)),
     Ok tt).
Proof. reflexivity. Qed.

Lemma status_catch_network (e : JsError) (w : World) (ind : Indicator) :
  network (indicators w) = Some ind →
  network (indicators (fst (status_catch e w)))
  = Some (mkIndicator
            (classList_add "status-offline"
               (classList_remove "status-online" (classList ind)))
            "Network Disconnected").
Proof.
  intros Hn. rewrite status_catch_eq. cbn [fst].
  unfold updateNetworkStatus. rewrite updateSystemStatus_network.
  cbn [console_push indicators network]. rewrite Hn. reflexivity.
Qed.

Lemma status_catch_ok (e : JsError) (w : World) : snd (status_catch e w) = Ok tt.
Proof. rewrite status_catch_eq. reflexivity. Qed.

Lemma status_then_no_success (data ok : JsVal) (w : World) :
  get_prop data "success" = Ok ok → truthy ok = false →
  status_then data w = (w, Ok tt).
Proof.
  intros Hs Hf. unfold status_then, eval, mbind, Eff_bind.
  rewrite Hs, Hf. reflexivity.
Qed.

Lemma status_chain_ok (o : FetchOutcome) (w : World) :
  snd (status_chain o w) = Ok tt.
Proof.
  unfold status_chain, catch.
  match goal with |- context [match ?m with _ => _ end] => destruct m as [w' [[]|e]] end;
    [reflexivity|apply status_catch_ok].
Qed.

(** C5, as the code has it.  Whatever the outcome of the [/api/status]
    request, the promise chain of [checkStatus] ends fulfilled: no error
    leaves the poller.  When the request rejects (or the body is not
    JSON) the network indicator, if the page has one, is switched to
    disconnected.  When a body arrives whose [success] is false or
    missing, nothing at all is changed: the indicators keep the values
    they had. *)
Theorem failed_status_check (w : World) (o : FetchOutcome) :
  snd (status_chain o w) = Ok tt
  ∧ (rejects o = true →
     ∀ ind : Indicator,
       network (indicators w) = Some ind →
       ∃ ind' : Indicator,
         network (indicators (fst (status_chain o w))) = Some ind'
         ∧ ("status-offline" ∈ classList ind')
         ∧ ("status-online" ∉ classList ind')
         ∧ title ind' = "Network Disconnected")
  ∧ (∀ data ok : JsVal,
       o = Response (Some data) →
       get_prop data "success" = Ok ok →
       truthy ok = false →
       fst (status_chain o w) = w).
Proof.
  split; [apply status_chain_ok|]. split.
  - intros Hrej ind Hn.
    assert (E : ∃ e, status_chain o w = status_catch e w).
    { destruct o as [|[d|]]; [|discriminate|]; eexists; reflexivity. }
    destruct E as [e E]. rewrite E, (status_catch_network e w ind Hn).
    eexists. split; [reflexivity|]. cbn [classList title].
    split; [apply classList_add_elem|].
    split; [apply classList_swap_absent; discriminate|reflexivity].
  - intros data ok -> Hs Hf.
    change (status_chain (Response (Some data)) w)
      with (match status_then data w with
            | (w', Ok a) => (w', Ok a)
            | (w', Thrown e) => status_catch e w'
            end).
    rewrite (status_then_no_success data ok w Hs Hf). reflexivity.
Qed.

(** C5 fails as stated: a body with [success: false] is a failed status
    check, yet on the sample page it leaves the system indicator online
    and the network indicator connected. *)
Lemma non_success_status_changes_nothing :
  ∃ w' : World,
    step (DP := sample_dates)
         (EvSettle 0 (Response (Some (VObj [("success", VBool false)]))))
         sample_world = Some w'
    ∧ system (indicators w')
      = Some (mkIndicator ["status-indicator"; "system-status"; "status-online"]
                          "System Online")
    ∧ network (indicators w')
      = Some (mkIndicator ["status-indicator"; "network-status"; "status-online"]
                          "Network Connected").
Proof. eexists. split; [vm_compute; reflexivity|]. vm_compute. split; reflexivity. Qed.

Lemma failed_status_check_witness :
  let o := Response (Some (VObj [("success", VBool false)])) in
  rejects NetworkFailure = true
  ∧ network (indicators sample_world)
    = Some (mkIndicator ["status-indicator"; "network-status"; "status-online"]
                        "Network Connected")
  ∧ get_prop (VObj [("success", VBool false)]) "success" = Ok (VBool false)
  ∧ truthy (VBool false) = false
  ∧ snd (status_chain NetworkFailure sample_world) = Ok tt
  ∧ (∃ ind' : Indicator,
       network (indicators (fst (status_chain NetworkFailure sample_world)))
       = Some ind'
       ∧ ("status-offline" ∈ classList ind')
       ∧ ("status-online" ∉ classList ind')
       ∧ title ind' = "Network Disconnected")
  ∧ fst (status_chain o sample_world) = sample_world.
Proof.
  intros o.
  assert (Hn : network (indicators sample_world)
               = Some (mkIndicator
                         ["status-indicator"; "network-status"; "status-online"]
                         "Network Connected")) by (vm_compute; reflexivity).
  split; [reflexivity|]. split; [exact Hn|].
  split; [reflexivity|]. split; [reflexivity|].
  split; [exact (proj1 (failed_status_check sample_world NetworkFailure))|].
  split.
  - exact (proj1 (proj2 (failed_status_check sample_world NetworkFailure))
             eq_refl _ Hn).
  - exact (proj2 (proj2 (failed_status_check sample_world o))
             _ _ eq_refl eq_refl eq_refl).
Defined.

(** What the rejecting path does to the system indicator: the handler
    passes [false] to [updateSystemStatus], whose [switch] knows the
    strings 'online', 'warning' and 'offline' only, so the three status
    classes are removed and none is added. *)
Example rejected_status_system_indicator :
  system (indicators (fst (status_chain NetworkFailure sample_world)))
  = Some (mkIndicator ["status-indicator"; "system-status"] "System Online").
Proof. vm_compute. reflexivity. Qed.

(** ** Recent events feed *)

Lemma strict_eq_str_true (v : JsVal) (lit : string) :
  strict_eq_str v lit = true ↔ v = VStr lit.
Proof.
  destruct v; cbn; try (split; [discriminate|intros [=]]).
  rewrite String.eqb_eq. split; [intros ->; reflexivity|intros [=]; assumption].
Qed.

Lemma badge_not_in (dir : JsVal) :
  dir ≠ VStr "IN" →
  badge_class dir = "bg-secondary" ∧ badge_text dir = "Clock Out".
Proof.
  intros Hne. unfold badge_class, badge_text.
  destruct (strict_eq_str dir "IN") eqn:E; [|split; reflexivity].
  apply strict_eq_str_true in E. contradiction.
Qed.

Section FeedProperties.
Context {DP : DatePlatform}.

Lemma logs_chain_unfold (data : JsVal) (w : World) :
  logs_chain (Response (Some data)) w
  = match logs_then data w with
    | (w', Ok a) => (w', Ok a)
    | (w', Thrown e) => logs_catch e w'
    end.
Proof. reflexivity. Qed.

(** C8.  When the [/api/logs] request rejects (or its body is not
    JSON), the promise chain of [refreshRecentEvents] ends fulfilled and
    has written one line to the console and nothing else: the stored
    events and every element of the page, the feed among them, are what
    they were. *)
Theorem failed_refresh_keeps_feed (w : World) (o : FetchOutcome) :
  rejects o = true →
  (∃ e : JsError,
     logs_chain o w
     = (console_push (LogCaught "Error fetching recent events:" e) w, Ok tt))
  ∧ snd (logs_chain o w) = Ok tt
  ∧ state (fst (logs_chain o w)) = state w
  ∧ elements (fst (logs_chain o w)) = elements w.
Proof.
  intros Hrej. destruct o as [|[d|]]; [|discriminate|];
    (split; [eexists; reflexivity|repeat split]).
Qed.

(** C10.  A successful response whose [events] is the empty array
    replaces the stored [recentEvents] by the empty array and does
    nothing else: [updateRecentEventsDisplay] returns at its guard, so
    the feed and the recognition counter keep what they showed.  When
    the feed showed items before, stored state and view now differ. *)
Theorem empty_result_leaves_feed (w : World) (data ok : JsVal) :
  get_prop data "success" = Ok ok →
  truthy ok = true →
  get_prop data "events" = Ok (VArr []) →
  logs_chain (Response (Some data)) w = (set_recentEvents (VArr []) w, Ok tt)
  ∧ st_recentEvents (state (fst (logs_chain (Response (Some data)) w))) = VArr []
  ∧ elements (fst (logs_chain (Response (Some data)) w)) = elements w
  ∧ ∀ items : list EventItem,
      el_recentEvents (elements w) = Some items →
      items ≠ [] →
      el_recentEvents (elements (fst (logs_chain (Response (Some data)) w)))
      ≠ Some [].
Proof.
  intros Hs Ht He.
  assert (E : logs_chain (Response (Some data)) w
              = (set_recentEvents (VArr []) w, Ok tt)).
  { rewrite logs_chain_unfold.
    unfold logs_then, eval, mbind, Eff_bind. rewrite Hs, Ht, He.
    unfold lift, updateRecentEventsDisplay.
    cbn [set_recentEvents set_state elements].
    destruct (el_recentEvents (elements w)); reflexivity. }
  rewrite E. repeat split.
  intros items Hi Hne. cbn. rewrite Hi. congruence.
Qed.

Lemma prints_template (event : JsVal) (k : string) :
  prints event k = true →
  ∃ v : JsVal, get_prop event k = Ok v ∧ template v = Ok (to_string v).
Proof.
  unfold prints, template. destruct (get_prop event k) as [v|]; [|discriminate].
  intros H. exists v. split; [reflexivity|].
  destruct (unprintable v); [discriminate|reflexivity].
Qed.

Lemma get_prop_defined (event : JsVal) (k k' : string) (v : JsVal) :
  get_prop event k = Ok v → ∃ v' : JsVal, get_prop event k' = Ok v'.
Proof.
  destruct event; cbn; try discriminate; intros _;
    try (eexists; reflexivity);
    destruct (String.eqb k' "length"); eexists; reflexivity.
Qed.

Lemma render_item_defined (now : Z) (event : JsVal) :
  renderable event = true →
  ∃ item : EventItem,
    render_item now event = Ok item ∧ rendered_as now event item.
Proof.
  unfold renderable. rewrite !andb_true_iff. intros [[Hd Ht] Hn].
  destruct (prints_template _ _ Hd) as (d & Hgd & Hpd).
  destruct (prints_template _ _ Ht) as (t & Hgt & Hpt).
  destruct (prints_template _ _ Hn) as (n & Hgn & Hpn).
  destruct (get_prop_defined event "Date" "Event" d Hgd) as [dir Hdir].
  unfold render_item, rendered_as.
  rewrite Hgd, Hgt, Hgn, Hdir. cbn [mbind Res_bind].
  rewrite Hpd, Hpt, Hpn. cbn [mbind Res_bind mret Res_ret].
  eexists. split; [reflexivity|].
  exists d, t, n, dir, (badge_class dir), (badge_text dir).
  split_and!; try reflexivity.
  - intros ->. split; reflexivity.
  - apply badge_not_in.
Qed.

Lemma render_item_throws (now : Z) (event : JsVal) :
  renderable event = false →
  ∃ e : JsError, render_item now event = Thrown e.
Proof.
  unfold renderable, prints, render_item, template. intros H.
  destruct (get_prop event "Date") as [d|e]; [|eexists; reflexivity].
  cbn [mbind Res_bind].
  destruct (unprintable d); [eexists; reflexivity|].
  destruct (get_prop event "Time") as [t|e]; [|eexists; reflexivity].
  cbn [mbind Res_bind].
  destruct (unprintable t); [eexists; reflexivity|].
  destruct (get_prop event "Name") as [n|e]; [|eexists; reflexivity].
  cbn [mbind Res_bind].
  destruct (unprintable n); [eexists; reflexivity|].
  discriminate H.
Qed.

Lemma forEach_render_items (events : list JsVal) :
  Forall (λ ev, renderable ev = true) events →
  ∀ (w : World) (shown : list EventItem),
    el_recentEvents (elements w) = Some shown →
    ∃ items : list EventItem,
      Forall2 (rendered_as (clock w)) events items
      ∧ forEach_render events w = (set_feed (shown ++ items) w, Ok tt).
Proof.
  induction 1 as [|ev events Hr0 _ IH]; intros w shown Hw.
  - exists []. split; [constructor|]. cbn. rewrite app_nil_r.
    destruct w as [c [vf vs re rc] i st ck h ts nt cl inf iss con].
    cbn in Hw. subst re. reflexivity.
  - destruct (render_item_defined (clock w) ev Hr0) as (item & Hr & Hitem).
    cbn [forEach_render]. rewrite Hr.
    destruct (IH (appendChild item w) (shown ++ [item])) as (items & Hall & Hrun).
    { unfold appendChild. rewrite Hw. reflexivity. }
    exists (item :: items). split.
    + constructor; [exact Hitem|].
      unfold appendChild in Hall. rewrite Hw in Hall. exact Hall.
    + rewrite Hrun. unfold appendChild. rewrite Hw.
      rewrite <- app_assoc. reflexivity.
Qed.


End FeedProperties.

Lemma failed_refresh_keeps_feed_witness :
  rejects NetworkFailure = true
  ∧ (∃ e : JsError,
       logs_chain (DP := sample_dates) NetworkFailure sample_world
       = (console_push (LogCaught "Error fetching recent events:" e) sample_world,
          Ok tt))
  ∧ snd (logs_chain (DP := sample_dates) NetworkFailure sample_world) = Ok tt
  ∧ state (fst (logs_chain (DP := sample_dates) NetworkFailure sample_world))
    = state sample_world
  ∧ elements (fst (logs_chain (DP := sample_dates) NetworkFailure sample_world))
    = elements sample_world.
Proof.
  split; [reflexivity|].
  exact (failed_refresh_keeps_feed (DP := sample_dates) sample_world
           NetworkFailure eq_refl).
Defined.

Lemma empty_result_leaves_feed_witness :
  let data := VObj [("success", VBool true); ("events", VArr [])] in
  let o := Response (Some data) in
  get_prop data "success" = Ok (VBool true)
  ∧ truthy (VBool true) = true
  ∧ get_prop data "events" = Ok (VArr [])
  ∧ logs_chain (DP := sample_dates) o sample_world
    = (set_recentEvents (VArr []) sample_world, Ok tt)
  ∧ st_recentEvents (state (fst (logs_chain (DP := sample_dates) o sample_world)))
    = VArr []
  ∧ elements (fst (logs_chain (DP := sample_dates) o sample_world))
    = elements sample_world
  ∧ ∀ items : list EventItem,
      el_recentEvents (elements sample_world) = Some items →
      items ≠ [] →
      el_recentEvents (elements (fst (logs_chain (DP := sample_dates) o sample_world)))
      ≠ Some [].
Proof.
  intros data o.
  split; [reflexivity|]. split; [reflexivity|]. split; [reflexivity|].
  exact (empty_result_leaves_feed (DP := sample_dates) sample_world data
           (VBool true) eq_refl eq_refl eq_refl).
Defined.



(** The two labels on the sample page: a record of today and a record of
    the day before. *)
Example sample_feed_labels :
  el_recentEvents
    (elements (fst (updateRecentEventsDisplay (DP := sample_dates)
                      (VArr [sample_event "2024-01-01" "08:15:00" "J. Doe" "IN";
                             sample_event "2023-12-31" "17:02:10" "A. Roe" "OUT"])
                      sample_world)))
  = Some [mkEventItem "recent-event-item"
            (item_markup "Today, 08:15:00" "J. Doe" "bg-success" "Clock In");
          mkEventItem "recent-event-item"
            (item_markup "2023-12-31 17:02:10" "A. Roe" "bg-secondary" "Clock Out")].
Proof. vm_compute. reflexivity. Qed.

(** A record whose name is an object with a [toString] key cannot be
    interpolated: the callback throws and the record is not shown. *)
Example unprintable_name_throws :
  render_item (DP := sample_dates) 0
    (VObj [("Name", VObj [("toString", VNum 1)]); ("Date", VStr "2024-01-01");
           ("Time", VStr "08:15:00"); ("Event", VStr "IN")])
  = Thrown (TypeError "Cannot convert object to primitive value").
Proof. reflexivity. Qed.

(** The name goes into the markup as it is: markup in a name is markup
    in the item. *)
Example name_is_not_escaped :
  innerHTML
    <$> render_item_result (DP := sample_dates)
          (sample_event "2024-01-01" "08:15:00" "<!--" "IN")
  = Some (item_markup "Today, 08:15:00" "<!--" "bg-success" "Clock In").
Proof. reflexivity. Qed.

(** Numbers print as the engine prints them. *)
Example number_string_values :
  number_string 42 = "42"
  ∧ number_string (- 7) = "-7"
  ∧ number_string (2 ^ 53 + 1) = "9007199254740992"
  ∧ number_string (2 ^ 64) = "18446744073709552000"
  ∧ number_string (10 ^ 21) = "1e+21"
  ∧ number_string (2 ^ 70) = "1.1805916207174113e+21"
  ∧ number_string (- 123456789012345678901234567890) = "-1.2345678901234568e+29".
Proof. vm_compute. repeat split. Qed.

(** Below [2^53] every integer is a double and prints in full: this
    covers the length of any array. *)
Lemma number_string_small (n : Z) :
  0 <= n < 2 ^ 53 → number_string n = pretty n.
Proof.
  intros [H0 H1]. unfold number_string, to_double, digits_of_double.
  assert (Hp : 2 ^ 53 < 2 ^ 1024) by (apply Z.pow_lt_mono_r; lia).
  remember (2 ^ 53) as a. remember (2 ^ 1024) as b.
  destruct (Z.ltb_spec n 0) as [?|_]; [lia|].
  destruct (Z.ltb_spec n a) as [_|?]; [|lia].
  destruct (Z.leb_spec b n) as [?|_]; [lia|].
  destruct (Z.ltb_spec n a) as [_|?]; [reflexivity|lia].
Qed.

(** ** The timer table of reachable worlds *)

Lemma same_timers_fresh (w w' : World) :
  same_timers w w' → timer_ids_fresh w → timer_ids_fresh w'.
Proof.
  intros [Ht Hn] Hw id t. rewrite Ht, Hn. apply Hw.
Qed.

Lemma next_id_fresh (w w' : World) (x : Timer) :
  timers w' = <[nextTimer w := x]> (timers w) →
  nextTimer w' = S (nextTimer w) →
  timer_ids_fresh w → timer_ids_fresh w'.
Proof.
  intros Ht Hn Hw id t. rewrite Ht, Hn.
  destruct (decide (id = nextTimer w)) as [->|Hne].
  - lia.
  - rewrite lookup_insert_ne by congruence. intros Hid.
    specialize (Hw id t Hid). lia.
Qed.

Lemma arm_fresh (k : TimerKind) (d : Z) (w : World) :
  timer_ids_fresh w → timer_ids_fresh (arm k d w).
Proof. apply (next_id_fresh w (arm k d w) (mkTimer k d (clock w + d))); reflexivity. Qed.

Lemma keeps_bind {A B : Type} (m : Eff A) (f : A → Eff B) :
  keeps_timers m → (∀ a, keeps_timers (f a)) → keeps_timers (mbind f m).
Proof.
  intros Hm Hf w. unfold mbind, Eff_bind. specialize (Hm w).
  destruct (m w) as [w1 [a|e]]; cbn in Hm |- *; [|exact Hm].
  destruct Hm as [Ht Hn]. destruct (Hf a w1) as [Ht' Hn'].
  split; congruence.
Qed.

Lemma keeps_catch {A : Type} (m : Eff A) (h : JsError → Eff A) :
  keeps_timers m → (∀ e, keeps_timers (h e)) → keeps_timers (catch m h).
Proof.
  intros Hm Hh w. unfold catch. specialize (Hm w).
  destruct (m w) as [w1 [a|e]]; cbn in Hm |- *; [exact Hm|].
  destruct Hm as [Ht Hn]. destruct (Hh e w1) as [Ht' Hn'].
  split; congruence.
Qed.

Lemma keeps_lift (f : World → World) :
  (∀ w, same_timers w (f w)) → keeps_timers (lift f).
Proof. intros Hf w. apply Hf. Qed.

Lemma keeps_pure {A : Type} (r : Res A) : keeps_timers (eval r).
Proof. intros w. split; reflexivity. Qed.

Lemma console_push_same (e : LogEntry) (w : World) :
  same_timers w (console_push e w).
Proof. split; reflexivity. Qed.

Lemma updateCameraStatus_same (b : bool) (w : World) :
  same_timers w (updateCameraStatus b w).
Proof.
  destruct (updateCameraStatus_frame b w) as (_ & _ & Ht & Hn & _).
  split; assumption.
Qed.

Lemma updateSystemStatus_same (v : JsVal) (w : World) :
  same_timers w (updateSystemStatus v w).
Proof.
  unfold updateSystemStatus. destruct (system (indicators w)); [|split; reflexivity].
  repeat (match goal with |- context [if ?b then _ else _] => destruct b end);
    split; reflexivity.
Qed.

Lemma updateNetworkStatus_same (v : JsVal) (w : World) :
  same_timers w (updateNetworkStatus v w).
Proof.
  unfold updateNetworkStatus.
  destruct (network (indicators w)); [destruct (truthy v)|]; split; reflexivity.
Qed.

Lemma status_chain_keeps (o : FetchOutcome) : keeps_timers (status_chain o).
Proof.
  apply keeps_catch.
  - apply keeps_bind; [destruct o; intros w; split; reflexivity|].
    intros r. apply keeps_bind; [destruct r; intros w; split; reflexivity|].
    intros data. unfold status_then. apply keeps_bind; [apply keeps_pure|].
    intros ok. destruct (truthy ok); [|intros w; split; reflexivity].
    apply keeps_bind; [apply keeps_pure|]. intros st.
    apply keeps_bind; [apply keeps_lift, updateSystemStatus_same|]. intros _.
    apply keeps_bind; [apply keeps_pure|]. intros nw.
    apply keeps_lift, updateNetworkStatus_same.
  - intros e. unfold status_catch.
    apply keeps_bind; [apply keeps_lift; intros w; split; reflexivity|]. intros _.
    apply keeps_bind; [apply keeps_lift, updateSystemStatus_same|]. intros _.
    apply keeps_lift, updateNetworkStatus_same.
Qed.

Lemma tryReconnect_fresh (s : nat) (w : World) :
  timer_ids_fresh w → timer_ids_fresh (tryReconnect s w).
Proof.
  intros Hw. destruct (closures w !! s) as [a|] eqn:Hs.
  - destruct (Z.lt_ge_cases a (reconnectAttempts (cfg w))) as [Hlt|Hge].
    + destruct (tryReconnect_attempt w s a Hs Hlt) as (_ & Ht & Hn).
      exact (next_id_fresh w _ _ Ht Hn Hw).
    + rewrite (tryReconnect_exhausted w s a Hs Hge). exact Hw.
  - unfold tryReconnect. rewrite Hs. exact Hw.
Qed.

Lemma handleVideoError_fresh (w : World) :
  timer_ids_fresh w → timer_ids_fresh (handleVideoError w).
Proof.
  intros Hw. unfold handleVideoError, attemptReconnect.
  apply tryReconnect_fresh.
  refine (same_timers_fresh _ _ _ Hw).
  destruct (updateCameraStatus_same false
              (set_cameraConnected false
                 (console_push (LogError "Video feed error:") w))) as [Ht Hn].
  split; cbn; [rewrite Ht|rewrite Hn]; reflexivity.
Qed.

Lemma checkStatus_same (w : World) : same_timers w (checkStatus w).
Proof. destruct (checkStatus_requests w) as (_ & _ & Ht & Hn). split; assumption. Qed.

Lemma refreshRecentEvents_same (w : World) : same_timers w (refreshRecentEvents w).
Proof.
  unfold refreshRecentEvents.
  destruct (el_recentEvents (elements w)); split; reflexivity.
Qed.

Section Reachable.
Context {DP : DatePlatform}.

Lemma forEach_render_keeps (events : list JsVal) : keeps_timers (forEach_render events).
Proof.
  induction events as [|ev events IH]; intros w; [split; reflexivity|].
  cbn [forEach_render]. destruct (render_item (clock w) ev) as [item|e];
    [|split; reflexivity].
  destruct (IH (appendChild item w)) as [Ht Hn].
  split; [rewrite Ht|rewrite Hn];
    unfold appendChild; destruct (el_recentEvents (elements w)); reflexivity.
Qed.

Lemma logs_chain_keeps (o : FetchOutcome) : keeps_timers (logs_chain o).
Proof.
  apply keeps_catch.
  - apply keeps_bind; [destruct o; intros w; split; reflexivity|].
    intros r. apply keeps_bind; [destruct r; intros w; split; reflexivity|].
    intros data. unfold logs_then. apply keeps_bind; [apply keeps_pure|].
    intros ok. destruct (truthy ok); [|intros w; split; reflexivity].
    apply keeps_bind; [apply keeps_pure|]. intros events.
    apply keeps_bind; [apply keeps_lift; intros w; split; reflexivity|]. intros _.
    intros w. unfold updateRecentEventsDisplay.
    destruct (el_recentEvents (elements w)); [|split; reflexivity].
    revert w. unfold guarded_replace.
    destruct (truthy events); [|intros w; split; reflexivity]. cbn [negb].
    apply keeps_bind; [apply keeps_pure|]. intros len.
    destruct (truthy len); [|intros w; split; reflexivity]. cbn [negb].
    unfold replace_feed.
    apply keeps_bind; [apply keeps_lift; intros w; split; reflexivity|]. intros _.
    apply keeps_bind.
    + destruct events; try (intros w; split; reflexivity).
      apply forEach_render_keeps.
    + intros _ w. unfold update_count.
      destruct (el_recognitionCount (elements w)); split; reflexivity.
  - intros e. apply keeps_lift. intros w. split; reflexivity.
Qed.

Lemma step_fresh (e : Event) (w w' : World) :
  timer_ids_fresh w → step e w = Some w' → timer_ids_fresh w'.
Proof.
  intros Hw. destruct e as [| |h|dt|id|i o]; cbn [step].
  - intros [= <-]. apply handleVideoError_fresh, Hw.
  - intros [= <-]. unfold handleVideoLoad.
    refine (same_timers_fresh _ _ (updateCameraStatus_same true _) _). exact Hw.
  - destruct (Bool.eqb h (hidden w)); [discriminate|]. intros [= <-].
    refine (same_timers_fresh _ _ _ Hw). unfold handleVisibilityChange.
    cbn [hidden set_hidden]. destruct (negb h); [|split; reflexivity].
    destruct (checkStatus_same (refreshRecentEvents (set_hidden h w))) as [Ht Hn].
    destruct (refreshRecentEvents_same (set_hidden h w)) as [Ht' Hn'].
    split; [rewrite Ht, Ht'|rewrite Hn, Hn']; reflexivity.
  - destruct (0 <=? dt); [|discriminate]. intros [= <-]. exact Hw.
  - destruct (timers w !! id) as [t|] eqn:Hid; [|discriminate]. cbn.
    destruct (due t <=? clock w); [|discriminate]. intros [= <-].
    unfold fire. destruct (kind t) as [s| |].
    + unfold reconnectTimerExpired. cbn [state set_timers].
      assert (Hdel : timer_ids_fresh (set_timers (delete id) w)).
      { intros id' t'. cbn. intros Hl.
        apply lookup_delete_Some in Hl. apply (Hw id' t'), Hl. }
      destruct (negb (st_cameraConnected (state w))); [|exact Hdel].
      apply tryReconnect_fresh, Hdel.
    + refine (same_timers_fresh _ _ (refreshRecentEvents_same _) _).
      intros id' t'. cbn. intros Hl. apply lookup_insert_Some in Hl.
      destruct Hl as [[<- _]|[_ Hl]]; [apply (Hw id t Hid)|apply (Hw id' t' Hl)].
    + refine (same_timers_fresh _ _ (checkStatus_same _) _).
      intros id' t'. cbn. intros Hl. apply lookup_insert_Some in Hl.
      destruct Hl as [[<- _]|[_ Hl]]; [apply (Hw id t Hid)|apply (Hw id' t' Hl)].
  - destruct (inflight w !! i) as [c|]; [|discriminate]. cbn. intros [= <-].
    refine (same_timers_fresh (set_inflight (delete i) w) _ _ Hw).
    destruct c; [apply status_chain_keeps|apply logs_chain_keeps].
Qed.

Lemma init_fresh (c : Config) (e : Elements) (i : Indicators) (now : Z) :
  timer_ids_fresh (init (page c e i now)).
Proof.
  unfold init. set (w0 := console_push _ (page c e i now)).
  assert (H0 : timer_ids_fresh w0).
  { intros id t. cbn. rewrite lookup_empty. discriminate. }
  assert (H1 : timer_ids_fresh (checkStatus w0))
    by exact (same_timers_fresh _ _ (checkStatus_same w0) H0).
  assert (H2 : timer_ids_fresh (startRefreshTimers (checkStatus w0))).
  { unfold startRefreshTimers. do 2 apply arm_fresh. exact H1. }
  exact (same_timers_fresh _ _ (console_push_same _ _) H2).
Qed.

(** In every world the page can reach, the timer table holds only ids
    already handed out; the id the next [setTimeout] will get is free. *)
Lemma reachable_next_id_free
    (c : Config) (e : Elements) (i : Indicators) (now : Z)
    (es : list Event) (w : World) :
  run es (init (page c e i now)) = Some w →
  timer_ids_fresh w ∧ timers w !! nextTimer w = None.
Proof.
  intros Hrun.
  assert (Hw : timer_ids_fresh w).
  { revert Hrun. generalize (init_fresh c e i now).
    generalize (init (page c e i now)).
    induction es as [|ev es IH]; intros w0 H0; cbn [run].
    - intros [= <-]. exact H0.
    - destruct (step ev w0) as [w1|] eqn:Hs; [|discriminate]. cbn.
      apply IH. exact (step_fresh ev w0 w1 H0 Hs). }
  split; [exact Hw|].
  destruct (timers w !! nextTimer w) as [t|] eqn:Hl; [|reflexivity].
  specialize (Hw _ _ Hl). lia.
Qed.

End Reachable.

(** ** What the response callbacks leave alone *)

Lemma keeps_browser_bind {A B : Type} (m : Eff A) (f : A → Eff B) :
  keeps_browser m → (∀ a, keeps_browser (f a)) → keeps_browser (mbind f m).
Proof.
  intros Hm Hf w. unfold mbind, Eff_bind. specialize (Hm w).
  destruct (m w) as [w1 [a|e]]; cbn [fst] in Hm |- *; [|exact Hm].
  rewrite (Hf a w1). exact Hm.
Qed.

Lemma keeps_browser_catch {A : Type} (m : Eff A) (h : JsError → Eff A) :
  keeps_browser m → (∀ e, keeps_browser (h e)) → keeps_browser (catch m h).
Proof.
  intros Hm Hh w. unfold catch. specialize (Hm w).
  destruct (m w) as [w1 [a|e]]; cbn [fst] in Hm |- *; [exact Hm|].
  rewrite (Hh e w1). exact Hm.
Qed.

Lemma keeps_browser_lift (f : World → World) :
  (∀ w, browser_of (f w) = browser_of w) → keeps_browser (lift f).
Proof. intros Hf w. apply Hf. Qed.

Lemma keeps_browser_pure {A : Type} (r : Res A) : keeps_browser (eval r).
Proof. intros w. reflexivity. Qed.

Lemma updateCameraStatus_browser (b : bool) (w : World) :
  browser_of (updateCameraStatus b w) = browser_of w.
Proof.
  unfold updateCameraStatus.
  destruct (camera (indicators w)); [destruct b|]; reflexivity.
Qed.

Lemma updateSystemStatus_browser (v : JsVal) (w : World) :
  browser_of (updateSystemStatus v w) = browser_of w.
Proof.
  unfold updateSystemStatus. destruct (system (indicators w)); [|reflexivity].
  repeat (match goal with |- context [if ?b then _ else _] => destruct b end);
    reflexivity.
Qed.

Lemma updateNetworkStatus_browser (v : JsVal) (w : World) :
  browser_of (updateNetworkStatus v w) = browser_of w.
Proof.
  unfold updateNetworkStatus.
  destruct (network (indicators w)); [destruct (truthy v)|]; reflexivity.
Qed.

Lemma status_then_browser (data : JsVal) : keeps_browser (status_then data).
Proof.
  unfold status_then. apply keeps_browser_bind; [apply keeps_browser_pure|].
  intros ok. destruct (truthy ok); [|intros w; reflexivity].
  apply keeps_browser_bind; [apply keeps_browser_pure|]. intros st.
  apply keeps_browser_bind; [apply keeps_browser_lift, updateSystemStatus_browser|].
  intros _. apply keeps_browser_bind; [apply keeps_browser_pure|]. intros nw.
  apply keeps_browser_lift, updateNetworkStatus_browser.
Qed.

Lemma status_catch_browser (e : JsError) : keeps_browser (status_catch e).
Proof.
  unfold status_catch.
  apply keeps_browser_bind; [apply keeps_browser_lift; intros w; reflexivity|].
  intros _.
  apply keeps_browser_bind; [apply keeps_browser_lift, updateSystemStatus_browser|].
  intros _. apply keeps_browser_lift, updateNetworkStatus_browser.
Qed.

Lemma status_chain_browser (o : FetchOutcome) : keeps_browser (status_chain o).
Proof.
  apply keeps_browser_catch; [|apply status_catch_browser].
  apply keeps_browser_bind; [destruct o; intros w; reflexivity|].
  intros r. apply keeps_browser_bind; [destruct r; intros w; reflexivity|].
  apply status_then_browser.
Qed.

Section FeedFrame.
Context {DP : DatePlatform}.

Lemma forEach_render_browser (events : list JsVal) :
  keeps_browser (forEach_render events).
Proof.
  induction events as [|ev events IH]; intros w; [reflexivity|].
  cbn [forEach_render]. destruct (render_item (clock w) ev) as [item|e];
    [|reflexivity].
  rewrite (IH (appendChild item w)).
  unfold appendChild. destruct (el_recentEvents (elements w)); reflexivity.
Qed.

Lemma updateRecentEventsDisplay_browser (events : JsVal) :
  keeps_browser (updateRecentEventsDisplay events).
Proof.
  intros w. unfold updateRecentEventsDisplay.
  destruct (el_recentEvents (elements w)); [|reflexivity].
  revert w. unfold guarded_replace.
  destruct (truthy events); [|intros w; reflexivity]. cbn [negb].
  apply keeps_browser_bind; [apply keeps_browser_pure|]. intros len.
  destruct (truthy len); [|intros w; reflexivity]. cbn [negb].
  unfold replace_feed.
  apply keeps_browser_bind; [apply keeps_browser_lift; intros w; reflexivity|].
  intros _. apply keeps_browser_bind.
  - destruct events; try (intros w; reflexivity). apply forEach_render_browser.
  - intros _ w. unfold update_count.
    destruct (el_recognitionCount (elements w)); reflexivity.
Qed.

Lemma logs_chain_browser (o : FetchOutcome) : keeps_browser (logs_chain o).
Proof.
  apply keeps_browser_catch;
    [|intros e; apply keeps_browser_lift; intros w; reflexivity].
  apply keeps_browser_bind; [destruct o; intros w; reflexivity|].
  intros r. apply keeps_browser_bind; [destruct r; intros w; reflexivity|].
  intros data. unfold logs_then.
  apply keeps_browser_bind; [apply keeps_browser_pure|].
  intros ok. destruct (truthy ok); [|intros w; reflexivity].
  apply keeps_browser_bind; [apply keeps_browser_pure|]. intros events.
  apply keeps_browser_bind; [apply keeps_browser_lift; intros w; reflexivity|].
  intros _. apply updateRecentEventsDisplay_browser.
Qed.

Lemma settle_browser (c : Channel) (o : FetchOutcome) : keeps_browser (settle c o).
Proof. destruct c; [apply status_chain_browser|apply logs_chain_browser]. Qed.

End FeedFrame.

(** ** The control state along a run *)

Lemma browser_of_control (w w' : World) :
  browser_of w' = browser_of w →
  cfg w' = cfg w ∧ timers w' = timers w ∧ nextTimer w' = nextTimer w
  ∧ closures w' = closures w.
Proof. unfold browser_of. intros [= -> _ _ -> -> -> _ _]. repeat split. Qed.

Lemma tryReconnect_cfg (s : nat) (w : World) : cfg (tryReconnect s w) = cfg w.
Proof.
  unfold tryReconnect. destruct (closures w !! s); [|reflexivity].
  destruct (_ >=? _); [reflexivity|].
  destruct w as [c [vf vs re rc] i st ck h ts nt cl inf iss con].
  destruct vf, vs; reflexivity.
Qed.

Lemma checkStatus_control (w : World) :
  cfg (checkStatus w) = cfg w ∧ timers (checkStatus w) = timers w
  ∧ nextTimer (checkStatus w) = nextTimer w
  ∧ closures (checkStatus w) = closures w.
Proof.
  unfold checkStatus.
  destruct (browser_of_control _ _
              (updateCameraStatus_browser (st_cameraConnected (state w)) w))
    as (Hc & Ht & Hn & Hcl).
  repeat split; cbn; assumption.
Qed.

Lemma refreshRecentEvents_control (w : World) :
  cfg (refreshRecentEvents w) = cfg w
  ∧ timers (refreshRecentEvents w) = timers w
  ∧ nextTimer (refreshRecentEvents w) = nextTimer w
  ∧ closures (refreshRecentEvents w) = closures w.
Proof.
  unfold refreshRecentEvents.
  destruct (el_recentEvents (elements w)); repeat split.
Qed.

Section Control.
Context {DP : DatePlatform}.

(** One turn of the loop never writes the configuration, and changes the
    control state in one of the six ways of [ctl_step]. *)
Lemma step_control (e : Event) (w w' : World) :
  step e w = Some w' → cfg w' = cfg w ∧ ctl_step w w'.
Proof.
  destruct e as [| |h|dt|id|i o]; cbn [step].
  - intros [= <-]. unfold handleVideoError, attemptReconnect.
    set (w1 := updateCameraStatus false _).
    destruct (browser_of_control w w1) as (Hc & Ht & Hn & Hcl).
    { subst w1. rewrite updateCameraStatus_browser. reflexivity. }
    set (w2 := set_closures _ w1).
    split; [rewrite tryReconnect_cfg; exact Hc|].
    assert (Hs : closures w2 !! length (closures w1) = Some 0).
    { subst w2. cbn. rewrite lookup_app_r by lia.
      replace (length (closures w1) - length (closures w1))%nat with 0%nat by lia.
      reflexivity. }
    destruct (Z.lt_ge_cases 0 (reconnectAttempts (cfg w))) as [Hlt|Hge].
    + assert (Hlt2 : 0 < reconnectAttempts (cfg w2)) by (rewrite <- Hc in Hlt; exact Hlt).
      destruct (tryReconnect_attempt w2 _ 0 Hs Hlt2) as (Hcl2 & Ht2 & Hn2).
      apply (ctl_start w _ (clock w2 + timeoutDelay (cfg w2) * (0 + 1))); [exact Hlt| | |].
      * rewrite Ht2. subst w2. cbn. rewrite Hc, Ht, Hn, Hcl. reflexivity.
      * rewrite Hn2. subst w2. cbn. rewrite Hn. reflexivity.
      * rewrite Hcl2. subst w2. cbn. rewrite Hcl.
        rewrite insert_app_r_alt by lia.
        replace (length (closures w) - length (closures w))%nat with 0%nat by lia.
        reflexivity.
    + assert (Hge2 : reconnectAttempts (cfg w2) <= 0) by (rewrite <- Hc in Hge; exact Hge).
      rewrite (tryReconnect_exhausted w2 _ 0 Hs Hge2).
      apply ctl_refused; [exact Hge| | |]; subst w2; cbn; congruence.
  - intros [= <-]. unfold handleVideoLoad.
    destruct (browser_of_control _ _
                (updateCameraStatus_browser true
                   (set_cameraConnected true
                      (console_push (LogInfo "Video feed loaded successfully") w))))
      as (Hc & Ht & Hn & Hcl).
    split; [exact Hc|]. apply ctl_same; assumption.
  - destruct (Bool.eqb h (hidden w)); [discriminate|]. intros [= <-].
    unfold handleVisibilityChange. cbn [hidden set_hidden].
    destruct (negb h); [|split; [reflexivity|apply ctl_same; reflexivity]].
    destruct (checkStatus_control (refreshRecentEvents (set_hidden h w)))
      as (Hc & Ht & Hn & Hcl).
    destruct (refreshRecentEvents_control (set_hidden h w)) as (Hc' & Ht' & Hn' & Hcl').
    split; [rewrite Hc, Hc'; reflexivity|].
    apply ctl_same; [rewrite Ht, Ht'|rewrite Hn, Hn'|rewrite Hcl, Hcl']; reflexivity.
  - destruct (0 <=? dt); [|discriminate]. intros [= <-].
    split; [reflexivity|apply ctl_same; reflexivity].
  - destruct (timers w !! id) as [t|] eqn:Hid; [|discriminate]. cbn.
    destruct (due t <=? clock w); [|discriminate]. intros [= <-].
    unfold fire. destruct (kind t) as [s| |] eqn:Hk.
    + unfold reconnectTimerExpired. cbn [state set_timers].
      assert (Hexp : ctl_step w (set_timers (delete id) w))
        by (apply (ctl_expire w _ id s t); auto).
      destruct (negb (st_cameraConnected (state w)));
        [|split; [reflexivity|exact Hexp]].
      split; [rewrite tryReconnect_cfg; reflexivity|].
      destruct (closures w !! s) as [a|] eqn:Hs.
      * destruct (Z.lt_ge_cases a (reconnectAttempts (cfg w))) as [Hlt|Hge].
        -- destruct (tryReconnect_attempt (set_timers (delete id) w) s a Hs Hlt)
             as (Hcl & Ht & Hn).
           apply (ctl_retry w _ id s t a
                    (clock w + timeoutDelay (cfg w) * (a + 1))); auto.
        -- rewrite (tryReconnect_exhausted (set_timers (delete id) w) s a Hs Hge).
           apply (ctl_expire w _ id s t); auto.
      * unfold tryReconnect. cbn [closures set_timers]. rewrite Hs. exact Hexp.
    + destruct (refreshRecentEvents_control
                  (set_timers (<[id := mkTimer RefreshInterval (delay t)
                                         (clock w + delay t)]>) w))
        as (Hc & Ht & Hn & Hcl).
      split; [exact Hc|].
      apply (ctl_rearm w _ id t (clock w + delay t)); auto.
      rewrite Ht, Hk. reflexivity.
    + destruct (checkStatus_control
                  (set_timers (<[id := mkTimer StatusInterval (delay t)
                                         (clock w + delay t)]>) w))
        as (Hc & Ht & Hn & Hcl).
      split; [exact Hc|].
      apply (ctl_rearm w _ id t (clock w + delay t)); auto.
      rewrite Ht, Hk. reflexivity.
  - destruct (inflight w !! i) as [c|]; [|discriminate]. cbn. intros [= <-].
    destruct (browser_of_control _ _
                (settle_browser c o (set_inflight (delete i) w)))
      as (Hc & Ht & Hn & Hcl).
    split; [exact Hc|]. apply ctl_same; assumption.
Qed.

End Control.

Lemma ctl_counters (w w' : World) :
  cfg w' = cfg w → ctl_step w w' → counters_bounded w → counters_bounded w'.
Proof.
  unfold counters_bounded. intros Hc Hstep Hw. rewrite Hc.
  destruct Hstep as [_ _ Hcl|id t d _ _ _ _ Hcl|id s t _ _ _ _ Hcl
                    |id s t a d _ _ Hs Ha _ _ Hcl|d Hmax _ _ Hcl|Hmax _ _ Hcl];
    rewrite Hcl; try exact Hw.
  - apply Forall_insert; [exact Hw|].
    pose proof (Forall_lookup_1 _ _ _ _ Hw Hs) as Hb. cbn in Hb. lia.
  - apply Forall_app. split; [exact Hw|]. constructor; [lia|constructor].
  - apply Forall_app. split; [exact Hw|]. constructor; [lia|constructor].
Qed.

Lemma ctl_reconnect_timers (w w' : World) :
  cfg w' = cfg w → ctl_step w w' → reconnect_timers_ok w → reconnect_timers_ok w'.
Proof.
  intros Hc Hstep Hw id0 s0 t0. rewrite Hc.
  destruct Hstep as [Ht _ Hcl|id t d Hid Hk Ht _ Hcl|id s t Hid Hk Ht _ Hcl
                    |id s t a d Hid Hk Hs Ha Ht _ Hcl|d Hmax Ht _ Hcl|Hmax Ht _ Hcl];
    rewrite Ht, Hcl.
  - apply Hw.
  - intros Hl Hk0. apply lookup_insert_Some in Hl.
    destruct Hl as [[_ <-]|[Hne Hl]]; [cbn in Hk0; destruct Hk; congruence|].
    destruct (Hw id0 s0 t0 Hl Hk0) as [Ha Hu]. split; [exact Ha|].
    intros id' t' Hl' Hk'. apply lookup_insert_Some in Hl'.
    destruct Hl' as [[_ <-]|[_ Hl']]; [cbn in Hk'; destruct Hk; congruence|].
    exact (Hu id' t' Hl' Hk').
  - intros Hl Hk0. apply lookup_delete_Some in Hl. destruct Hl as [_ Hl].
    destruct (Hw id0 s0 t0 Hl Hk0) as [Ha Hu]. split; [exact Ha|].
    intros id' t' Hl' Hk'. apply lookup_delete_Some in Hl'.
    exact (Hu id' t' (proj2 Hl') Hk').
  - destruct (Hw id s t Hid Hk) as [(a1 & Hs1 & Ha1 & _) Hu].
    assert (a1 = a) as -> by congruence.
    assert (Hlen : (s < length (closures w))%nat)
      by (apply lookup_lt_is_Some; eauto).
    intros Hl Hk0. apply lookup_insert_Some in Hl.
    destruct Hl as [[<- <-]|[Hne Hl]].
    + cbn in Hk0. injection Hk0 as <-. split.
      * exists (a + 1). rewrite list_lookup_insert_eq by exact Hlen.
        split; [reflexivity|]. split; [lia|reflexivity].
      * intros id' t' Hl' Hk'. apply lookup_insert_Some in Hl'.
        destruct Hl' as [[Heq _]|[_ Hl']]; [congruence|].
        apply lookup_delete_Some in Hl'. destruct Hl' as [Hne' Hl'].
        specialize (Hu id' t' Hl' Hk'). congruence.
    + apply lookup_delete_Some in Hl. destruct Hl as [Hne0 Hl].
      assert (Hs0 : s0 ≠ s).
      { intros ->. specialize (Hu id0 t0 Hl Hk0). congruence. }
      destruct (Hw id0 s0 t0 Hl Hk0) as [Ha0 Hu0]. split.
      * rewrite list_lookup_insert_ne by congruence. exact Ha0.
      * intros id' t' Hl' Hk'. apply lookup_insert_Some in Hl'.
        destruct Hl' as [[_ <-]|[_ Hl']]; [cbn in Hk'; congruence|].
        apply lookup_delete_Some in Hl'. exact (Hu0 id' t' (proj2 Hl') Hk').
  - intros Hl Hk0. apply lookup_insert_Some in Hl.
    destruct Hl as [[<- <-]|[Hne Hl]].
    + cbn in Hk0. injection Hk0 as <-. split.
      * exists (0 + 1). rewrite lookup_app_r by lia.
        replace (length (closures w) - length (closures w))%nat with 0%nat by lia.
        split; [reflexivity|]. split; [lia|reflexivity].
      * intros id' t' Hl' Hk'. apply lookup_insert_Some in Hl'.
        destruct Hl' as [[Heq _]|[_ Hl']]; [congruence|].
        destruct (Hw id' _ t' Hl' Hk') as [(a1 & Hs1 & _) _].
        apply lookup_lt_Some in Hs1. lia.
    + destruct (Hw id0 s0 t0 Hl Hk0) as [(a0 & Hs0 & Ha0) Hu0].
      pose proof (lookup_lt_Some _ _ _ Hs0) as Hlt. split.
      * exists a0. rewrite lookup_app_l by exact Hlt. split; assumption.
      * intros id' t' Hl' Hk'. apply lookup_insert_Some in Hl'.
        destruct Hl' as [[_ <-]|[_ Hl']].
        -- cbn in Hk'. injection Hk' as Hk'. lia.
        -- exact (Hu0 id' t' Hl' Hk').
  - intros Hl Hk0.
    destruct (Hw id0 s0 t0 Hl Hk0) as [(a0 & Hs0 & Ha0) Hu0]. split; [|exact Hu0].
    exists a0. rewrite lookup_app_l by (apply lookup_lt_Some in Hs0; exact Hs0).
    split; assumption.
Qed.

Lemma ctl_intervals (w w' : World) :
  cfg w' = cfg w → timer_ids_fresh w → ctl_step w w' →
  intervals_armed w → intervals_armed w'.
Proof.
  intros Hc Hf Hstep (Hr & Hs & Honly). unfold intervals_armed. rewrite Hc.
  destruct Hr as [dr Hr]. destruct Hs as [ds Hs].
  pose proof (Hf _ _ Hr) as Hr_lt. pose proof (Hf _ _ Hs) as Hs_lt.
  destruct Hstep as [Ht _ _|id t d Hid Hk Ht _ _|id s t Hid Hk Ht _ _
                    |id s t a d Hid Hk _ _ Ht _ _|d _ Ht _ _|_ Ht _ _];
    rewrite Ht.
  - split; [eauto|]. split; [eauto|]. exact Honly.
  - destruct (Honly id t Hid) as [H0 H1].
    split; [|split].
    + destruct (decide (id = 0%nat)) as [->|Hne].
      * rewrite lookup_insert_eq. assert (t = mkTimer RefreshInterval
          (refreshInterval (cfg w)) dr) as -> by congruence. eauto.
      * rewrite lookup_insert_ne by congruence. eauto.
    + destruct (decide (id = 1%nat)) as [->|Hne].
      * rewrite lookup_insert_eq. assert (t = mkTimer StatusInterval
          (statusCheckInterval (cfg w)) ds) as -> by congruence. eauto.
      * rewrite lookup_insert_ne by congruence. eauto.
    + intros id' t' Hl'. apply lookup_insert_Some in Hl'.
      destruct Hl' as [[<- <-]|[_ Hl']]; [exact (Honly id t Hid)|].
      exact (Honly id' t' Hl').
  - destruct (Honly id t Hid) as [H0 H1].
    assert (id ≠ 0%nat) by (intros ->; rewrite Hr in Hid; injection Hid as <-; discriminate).
    assert (id ≠ 1%nat) by (intros ->; rewrite Hs in Hid; injection Hid as <-; discriminate).
    split; [|split].
    + rewrite lookup_delete_ne by congruence. eauto.
    + rewrite lookup_delete_ne by congruence. eauto.
    + intros id' t' Hl'. apply lookup_delete_Some in Hl'.
      exact (Honly id' t' (proj2 Hl')).
  - assert (id ≠ 0%nat) by (intros ->; rewrite Hr in Hid; injection Hid as <-; discriminate).
    assert (id ≠ 1%nat) by (intros ->; rewrite Hs in Hid; injection Hid as <-; discriminate).
    split; [|split].
    + rewrite lookup_insert_ne by lia. rewrite lookup_delete_ne by congruence. eauto.
    + rewrite lookup_insert_ne by lia. rewrite lookup_delete_ne by congruence. eauto.
    + intros id' t' Hl'. apply lookup_insert_Some in Hl'.
      destruct Hl' as [[_ <-]|[_ Hl']]; [split; discriminate|].
      apply lookup_delete_Some in Hl'. exact (Honly id' t' (proj2 Hl')).
  - split; [|split].
    + rewrite lookup_insert_ne by lia. eauto.
    + rewrite lookup_insert_ne by lia. eauto.
    + intros id' t' Hl'. apply lookup_insert_Some in Hl'.
      destruct Hl' as [[_ <-]|[_ Hl']]; [split; discriminate|].
      exact (Honly id' t' Hl').
  - split; [eauto|]. split; [eauto|]. exact Honly.
Qed.

Section ControlInvariant.
Context {DP : DatePlatform}.

Lemma step_control_invariant (c : Config) (e : Event) (w w' : World) :
  control_invariant c w → step e w = Some w' → control_invariant c w'.
Proof.
  intros (Hc & Hf & Hb & Hr & Hi) Hstep.
  destruct (step_control e w w' Hstep) as [Hcfg Hctl].
  split; [congruence|]. split; [exact (step_fresh e w w' Hf Hstep)|].
  split; [exact (ctl_counters w w' Hcfg Hctl Hb)|].
  split; [exact (ctl_reconnect_timers w w' Hcfg Hctl Hr)|].
  exact (ctl_intervals w w' Hcfg Hf Hctl Hi).
Qed.

Lemma init_control_invariant (c : Config) (e : Elements) (i : Indicators) (now : Z) :
  control_invariant c (init (page c e i now)).
Proof.
  assert (E : cfg (init (page c e i now)) = c
              ∧ closures (init (page c e i now)) = []
              ∧ timers (init (page c e i now))
                = <[1%nat := mkTimer StatusInterval (statusCheckInterval c)
                                     (now + statusCheckInterval c)]>
                    (<[0%nat := mkTimer RefreshInterval (refreshInterval c)
                                        (now + refreshInterval c)]> ∅)).
  { unfold init, startRefreshTimers, checkStatus, updateCameraStatus, page.
    cbn. destruct (camera i); cbn; repeat split. }
  destruct E as (Hc & Hcl & Ht).
  split; [exact Hc|]. split; [apply init_fresh|].
  split; [unfold counters_bounded; rewrite Hcl; constructor|].
  split.
  - intros id s t. rewrite Ht. intros Hl Hk. exfalso.
    apply lookup_insert_Some in Hl. destruct Hl as [[_ <-]|[_ Hl]]; [discriminate|].
    apply lookup_insert_Some in Hl. destruct Hl as [[_ <-]|[_ Hl]]; [discriminate|].
    rewrite lookup_empty in Hl. discriminate.
  - unfold intervals_armed. rewrite Ht, Hc. split; [|split].
    + rewrite lookup_insert_ne by lia. rewrite lookup_insert_eq. eauto.
    + rewrite lookup_insert_eq. eauto.
    + intros id t Hl.
      apply lookup_insert_Some in Hl. destruct Hl as [[<- <-]|[_ Hl]];
        [split; [discriminate|reflexivity]|].
      apply lookup_insert_Some in Hl. destruct Hl as [[<- <-]|[_ Hl]];
        [split; [reflexivity|discriminate]|].
      rewrite lookup_empty in Hl. discriminate.
Qed.

Lemma run_control_invariant (c : Config) (es : list Event) (w w' : World) :
  control_invariant c w → run es w = Some w' → control_invariant c w'.
Proof.
  revert w. induction es as [|ev es IH]; intros w Hw; cbn [run].
  - intros [= <-]. exact Hw.
  - destruct (step ev w) as [w1|] eqn:Hs; [|discriminate]. cbn.
    apply IH. exact (step_control_invariant c ev w w1 Hw Hs).
Qed.

(** Along every run from a freshly initialised page, no reconnect
    sequence counts more attempts than [reconnectAttempts] allows (and no
    counter is negative), whatever events arrive in whatever order. *)
Theorem attempts_never_exceed_limit
    (c : Config) (e : Elements) (i : Indicators) (now : Z)
    (es : list Event) (w : World) :
  run es (init (page c e i now)) = Some w →
  ∀ (s : nat) (a : Z),
    closures w !! s = Some a → 0 <= a <= Z.max 0 (reconnectAttempts c).
Proof.
  intros Hrun s a Hs.
  destruct (run_control_invariant c es _ w (init_control_invariant c e i now) Hrun)
    as (Hc & _ & Hb & _).
  unfold counters_bounded in Hb. rewrite Hc in Hb.
  exact (Forall_lookup_1 _ _ _ _ Hb Hs).
Qed.

(** Along every run from a freshly initialised page, a reconnect
    sequence has at most one timer pending, and that timer's delay is
    [timeoutDelay] times the number of attempts the sequence has made so
    far, which is at least one. *)
Theorem one_timer_per_sequence
    (c : Config) (e : Elements) (i : Indicators) (now : Z)
    (es : list Event) (w : World) (id s : nat) (t : Timer) :
  run es (init (page c e i now)) = Some w →
  timers w !! id = Some t →
  kind t = ReconnectTimeout s →
  (∃ a : Z, closures w !! s = Some a ∧ 1 <= a ∧ delay t = timeoutDelay c * a)
  ∧ ∀ (id' : nat) (t' : Timer),
      timers w !! id' = Some t' → kind t' = ReconnectTimeout s → id' = id.
Proof.
  intros Hrun Hl Hk.
  destruct (run_control_invariant c es _ w (init_control_invariant c e i now) Hrun)
    as (Hc & _ & _ & Hr & _).
  rewrite <- Hc. exact (Hr id s t Hl Hk).
Qed.

(** Along every run from a freshly initialised page, the two polling
    intervals stay armed with their configured periods: nothing the
    dashboard does (stream errors, failed or malformed responses, an
    exhausted reconnect sequence, a hidden page) ever stops the polling. *)
Theorem polling_never_stops
    (c : Config) (e : Elements) (i : Indicators) (now : Z)
    (es : list Event) (w : World) :
  run es (init (page c e i now)) = Some w →
  (∃ d : Z, timers w !! 0%nat = Some (mkTimer RefreshInterval (refreshInterval c) d))
  ∧ (∃ d : Z, timers w !! 1%nat
              = Some (mkTimer StatusInterval (statusCheckInterval c) d)).
Proof.
  intros Hrun.
  destruct (run_control_invariant c es _ w (init_control_invariant c e i now) Hrun)
    as (Hc & _ & _ & _ & (Hr & Hs & _)).
  rewrite <- Hc. split; assumption.
Qed.

End ControlInvariant.

Lemma attempts_never_exceed_limit_witness :
  run (DP := sample_dates) one_error_then_timeouts
      (init (page config sample_elements sample_indicators 0))
  = Some (sample_after one_error_then_timeouts)
  ∧ closures (sample_after one_error_then_timeouts) !! 0%nat = Some 3
  ∧ 0 <= 3 <= Z.max 0 (reconnectAttempts config).
Proof.
  assert (Hrun : run (DP := sample_dates) one_error_then_timeouts
                     (init (page config sample_elements sample_indicators 0))
                 = Some (sample_after one_error_then_timeouts))
    by (vm_compute; reflexivity).
  assert (Hs : closures (sample_after one_error_then_timeouts) !! 0%nat = Some 3)
    by (vm_compute; reflexivity).
  split; [exact Hrun|]. split; [exact Hs|].
  exact (attempts_never_exceed_limit (DP := sample_dates) config sample_elements
           sample_indicators 0 one_error_then_timeouts _ Hrun 0%nat 3 Hs).
Defined.

Lemma one_timer_per_sequence_witness :
  let es := [EvVideoError; EvAdvance 2000; EvTimer 2] in
  let t := mkTimer (ReconnectTimeout 0) 4000 6000 in
  run (DP := sample_dates) es (init (page config sample_elements sample_indicators 0))
  = Some (sample_after es)
  ∧ timers (sample_after es) !! 3%nat = Some t
  ∧ (∃ a : Z, closures (sample_after es) !! 0%nat = Some a ∧ 1 <= a
              ∧ delay t = timeoutDelay config * a)
  ∧ ∀ (id' : nat) (t' : Timer),
      timers (sample_after es) !! id' = Some t' →
      kind t' = ReconnectTimeout 0 → id' = 3%nat.
Proof.
  intros es t.
  assert (Hrun : run (DP := sample_dates) es
                     (init (page config sample_elements sample_indicators 0))
                 = Some (sample_after es)) by (vm_compute; reflexivity).
  assert (Hl : timers (sample_after es) !! 3%nat = Some t) by (vm_compute; reflexivity).
  split; [exact Hrun|]. split; [exact Hl|].
  exact (one_timer_per_sequence (DP := sample_dates) config sample_elements
           sample_indicators 0 es _ 3%nat 0%nat t Hrun Hl eq_refl).
Defined.

Lemma polling_never_stops_witness :
  let es := one_error_then_timeouts ++ [EvVisibility true; EvSettle 0 NetworkFailure] in
  run (DP := sample_dates) es (init (page config sample_elements sample_indicators 0))
  = Some (sample_after es)
  ∧ (∃ d : Z, timers (sample_after es) !! 0%nat
              = Some (mkTimer RefreshInterval (refreshInterval config) d))
  ∧ (∃ d : Z, timers (sample_after es) !! 1%nat
              = Some (mkTimer StatusInterval (statusCheckInterval config) d)).
Proof.
  intros es.
  assert (Hrun : run (DP := sample_dates) es
                     (init (page config sample_elements sample_indicators 0))
                 = Some (sample_after es)) by (vm_compute; reflexivity).
  split; [exact Hrun|].
  exact (polling_never_stops (DP := sample_dates) config sample_elements
           sample_indicators 0 es _ Hrun).
Defined.

(** ** Status indicators *)

Lemma elem_classList_remove (c x : string) (l : list string) :
  x ∈ classList_remove c l ↔ x ≠ c ∧ x ∈ l.
Proof. unfold classList_remove. rewrite list_elem_of_filter. reflexivity. Qed.

Lemma elem_classList_add (c x : string) (l : list string) :
  x ∈ classList_add c l ↔ x = c ∨ x ∈ l.
Proof.
  unfold classList_add. case_bool_decide as Hin.
  - split; [auto|]. intros [->|?]; assumption.
  - rewrite elem_of_app, list_elem_of_singleton. tauto.
Qed.

Lemma NoDup_classList_remove (c : string) (l : list string) :
  NoDup l → NoDup (classList_remove c l).
Proof. apply NoDup_filter. Qed.

Lemma NoDup_classList_add (c : string) (l : list string) :
  NoDup l → NoDup (classList_add c l).
Proof.
  intros Hl. unfold classList_add. case_bool_decide as Hin; [exact Hl|].
  apply NoDup_app. split; [exact Hl|]. split; [|apply NoDup_singleton].
  intros x Hx Hx'. apply list_elem_of_singleton in Hx'. congruence.
Qed.

Lemma classList_remove_absent (c : string) (l : list string) :
  c ∉ l → classList_remove c l = l.
Proof.
  intros Hc. unfold classList_remove. induction l as [|x l IH]; [reflexivity|].
  rewrite filter_cons. rewrite not_elem_of_cons in Hc. destruct Hc as [Hne Hc].
  rewrite decide_True by congruence. rewrite IH by exact Hc. reflexivity.
Qed.

Lemma classList_add_present (c : string) (l : list string) :
  c ∈ l → classList_add c l = l.
Proof. intros Hc. unfold classList_add. rewrite bool_decide_eq_true_2; auto. Qed.

(** Setting one of two opposite status classes twice is setting it
    once. *)
Lemma classList_swap_idem (c d : string) (l : list string) :
  c ≠ d →
  classList_add c (classList_remove d (classList_add c (classList_remove d l)))
  = classList_add c (classList_remove d l).
Proof.
  intros Hcd. rewrite (classList_remove_absent d).
  - apply classList_add_present, classList_add_elem.
  - apply classList_swap_absent. exact Hcd.
Qed.

Lemma classList_swap_spec (c d : string) (l : list string) :
  c ≠ d →
  (c ∈ classList_add c (classList_remove d l))
  ∧ (d ∉ classList_add c (classList_remove d l))
  ∧ (∀ x : string, x ≠ c → x ≠ d →
       (x ∈ classList_add c (classList_remove d l) ↔ x ∈ l))
  ∧ (NoDup l → NoDup (classList_add c (classList_remove d l))).
Proof.
  intros Hcd. split; [apply classList_add_elem|].
  split; [apply classList_swap_absent; exact Hcd|]. split.
  - intros x Hc Hd. rewrite elem_classList_add, elem_classList_remove. tauto.
  - intros Hl. apply NoDup_classList_add, NoDup_classList_remove, Hl.
Qed.

(** After [updateCameraStatus] the camera indicator carries exactly one
    of the two status classes, the one for the value passed; every other
    class of the element is kept, and a class list without repetitions
    stays without repetitions. *)
Theorem camera_indicator_one_status (b : bool) (w : World) (ind : Indicator) :
  camera (indicators w) = Some ind →
  ∃ ind' : Indicator,
    camera (indicators (updateCameraStatus b w)) = Some ind'
    ∧ ("status-online" ∈ classList ind' ↔ b = true)
    ∧ ("status-offline" ∈ classList ind' ↔ b = false)
    ∧ (∀ x : string, x ≠ "status-online" → x ≠ "status-offline" →
         (x ∈ classList ind' ↔ x ∈ classList ind))
    ∧ (NoDup (classList ind) → NoDup (classList ind')).
Proof.
  intros Hc. unfold updateCameraStatus. rewrite Hc. destruct b.
  - destruct (classList_swap_spec "status-online" "status-offline" (classList ind))
      as (Hin & Hout & Hrest & Hnd); [discriminate|].
    eexists. split; [reflexivity|]. cbn [classList].
    split; [tauto|]. split; [split; [contradiction|discriminate]|].
    split; [intros x H1 H2; apply Hrest; assumption|exact Hnd].
  - destruct (classList_swap_spec "status-offline" "status-online" (classList ind))
      as (Hin & Hout & Hrest & Hnd); [discriminate|].
    eexists. split; [reflexivity|]. cbn [classList].
    split; [split; [contradiction|discriminate]|]. split; [tauto|].
    split; [intros x H1 H2; apply Hrest; assumption|exact Hnd].
Qed.

(** After [updateNetworkStatus] the network indicator carries exactly
    one of the two status classes: online for a truthy argument, offline
    for a falsy one ([false], [undefined], [null], 0, the empty string). *)
Theorem network_indicator_one_status (v : JsVal) (w : World) (ind : Indicator) :
  network (indicators w) = Some ind →
  ∃ ind' : Indicator,
    network (indicators (updateNetworkStatus v w)) = Some ind'
    ∧ ("status-online" ∈ classList ind' ↔ truthy v = true)
    ∧ ("status-offline" ∈ classList ind' ↔ truthy v = false)
    ∧ (∀ x : string, x ≠ "status-online" → x ≠ "status-offline" →
         (x ∈ classList ind' ↔ x ∈ classList ind))
    ∧ (NoDup (classList ind) → NoDup (classList ind')).
Proof.
  intros Hc. unfold updateNetworkStatus. rewrite Hc. destruct (truthy v).
  - destruct (classList_swap_spec "status-online" "status-offline" (classList ind))
      as (Hin & Hout & Hrest & Hnd); [discriminate|].
    eexists. split; [reflexivity|]. cbn [classList].
    split; [tauto|]. split; [split; [contradiction|discriminate]|].
    split; [intros x H1 H2; apply Hrest; assumption|exact Hnd].
  - destruct (classList_swap_spec "status-offline" "status-online" (classList ind))
      as (Hin & Hout & Hrest & Hnd); [discriminate|].
    eexists. split; [reflexivity|]. cbn [classList].
    split; [split; [contradiction|discriminate]|]. split; [tauto|].
    split; [intros x H1 H2; apply Hrest; assumption|exact Hnd].
Qed.

Lemma elem_cleared (x : string) (l : list string) :
  x ∈ classList_remove "status-warning"
        (classList_remove "status-offline" (classList_remove "status-online" l))
  ↔ x ≠ "status-warning" ∧ x ≠ "status-offline" ∧ x ≠ "status-online" ∧ x ∈ l.
Proof. rewrite !elem_classList_remove. tauto. Qed.

(** After [updateSystemStatus] the system indicator carries the class
    of the status passed when that is the string 'online', 'warning' or
    'offline', and none of the three status classes for any other value
    (a boolean, [undefined], another string), in which case the title is
    left as it was.  Every other class of the element is kept. *)
Theorem system_indicator_known_status (v : JsVal) (w : World) (ind : Indicator) :
  system (indicators w) = Some ind →
  ∃ ind' : Indicator,
    system (indicators (updateSystemStatus v w)) = Some ind'
    ∧ ("status-online" ∈ classList ind' ↔ v = VStr "online")
    ∧ ("status-warning" ∈ classList ind' ↔ v = VStr "warning")
    ∧ ("status-offline" ∈ classList ind' ↔ v = VStr "offline")
    ∧ (∀ x : string,
         x ≠ "status-online" → x ≠ "status-warning" → x ≠ "status-offline" →
         (x ∈ classList ind' ↔ x ∈ classList ind))
    ∧ (v ≠ VStr "online" → v ≠ VStr "warning" → v ≠ VStr "offline" →
       title ind' = title ind).
Proof.
  intros Hs. unfold updateSystemStatus. rewrite Hs.
  destruct (strict_eq_str v "online") eqn:E1;
    [|destruct (strict_eq_str v "warning") eqn:E2;
      [|destruct (strict_eq_str v "offline") eqn:E3]].
  - apply strict_eq_str_true in E1. subst v.
    eexists. split; [reflexivity|]. cbn [classList title].
    rewrite !elem_classList_add, !elem_cleared.
    split; [intuition congruence|]. split; [intuition congruence|].
    split; [intuition congruence|]. split; [|congruence].
    intros x H1 H2 H3. rewrite elem_classList_add, elem_cleared. intuition congruence.
  - apply strict_eq_str_true in E2. subst v.
    eexists. split; [reflexivity|]. cbn [classList title].
    rewrite !elem_classList_add, !elem_cleared.
    split; [intuition congruence|]. split; [intuition congruence|].
    split; [intuition congruence|]. split; [|congruence].
    intros x H1 H2 H3. rewrite elem_classList_add, elem_cleared. intuition congruence.
  - apply strict_eq_str_true in E3. subst v.
    eexists. split; [reflexivity|]. cbn [classList title].
    rewrite !elem_classList_add, !elem_cleared.
    split; [intuition congruence|]. split; [intuition congruence|].
    split; [intuition congruence|]. split; [|congruence].
    intros x H1 H2 H3. rewrite elem_classList_add, elem_cleared. intuition congruence.
  - assert (N1 : v ≠ VStr "online")
      by (intros H; apply strict_eq_str_true in H; congruence).
    assert (N2 : v ≠ VStr "warning")
      by (intros H; apply strict_eq_str_true in H; congruence).
    assert (N3 : v ≠ VStr "offline")
      by (intros H; apply strict_eq_str_true in H; congruence).
    eexists. split; [reflexivity|]. cbn [classList title].
    rewrite !elem_cleared.
    split; [intuition congruence|]. split; [intuition congruence|].
    split; [intuition congruence|]. split; [|reflexivity].
    intros x H1 H2 H3. rewrite elem_cleared. intuition congruence.
Qed.

Lemma camera_indicator_one_status_witness :
  camera (indicators sample_world)
  = Some (mkIndicator ["status-indicator"; "camera-status"; "status-offline"]
                      "Camera Disconnected")
  ∧ ∃ ind' : Indicator,
      camera (indicators (updateCameraStatus true sample_world)) = Some ind'
      ∧ ("status-online" ∈ classList ind' ↔ true = true)
      ∧ ("status-offline" ∈ classList ind' ↔ true = false)
      ∧ (∀ x : string, x ≠ "status-online" → x ≠ "status-offline" →
           (x ∈ classList ind'
            ↔ x ∈ ["status-indicator"; "camera-status"; "status-offline"]))
      ∧ (NoDup ["status-indicator"; "camera-status"; "status-offline"]
         → NoDup (classList ind')).
Proof.
  assert (Hc : camera (indicators sample_world)
               = Some (mkIndicator
                         ["status-indicator"; "camera-status"; "status-offline"]
                         "Camera Disconnected")) by (vm_compute; reflexivity).
  split; [exact Hc|].
  exact (camera_indicator_one_status true sample_world _ Hc).
Defined.

Lemma network_indicator_one_status_witness :
  network (indicators sample_world)
  = Some (mkIndicator ["status-indicator"; "network-status"; "status-online"]
                      "Network Connected")
  ∧ ∃ ind' : Indicator,
      network (indicators (updateNetworkStatus VUndefined sample_world)) = Some ind'
      ∧ ("status-online" ∈ classList ind' ↔ truthy VUndefined = true)
      ∧ ("status-offline" ∈ classList ind' ↔ truthy VUndefined = false)
      ∧ (∀ x : string, x ≠ "status-online" → x ≠ "status-offline" →
           (x ∈ classList ind'
            ↔ x ∈ ["status-indicator"; "network-status"; "status-online"]))
      ∧ (NoDup ["status-indicator"; "network-status"; "status-online"]
         → NoDup (classList ind')).
Proof.
  assert (Hc : network (indicators sample_world)
               = Some (mkIndicator
                         ["status-indicator"; "network-status"; "status-online"]
                         "Network Connected")) by (vm_compute; reflexivity).
  split; [exact Hc|].
  exact (network_indicator_one_status VUndefined sample_world _ Hc).
Defined.

Lemma system_indicator_known_status_witness :
  system (indicators sample_world)
  = Some (mkIndicator ["status-indicator"; "system-status"; "status-online"]
                      "System Online")
  ∧ ∃ ind' : Indicator,
      system (indicators (updateSystemStatus (VStr "warning") sample_world))
      = Some ind'
      ∧ ("status-online" ∈ classList ind' ↔ VStr "warning" = VStr "online")
      ∧ ("status-warning" ∈ classList ind' ↔ VStr "warning" = VStr "warning")
      ∧ ("status-offline" ∈ classList ind' ↔ VStr "warning" = VStr "offline")
      ∧ (∀ x : string,
           x ≠ "status-online" → x ≠ "status-warning" → x ≠ "status-offline" →
           (x ∈ classList ind'
            ↔ x ∈ ["status-indicator"; "system-status"; "status-online"]))
      ∧ (VStr "warning" ≠ VStr "online" → VStr "warning" ≠ VStr "warning" →
         VStr "warning" ≠ VStr "offline" → title ind' = "System Online").
Proof.
  assert (Hc : system (indicators sample_world)
               = Some (mkIndicator
                         ["status-indicator"; "system-status"; "status-online"]
                         "System Online")) by (vm_compute; reflexivity).
  split; [exact Hc|].
  exact (system_indicator_known_status (VStr "warning") sample_world _ Hc).
Defined.

Lemma classList_remove_app (c : string) (l1 l2 : list string) :
  classList_remove c (l1 ++ l2) = classList_remove c l1 ++ classList_remove c l2.
Proof. unfold classList_remove. apply filter_app. Qed.

Lemma status_cleared_app (l1 l2 : list string) :
  status_cleared (l1 ++ l2) = status_cleared l1 ++ status_cleared l2.
Proof. unfold status_cleared. rewrite !classList_remove_app. reflexivity. Qed.

Lemma status_cleared_idem (l : list string) :
  status_cleared (status_cleared l) = status_cleared l.
Proof.
  unfold status_cleared at 1.
  rewrite (classList_remove_absent "status-online").
  - rewrite (classList_remove_absent "status-offline").
    + apply classList_remove_absent. unfold status_cleared.
      rewrite elem_cleared. tauto.
    + unfold status_cleared. rewrite elem_cleared. tauto.
  - unfold status_cleared. rewrite elem_cleared. tauto.
Qed.

Lemma status_cleared_add (c : string) (l : list string) :
  status_cleared [c] = [] →
  status_cleared (classList_add c (status_cleared l)) = status_cleared l.
Proof.
  intros Hc. unfold classList_add. case_bool_decide as Hin.
  - apply status_cleared_idem.
  - rewrite status_cleared_app, status_cleared_idem, Hc. apply app_nil_r.
Qed.

Lemma classList_add_idem (c : string) (l : list string) :
  classList_add c (classList_add c l) = classList_add c l.
Proof. apply classList_add_present, classList_add_elem. Qed.

(** Each of the three indicator updates is idempotent: a status check
    that reports what the indicator already shows leaves the world as it
    is, so repeated checks do not pile up classes. *)
Theorem indicator_updates_idempotent (b : bool) (v : JsVal) (w : World) :
  updateCameraStatus b (updateCameraStatus b w) = updateCameraStatus b w
  ∧ updateSystemStatus v (updateSystemStatus v w) = updateSystemStatus v w
  ∧ updateNetworkStatus v (updateNetworkStatus v w) = updateNetworkStatus v w.
Proof.
  destruct w as [c e [cam sys net] st ck h ts nt cl inf iss con].
  split; [|split].
  - unfold updateCameraStatus. cbn [indicators camera].
    destruct cam as [ind|]; [|reflexivity].
    destruct b; cbn [indicators camera set_camera set_indicators classList];
      unfold set_camera, set_indicators; cbn;
      rewrite classList_swap_idem by discriminate; reflexivity.
  - unfold updateSystemStatus. cbn [indicators system].
    destruct sys as [ind|]; [|reflexivity].
    fold (status_cleared (classList ind)).
    destruct (strict_eq_str v "online") eqn:E1;
      [|destruct (strict_eq_str v "warning") eqn:E2;
        [|destruct (strict_eq_str v "offline") eqn:E3]];
      cbn [set_system set_indicators indicators system classList title];
      rewrite ?E1, ?E2, ?E3;
      match goal with
      | |- context [classList_remove "status-warning"
                      (classList_remove "status-offline"
                         (classList_remove "status-online" ?l))] =>
          fold (status_cleared l)
      end.
    all: rewrite ?status_cleared_add by reflexivity.
    all: rewrite ?status_cleared_idem, ?classList_add_idem; reflexivity.
  - unfold updateNetworkStatus. cbn [indicators network].
    destruct net as [ind|]; [|reflexivity].
    destruct (truthy v) eqn:E;
      cbn [set_network set_indicators indicators network classList];
      rewrite classList_swap_idem by discriminate; reflexivity.
Qed.

(** ** What a response can and cannot change *)

Lemma keeps_bind_obs {X A B : Type} (obs : World → X) (m : Eff A) (f : A → Eff B) :
  keeps obs m → (∀ a, keeps obs (f a)) → keeps obs (mbind f m).
Proof.
  intros Hm Hf w. unfold mbind, Eff_bind. specialize (Hm w).
  destruct (m w) as [w1 [a|e]]; cbn [fst] in Hm |- *; [|exact Hm].
  rewrite (Hf a w1). exact Hm.
Qed.

Lemma keeps_catch_obs {X A : Type} (obs : World → X) (m : Eff A) (h : JsError → Eff A) :
  keeps obs m → (∀ e, keeps obs (h e)) → keeps obs (catch m h).
Proof.
  intros Hm Hh w. unfold catch. specialize (Hm w).
  destruct (m w) as [w1 [a|e]]; cbn [fst] in Hm |- *; [exact Hm|].
  rewrite (Hh e w1). exact Hm.
Qed.

Lemma keeps_lift_obs {X : Type} (obs : World → X) (f : World → World) :
  (∀ w, obs (f w) = obs w) → keeps obs (lift f).
Proof. intros Hf w. apply Hf. Qed.

Lemma keeps_pure_obs {X A : Type} (obs : World → X) (r : Res A) : keeps obs (eval r).
Proof. intros w. reflexivity. Qed.

(** An observation that the console and the two indicator updates of
    the status callbacks respect is respected by the whole chain. *)
Lemma status_chain_keeps_obs {X : Type} (obs : World → X) (o : FetchOutcome) :
  (∀ e w, obs (console_push e w) = obs w) →
  (∀ v w, obs (updateSystemStatus v w) = obs w) →
  (∀ v w, obs (updateNetworkStatus v w) = obs w) →
  keeps obs (status_chain o).
Proof.
  intros Hcon Hsys Hnet. apply keeps_catch_obs.
  - unfold status_chain.
    apply keeps_bind_obs; [destruct o; intros w; reflexivity|].
    intros r. apply keeps_bind_obs; [destruct r; intros w; reflexivity|].
    intros data. unfold status_then.
    apply keeps_bind_obs; [apply keeps_pure_obs|].
    intros ok. destruct (truthy ok); [|intros w; reflexivity].
    apply keeps_bind_obs; [apply keeps_pure_obs|]. intros st.
    apply keeps_bind_obs; [apply keeps_lift_obs, Hsys|]. intros _.
    apply keeps_bind_obs; [apply keeps_pure_obs|]. intros nw.
    apply keeps_lift_obs, Hnet.
  - intros e. unfold status_catch.
    apply keeps_bind_obs; [apply keeps_lift_obs, Hcon|]. intros _.
    apply keeps_bind_obs; [apply keeps_lift_obs, Hsys|]. intros _.
    apply keeps_lift_obs, Hnet.
Qed.

Section ResponseFrame.
Context {DP : DatePlatform}.

(** The same for the feed: an observation respected by the console, by
    the assignment to [state.recentEvents] and by the three writes to the
    feed and its counter (each on a page that has the element written)
    is respected by the whole chain. *)
Lemma logs_chain_keeps_obs {X : Type} (obs : World → X) (o : FetchOutcome) :
  (∀ e w, obs (console_push e w) = obs w) →
  (∀ v w, obs (set_recentEvents v w) = obs w) →
  (∀ l w, is_Some (el_recentEvents (elements w)) → obs (set_feed l w) = obs w) →
  (∀ x w, obs (appendChild x w) = obs w) →
  (∀ x w, is_Some (el_recognitionCount (elements w)) →
          obs (set_recognitionCount x w) = obs w) →
  keeps obs (logs_chain o).
Proof.
  intros Hcon Hst Hfeed Happ Hcnt.
  assert (Heach : ∀ l, keeps obs (forEach_render l)).
  { induction l as [|ev l IH]; intros w; [reflexivity|].
    cbn [forEach_render]. destruct (render_item (clock w) ev) as [item|e];
      [|reflexivity].
    rewrite (IH (appendChild item w)). apply Happ. }
  apply keeps_catch_obs; [|intros e; apply keeps_lift_obs, Hcon].
  apply keeps_bind_obs; [destruct o; intros w; reflexivity|].
  intros r. apply keeps_bind_obs; [destruct r; intros w; reflexivity|].
  intros data. unfold logs_then.
  apply keeps_bind_obs; [apply keeps_pure_obs|].
  intros ok. destruct (truthy ok); [|intros w; reflexivity].
  apply keeps_bind_obs; [apply keeps_pure_obs|]. intros events.
  apply keeps_bind_obs; [apply keeps_lift_obs, Hst|]. intros _.
  intros w. unfold updateRecentEventsDisplay.
  destruct (el_recentEvents (elements w)) as [shown|] eqn:Hre; [|reflexivity].
  unfold guarded_replace. destruct (truthy events); [|reflexivity]. cbn [negb].
  unfold eval, mbind, Eff_bind.
  destruct (get_prop events "length") as [len|e]; [|reflexivity].
  destruct (truthy len); [|reflexivity]. cbn [negb].
  unfold replace_feed, lift, mbind, Eff_bind.
  assert (H1 : obs (set_feed [] w) = obs w) by (apply Hfeed; rewrite Hre; eauto).
  set (m := match events with
            | VArr l => forEach_render l
            | _ => throw (TypeError "events.forEach is not a function")
            end).
  assert (Hm : keeps obs m).
  { subst m. destruct events; try (intros w0; reflexivity). apply Heach. }
  specialize (Hm (set_feed [] w)).
  destruct (m (set_feed [] w)) as [w' [[]|e]]; cbn [fst] in Hm |- *; [|congruence].
  unfold update_count.
  destruct (el_recognitionCount (elements w')) as [txt|] eqn:Hrc; cbn [fst];
    [|congruence].
  rewrite Hcnt by (rewrite Hrc; eauto). congruence.
Qed.

(** Whatever comes back from [/api/status] (a rejection, a body that is
    not JSON, [null], a body of any shape), settling the request writes
    nothing but the system indicator, the network indicator and the
    console: the page elements, the stored state, the camera indicator,
    the timers, the attempt counters and the request lists are as they
    were; and the chain ends fulfilled. *)
Theorem status_response_frame (o : FetchOutcome) (w : World) :
  snd (status_chain o w) = Ok tt
  ∧ beside_status (fst (status_chain o w)) = beside_status w.
Proof.
  split; [apply status_chain_ok|].
  apply (status_chain_keeps_obs beside_status o).
  - intros e w0. reflexivity.
  - intros v w0. unfold beside_status. rewrite updateSystemStatus_browser.
    unfold updateSystemStatus. destruct (system (indicators w0)); [|reflexivity].
    repeat (match goal with |- context [if ?b then _ else _] => destruct b end);
      reflexivity.
  - intros v w0. unfold beside_status. rewrite updateNetworkStatus_browser.
    unfold updateNetworkStatus.
    destruct (network (indicators w0)); [destruct (truthy v)|]; reflexivity.
Qed.

(** Whatever comes back from [/api/logs], settling the request writes
    nothing but the stored events, the feed, the recognition counter and
    the console: the indicators, the camera flag, the stream's [src], the
    status line, the timers, the attempt counters and the request lists
    are as they were; and the chain ends fulfilled, also when a callback
    throws on a malformed body. *)
Theorem logs_response_frame (o : FetchOutcome) (w : World) :
  snd (logs_chain o w) = Ok tt
  ∧ beside_feed (fst (logs_chain o w)) = beside_feed w.
Proof.
  split.
  - unfold logs_chain, catch.
    match goal with |- context [match ?m with _ => _ end] =>
      destruct m as [w' [[]|e]] end; reflexivity.
  - apply (logs_chain_keeps_obs beside_feed o).
    + intros e w0. reflexivity.
    + intros v w0. reflexivity.
    + intros l w0 _. reflexivity.
    + intros x w0. unfold appendChild.
      destruct (el_recentEvents (elements w0)); reflexivity.
    + intros x w0 _. reflexivity.
Qed.

End ResponseFrame.

(** ** The feed on well-formed and on malformed bodies *)

Section FeedEdges.
Context {DP : DatePlatform}.

Lemma logs_chain_success (data ok events : JsVal) (w : World) :
  get_prop data "success" = Ok ok →
  truthy ok = true →
  get_prop data "events" = Ok events →
  logs_chain (Response (Some data)) w
  = match updateRecentEventsDisplay events (set_recentEvents events w) with
    | (w', Ok a) => (w', Ok a)
    | (w', Thrown e) => logs_catch e w'
    end.
Proof.
  intros Hs Ht He. rewrite logs_chain_unfold.
  unfold logs_then, eval, mbind, Eff_bind, lift. rewrite Hs, Ht, He. reflexivity.
Qed.

Lemma forEach_render_app (l1 l2 : list JsVal) (w : World) :
  forEach_render (l1 ++ l2) w
  = match forEach_render l1 w with
    | (w', Ok _) => forEach_render l2 w'
    | (w', Thrown e) => (w', Thrown e)
    end.
Proof.
  revert w. induction l1 as [|ev l1 IH]; intros w; [reflexivity|].
  cbn [app forEach_render]. destruct (render_item (clock w) ev); [apply IH|reflexivity].
Qed.

Lemma updateRecentEventsDisplay_array
    (w : World) (events : list JsVal) (shown : list EventItem) :
  el_recentEvents (elements w) = Some shown →
  events ≠ [] →
  updateRecentEventsDisplay (VArr events) w
  = match forEach_render events (set_feed [] w) with
    | (w', Ok _) => update_count (VNum (Z.of_nat (length events))) w'
    | (w', Thrown e) => (w', Thrown e)
    end.
Proof.
  intros Hw Hne. unfold updateRecentEventsDisplay. rewrite Hw.
  unfold guarded_replace. cbn [truthy negb get_prop String.eqb Ascii.eqb Bool.eqb].
  unfold eval, mbind, Eff_bind.
  assert (Hlen : truthy (VNum (Z.of_nat (length events))) = true)
    by (destruct events; [congruence|reflexivity]).
  rewrite Hlen. cbn [negb]. unfold replace_feed, lift, mbind, Eff_bind.
  destruct (forEach_render events (set_feed [] w)) as [w' [[]|e]]; reflexivity.
Qed.

(** A successful response with a non-empty array of records that all
    get through the callback replaces the stored events by the array and
    the feed by one item per record, whatever the feed held before, sets
    the recognition counter (when the page has one) to the number of
    records as the engine prints it, and writes nothing to the
    console. *)
Theorem successful_refresh_replaces_feed
    (w : World) (data ok : JsVal) (events : list JsVal) (shown : list EventItem) :
  get_prop data "success" = Ok ok →
  truthy ok = true →
  get_prop data "events" = Ok (VArr events) →
  events ≠ [] →
  Forall (λ ev, renderable ev = true) events →
  el_recentEvents (elements w) = Some shown →
  ∃ items : list EventItem,
    Forall2 (rendered_as (clock w)) events items
    ∧ logs_chain (Response (Some data)) w
      = (match el_recognitionCount (elements w) with
         | Some _ =>
             set_recognitionCount (number_string (Z.of_nat (length events)))
               (set_feed items (set_recentEvents (VArr events) w))
         | None => set_feed items (set_recentEvents (VArr events) w)
         end, Ok tt)
    ∧ st_recentEvents (state (fst (logs_chain (Response (Some data)) w)))
      = VArr events
    ∧ el_recentEvents (elements (fst (logs_chain (Response (Some data)) w)))
      = Some items
    ∧ el_recognitionCount (elements (fst (logs_chain (Response (Some data)) w)))
      = (λ _, number_string (Z.of_nat (length events)))
          <$> el_recognitionCount (elements w)
    ∧ console (fst (logs_chain (Response (Some data)) w)) = console w.
Proof.
  intros Hs Ht He Hne Hall Hw.
  rewrite (logs_chain_success data ok (VArr events) w Hs Ht He).
  rewrite (updateRecentEventsDisplay_array _ events shown) by assumption.
  destruct (forEach_render_items events Hall
              (set_feed [] (set_recentEvents (VArr events) w)) [])
    as (items & Hitems & Hrun); [reflexivity|].
  exists items. rewrite Hrun. unfold update_count. cbn [app].
  split; [exact Hitems|].
  destruct w as [c [vf vs re [rc|]] i st ck h ts nt cl inf iss con];
    cbn; repeat split.
Qed.

(** When the array holds a record the callback cannot get through
    ([null], [undefined], or a record whose date, time or name cannot be
    printed), the records before it are shown and nothing after it: the
    feed is cut short at the bad record, the recognition counter keeps
    its old text, the stored events are the whole array all the same,
    and the [TypeError] is caught and logged. *)
Theorem bad_record_cuts_feed_short
    (w : World) (data ok bad : JsVal) (before after : list JsVal)
    (shown : list EventItem) :
  get_prop data "success" = Ok ok →
  truthy ok = true →
  get_prop data "events" = Ok (VArr (before ++ bad :: after)) →
  Forall (λ ev, renderable ev = true) before →
  renderable bad = false →
  el_recentEvents (elements w) = Some shown →
  ∃ (items : list EventItem) (e : JsError),
    Forall2 (rendered_as (clock w)) before items
    ∧ render_item (clock w) bad = Thrown e
    ∧ logs_chain (Response (Some data)) w
      = (console_push (LogCaught "Error fetching recent events:" e)
           (set_feed items (set_recentEvents (VArr (before ++ bad :: after)) w)),
         Ok tt)
    ∧ st_recentEvents (state (fst (logs_chain (Response (Some data)) w)))
      = VArr (before ++ bad :: after)
    ∧ el_recentEvents (elements (fst (logs_chain (Response (Some data)) w)))
      = Some items
    ∧ el_recognitionCount (elements (fst (logs_chain (Response (Some data)) w)))
      = el_recognitionCount (elements w)
    ∧ console (fst (logs_chain (Response (Some data)) w))
      = console w ++ [LogCaught "Error fetching recent events:" e].
Proof.
  intros Hs Ht He Hall Hbad Hw.
  rewrite (logs_chain_success data ok _ w Hs Ht He).
  rewrite (updateRecentEventsDisplay_array _ _ shown);
    [|exact Hw|destruct before; discriminate].
  rewrite forEach_render_app.
  destruct (forEach_render_items before Hall
              (set_feed [] (set_recentEvents (VArr (before ++ bad :: after)) w)) [])
    as (items & Hitems & Hrun); [reflexivity|].
  rewrite Hrun. cbn [forEach_render app].
  destruct (render_item_throws (clock w) bad Hbad) as [e Hthrow].
  exists items, e. split; [exact Hitems|]. split; [exact Hthrow|].
  destruct w as [c [vf vs re rc] i st ck h ts nt cl inf iss con].
  cbn [clock set_feed set_elements set_recentEvents set_state elements app] in *.
  rewrite Hthrow. cbn. repeat split.
Qed.

(** When [events] is not an array but passes the guard (it is truthy
    and has a truthy [length]: a non-empty string, or an object with a
    [length] property), the feed is emptied before [forEach] is found
    missing: the page ends with an empty feed, the old counter text, the
    value stored as [recentEvents], and the [TypeError] logged. *)
Theorem non_array_events_empty_the_feed
    (w : World) (data ok events len : JsVal) (shown : list EventItem) :
  get_prop data "success" = Ok ok →
  truthy ok = true →
  get_prop data "events" = Ok events →
  (∀ l, events ≠ VArr l) →
  truthy events = true →
  get_prop events "length" = Ok len →
  truthy len = true →
  el_recentEvents (elements w) = Some shown →
  snd (logs_chain (Response (Some data)) w) = Ok tt
  ∧ st_recentEvents (state (fst (logs_chain (Response (Some data)) w))) = events
  ∧ el_recentEvents (elements (fst (logs_chain (Response (Some data)) w))) = Some []
  ∧ el_recognitionCount (elements (fst (logs_chain (Response (Some data)) w)))
    = el_recognitionCount (elements w)
  ∧ console (fst (logs_chain (Response (Some data)) w))
    = console w ++ [LogCaught "Error fetching recent events:"
                              (TypeError "events.forEach is not a function")].
Proof.
  intros Hs Ht He Harr Htr Hlen Hlt Hw.
  rewrite (logs_chain_success data ok events w Hs Ht He).
  unfold updateRecentEventsDisplay. cbn [set_recentEvents set_state elements].
  rewrite Hw. unfold guarded_replace. rewrite Htr. cbn [negb].
  unfold eval, mbind, Eff_bind. rewrite Hlen, Hlt. cbn [negb].
  unfold replace_feed, lift, mbind, Eff_bind.
  destruct events; try (cbn; repeat split; fail).
  exfalso. exact (Harr _ eq_refl).
Qed.

End FeedEdges.

Lemma successful_refresh_replaces_feed_witness :
  let events := [sample_event "2024-01-01" "08:15:00" "J. Doe" "IN";
                 sample_event "2023-12-31" "17:02:10" "A. Roe" "OUT"] in
  let data := VObj [("success", VBool true); ("events", VArr events)] in
  let shown := [mkEventItem "recent-event-item"
                  (item_markup "Today, 08:15:00" "J. Doe" "bg-success" "Clock In")] in
  let w' := fst (logs_chain (DP := sample_dates) (Response (Some data)) sample_world) in
  get_prop data "success" = Ok (VBool true)
  ∧ truthy (VBool true) = true
  ∧ get_prop data "events" = Ok (VArr events)
  ∧ events ≠ []
  ∧ Forall (λ ev, renderable ev = true) events
  ∧ el_recentEvents (elements sample_world) = Some shown
  ∧ ∃ items : list EventItem,
      Forall2 (rendered_as (DP := sample_dates) (clock sample_world)) events items
      ∧ logs_chain (DP := sample_dates) (Response (Some data)) sample_world
        = (match el_recognitionCount (elements sample_world) with
           | Some _ =>
               set_recognitionCount (number_string (Z.of_nat (length events)))
                 (set_feed items (set_recentEvents (VArr events) sample_world))
           | None => set_feed items (set_recentEvents (VArr events) sample_world)
           end, Ok tt)
      ∧ st_recentEvents (state w') = VArr events
      ∧ el_recentEvents (elements w') = Some items
      ∧ el_recognitionCount (elements w')
        = (λ _, number_string (Z.of_nat (length events)))
            <$> el_recognitionCount (elements sample_world)
      ∧ console w' = console sample_world.
Proof.
  intros events data shown w'.
  assert (Hne : events ≠ []) by discriminate.
  assert (Hall : Forall (λ ev, renderable ev = true) events) by (repeat constructor).
  assert (Hw : el_recentEvents (elements sample_world) = Some shown)
    by (vm_compute; reflexivity).
  split; [reflexivity|]. split; [reflexivity|]. split; [reflexivity|].
  split; [exact Hne|]. split; [exact Hall|]. split; [exact Hw|].
  exact (successful_refresh_replaces_feed (DP := sample_dates) sample_world data
           (VBool true) events shown eq_refl eq_refl eq_refl Hne Hall Hw).
Defined.

Lemma bad_record_cuts_feed_short_witness :
  let before := [sample_event "2024-01-01" "08:15:00" "J. Doe" "IN"] in
  let bad := VObj [("Name", VObj [("toString", VNum 1)]); ("Date", VStr "2024-01-01");
                   ("Time", VStr "08:16:00"); ("Event", VStr "IN")] in
  let after := [sample_event "2023-12-31" "17:02:10" "A. Roe" "OUT"] in
  let data := VObj [("success", VBool true);
                    ("events", VArr (before ++ bad :: after))] in
  let shown := [mkEventItem "recent-event-item"
                  (item_markup "Today, 08:15:00" "J. Doe" "bg-success" "Clock In")] in
  let w' := fst (logs_chain (DP := sample_dates) (Response (Some data)) sample_world) in
  get_prop data "success" = Ok (VBool true)
  ∧ truthy (VBool true) = true
  ∧ get_prop data "events" = Ok (VArr (before ++ bad :: after))
  ∧ Forall (λ ev, renderable ev = true) before
  ∧ renderable bad = false
  ∧ el_recentEvents (elements sample_world) = Some shown
  ∧ ∃ (items : list EventItem) (e : JsError),
      Forall2 (rendered_as (DP := sample_dates) (clock sample_world)) before items
      ∧ render_item (DP := sample_dates) (clock sample_world) bad = Thrown e
      ∧ logs_chain (DP := sample_dates) (Response (Some data)) sample_world
        = (console_push (LogCaught "Error fetching recent events:" e)
             (set_feed items
                (set_recentEvents (VArr (before ++ bad :: after)) sample_world)),
           Ok tt)
      ∧ st_recentEvents (state w') = VArr (before ++ bad :: after)
      ∧ el_recentEvents (elements w') = Some items
      ∧ el_recognitionCount (elements w') = el_recognitionCount (elements sample_world)
      ∧ console w'
        = console sample_world ++ [LogCaught "Error fetching recent events:" e].
Proof.
  intros before bad after data shown w'.
  assert (Hall : Forall (λ ev, renderable ev = true) before) by (repeat constructor).
  assert (Hbad : renderable bad = false) by reflexivity.
  assert (Hw : el_recentEvents (elements sample_world) = Some shown)
    by (vm_compute; reflexivity).
  split; [reflexivity|]. split; [reflexivity|]. split; [reflexivity|].
  split; [exact Hall|]. split; [exact Hbad|]. split; [exact Hw|].
  exact (bad_record_cuts_feed_short (DP := sample_dates) sample_world data
           (VBool true) bad before after shown eq_refl eq_refl eq_refl Hall Hbad Hw).
Defined.

Lemma non_array_events_empty_the_feed_witness :
  let data := VObj [("success", VBool true); ("events", VStr "none")] in
  let w' := fst (logs_chain (DP := sample_dates) (Response (Some data)) sample_world) in
  snd (logs_chain (DP := sample_dates) (Response (Some data)) sample_world) = Ok tt
  ∧ st_recentEvents (state w') = VStr "none"
  ∧ el_recentEvents (elements w') = Some []
  ∧ el_recognitionCount (elements w') = el_recognitionCount (elements sample_world)
  ∧ console w'
    = console sample_world
      ++ [LogCaught "Error fetching recent events:"
                    (TypeError "events.forEach is not a function")].
Proof.
  intros data w'.
  refine (non_array_events_empty_the_feed (DP := sample_dates) sample_world data
            (VBool true) (VStr "none") (VNum 4)
            [mkEventItem "recent-event-item"
               (item_markup "Today, 08:15:00" "J. Doe" "bg-success" "Clock In")]
            eq_refl eq_refl eq_refl _ eq_refl eq_refl eq_refl _).
  - discriminate.
  - vm_compute. reflexivity.
Defined.

(** ** The stream URL and the shape of the page *)

Lemma before_query_of_reload (s r : string) :
  before_query (before_query s +:+ String "?" r) = before_query s.
Proof.
  induction s as [|c s IH]; [reflexivity|].
  cbn [before_query]. destruct (Ascii.eqb c "?") eqn:E; [reflexivity|].
  change (String c (before_query s) +:+ String "?" r)
    with (String c (before_query s +:+ String "?" r)).
  cbn [before_query]. rewrite E, IH. reflexivity.
Qed.

Lemma before_query_of_token (s x : string) :
  before_query (before_query s +:+ "?t=" +:+ x) = before_query s.
Proof. exact (before_query_of_reload s ("t=" +:+ x)). Qed.

(** A reconnect attempt sets the stream's [src] to its old URL cut at
    the first question mark, followed by [?t=] and the clock reading: the
    token of the previous attempt is replaced, not added to, so the part
    before the query is the same after any number of attempts. *)
Theorem reload_replaces_the_token (w : World) (s : nat) (a : Z) (src : string) :
  closures w !! s = Some a →
  a < reconnectAttempts (cfg w) →
  el_videoFeed (elements w) = Some src →
  el_videoFeed (elements (tryReconnect s w))
  = Some (before_query src +:+ "?t=" +:+ pretty (clock w))
  ∧ before_query (before_query src +:+ "?t=" +:+ pretty (clock w))
    = before_query src.
Proof.
  intros Hs Ha Hv. split; [|apply before_query_of_reload].
  unfold tryReconnect. rewrite Hs.
  destruct (Z.geb_spec a (reconnectAttempts (cfg w))) as [Hge|_]; [lia|].
  destruct w as [c [vf vs re rc] i st ck h ts nt cl inf iss con].
  cbn in Hv. subst vf. destruct vs; reflexivity.
Qed.

Lemma reload_replaces_the_token_witness :
  let w := sample_after [EvVideoError; EvAdvance 2000] in
  closures w !! 0%nat = Some 1
  ∧ el_videoFeed (elements w) = Some "/video_feed?t=0"
  ∧ el_videoFeed (elements (tryReconnect 0 w))
    = Some (before_query "/video_feed?t=0" +:+ "?t=" +:+ pretty (clock w))
  ∧ before_query (before_query "/video_feed?t=0" +:+ "?t=" +:+ pretty (clock w))
    = before_query "/video_feed?t=0".
Proof.
  intros w.
  assert (Hs : closures w !! 0%nat = Some 1) by (vm_compute; reflexivity).
  assert (Ha : 1 < reconnectAttempts (cfg w)) by (vm_compute; reflexivity).
  assert (Hv : el_videoFeed (elements w) = Some "/video_feed?t=0")
    by (vm_compute; reflexivity).
  split; [exact Hs|]. split; [exact Hv|].
  exact (reload_replaces_the_token w 0%nat 1 "/video_feed?t=0" Hs Ha Hv).
Defined.

Lemma updateCameraStatus_shape (b : bool) (w : World) :
  page_shape (updateCameraStatus b w) = page_shape w.
Proof.
  unfold updateCameraStatus.
  destruct (camera (indicators w)) eqn:E; [destruct b|]; unfold page_shape; cbn;
    rewrite ?E; reflexivity.
Qed.

Lemma updateSystemStatus_shape (v : JsVal) (w : World) :
  page_shape (updateSystemStatus v w) = page_shape w.
Proof.
  unfold updateSystemStatus. destruct (system (indicators w)) eqn:E; [|reflexivity].
  repeat (match goal with |- context [if ?b then _ else _] => destruct b end);
    unfold page_shape; cbn; rewrite ?E; reflexivity.
Qed.

Lemma updateNetworkStatus_shape (v : JsVal) (w : World) :
  page_shape (updateNetworkStatus v w) = page_shape w.
Proof.
  unfold updateNetworkStatus.
  destruct (network (indicators w)) eqn:E; [destruct (truthy v)|];
    unfold page_shape; cbn; rewrite ?E; reflexivity.
Qed.

Lemma tryReconnect_shape (s : nat) (w : World) :
  page_shape (tryReconnect s w) = page_shape w.
Proof.
  unfold tryReconnect. destruct (closures w !! s); [|reflexivity].
  destruct (_ >=? _); [reflexivity|].
  destruct w as [c [vf vs re rc] i st ck h ts nt cl inf iss con].
  destruct vf as [src|], vs; unfold page_shape; cbn;
    rewrite ?(before_query_of_token src); reflexivity.
Qed.

Lemma tryReconnect_requests (s : nat) (w : World) :
  issued (tryReconnect s w) = issued w
  ∧ el_recentEvents (elements (tryReconnect s w)) = el_recentEvents (elements w).
Proof.
  unfold tryReconnect. destruct (closures w !! s); [|split; reflexivity].
  destruct (_ >=? _); [split; reflexivity|].
  destruct w as [c [vf vs re rc] i st ck h ts nt cl inf iss con].
  destruct vf, vs; split; reflexivity.
Qed.

Section Shape.
Context {DP : DatePlatform}.

Lemma settle_shape (c : Channel) (o : FetchOutcome) (w : World) :
  page_shape (fst (settle c o w)) = page_shape w.
Proof.
  destruct c; cbn [settle].
  - apply (status_chain_keeps_obs page_shape o).
    + intros e w0. reflexivity.
    + apply updateSystemStatus_shape.
    + apply updateNetworkStatus_shape.
  - apply (logs_chain_keeps_obs page_shape o).
    + intros e w0. reflexivity.
    + intros v w0. reflexivity.
    + intros l w0 [x Hx]. unfold page_shape. cbn. rewrite Hx. reflexivity.
    + intros x w0. unfold appendChild.
      destruct (el_recentEvents (elements w0)) eqn:E; [|reflexivity].
      unfold page_shape. cbn. rewrite E. reflexivity.
    + intros x w0 [y Hy]. unfold page_shape. cbn. rewrite Hy. reflexivity.
Qed.

Lemma checkStatus_shape (w : World) : page_shape (checkStatus w) = page_shape w.
Proof.
  unfold checkStatus.
  rewrite <- (updateCameraStatus_shape (st_cameraConnected (state w)) w).
  reflexivity.
Qed.

Lemma refreshRecentEvents_shape (w : World) :
  page_shape (refreshRecentEvents w) = page_shape w.
Proof.
  unfold refreshRecentEvents. destruct (el_recentEvents (elements w)); reflexivity.
Qed.

Lemma step_shape (e : Event) (w w' : World) :
  step e w = Some w' → page_shape w' = page_shape w.
Proof.
  destruct e as [| |h|dt|id|i o]; cbn [step].
  - intros [= <-]. unfold handleVideoError, attemptReconnect.
    rewrite tryReconnect_shape.
    change (page_shape (set_closures _ ?x)) with (page_shape x).
    rewrite updateCameraStatus_shape. reflexivity.
  - intros [= <-]. unfold handleVideoLoad.
    rewrite updateCameraStatus_shape. reflexivity.
  - destruct (Bool.eqb h (hidden w)); [discriminate|]. intros [= <-].
    unfold handleVisibilityChange. cbn [hidden set_hidden].
    destruct (negb h); [|reflexivity].
    rewrite checkStatus_shape, refreshRecentEvents_shape. reflexivity.
  - destruct (0 <=? dt); [|discriminate]. intros [= <-]. reflexivity.
  - destruct (timers w !! id) as [t|]; [|discriminate]. cbn.
    destruct (due t <=? clock w); [|discriminate]. intros [= <-].
    unfold fire. destruct (kind t) as [s| |].
    + unfold reconnectTimerExpired. cbn [state set_timers].
      destruct (negb (st_cameraConnected (state w))); [|reflexivity].
      rewrite tryReconnect_shape. reflexivity.
    + rewrite refreshRecentEvents_shape. reflexivity.
    + rewrite checkStatus_shape. reflexivity.
  - destruct (inflight w !! i) as [c|]; [|discriminate]. cbn. intros [= <-].
    rewrite settle_shape. reflexivity.
Qed.

(** Along every run the page keeps its shape: the dashboard never adds
    or drops one of the elements or indicators it works with, and the
    stream's URL keeps the part before its query, however many reconnect
    attempts rewrite the [src]. *)
Theorem page_shape_is_invariant (es : list Event) (w w' : World) :
  run es w = Some w' → page_shape w' = page_shape w.
Proof.
  revert w. induction es as [|ev es IH]; intros w; cbn [run].
  - intros [= <-]. reflexivity.
  - destruct (step ev w) as [w1|] eqn:Hs; [|discriminate]. cbn.
    intros Hrun. rewrite (IH w1 Hrun). exact (step_shape ev w w1 Hs).
Qed.

(** The requests one turn of the loop starts: status requests, and
    events requests only on a page that has the recent-events
    container. *)
Lemma step_requests (e : Event) (w w' : World) :
  step e w = Some w' →
  ∃ new : list Channel,
    issued w' = issued w ++ new
    ∧ (el_recentEvents (elements w) = None → Forall (λ c, c = StatusCh) new).
Proof.
  destruct e as [| |h|dt|id|i o]; cbn [step].
  - intros [= <-]. exists []. rewrite app_nil_r. split; [|constructor].
    unfold handleVideoError, attemptReconnect.
    rewrite (proj1 (tryReconnect_requests _ _)). cbn [issued set_closures].
    rewrite (proj1 (proj2 (updateCameraStatus_frame _ _))). reflexivity.
  - intros [= <-]. exists []. rewrite app_nil_r. split; [|constructor].
    unfold handleVideoLoad.
    rewrite (proj1 (proj2 (updateCameraStatus_frame _ _))). reflexivity.
  - destruct (Bool.eqb h (hidden w)); [discriminate|]. intros [= <-].
    unfold handleVisibilityChange. cbn [hidden set_hidden].
    destruct (negb h); [|exists []; rewrite app_nil_r; split; [reflexivity|constructor]].
    rewrite (proj1 (proj2 (checkStatus_requests _))).
    unfold refreshRecentEvents. cbn [elements set_hidden].
    destruct (el_recentEvents (elements w)).
    + exists [EventsCh; StatusCh]. cbn. rewrite <- app_assoc. split; [reflexivity|].
      discriminate.
    + exists [StatusCh]. split; [reflexivity|]. repeat constructor.
  - destruct (0 <=? dt); [|discriminate]. intros [= <-].
    exists []. rewrite app_nil_r. split; [reflexivity|constructor].
  - destruct (timers w !! id) as [t|]; [|discriminate]. cbn.
    destruct (due t <=? clock w); [|discriminate]. intros [= <-].
    unfold fire. destruct (kind t) as [s| |].
    + exists []. rewrite app_nil_r. split; [|constructor].
      unfold reconnectTimerExpired. cbn [state set_timers].
      destruct (negb (st_cameraConnected (state w))); [|reflexivity].
      rewrite (proj1 (tryReconnect_requests _ _)). reflexivity.
    + unfold refreshRecentEvents. cbn [elements set_timers].
      destruct (el_recentEvents (elements w)).
      * exists [EventsCh]. split; [reflexivity|discriminate].
      * exists []. rewrite app_nil_r. split; [reflexivity|constructor].
    + rewrite (proj1 (proj2 (checkStatus_requests _))).
      exists [StatusCh]. split; [reflexivity|]. repeat constructor.
  - destruct (inflight w !! i) as [c|]; [|discriminate]. cbn. intros [= <-].
    exists []. rewrite app_nil_r. split; [|constructor].
    pose proof (settle_browser c o (set_inflight (delete i) w)) as Hb.
    unfold browser_of in Hb. injection Hb as _ _ _ _ _ _ _ Hi. exact Hi.
Qed.

(** On a page without the recent-events container
    [refreshRecentEvents] never sends its request: along every run of
    the loop from [init] (not at start-up, not on a tick of the refresh
    interval, not when the page becomes visible again) nothing is
    issued on the events channel, so every request issued is a status
    check.  What [DataManager.refreshLogsData] fetches after a tab
    change is outside the loop and not covered. *)
Theorem no_feed_no_refresh_request
    (c : Config) (e : Elements) (i : Indicators) (now : Z)
    (es : list Event) (w : World) :
  el_recentEvents e = None →
  run es (init (page c e i now)) = Some w →
  (EventsCh ∉ issued w) ∧ Forall (λ x, x = StatusCh) (issued w).
Proof.
  intros He Hrun.
  assert (H0 : Forall (λ x, x = StatusCh) (issued (init (page c e i now)))
               ∧ el_recentEvents (elements (init (page c e i now))) = None).
  { unfold init, startRefreshTimers, checkStatus, updateCameraStatus, page. cbn.
    destruct (camera i); cbn; split; try exact He; repeat constructor. }
  assert (Hw : Forall (λ x, x = StatusCh) (issued w)).
  { revert Hrun H0. generalize (init (page c e i now)).
    induction es as [|ev es IH]; intros w0; cbn [run].
    - intros [= <-] [H0 _]. exact H0.
    - destruct (step ev w0) as [w1|] eqn:Hs; [|discriminate]. cbn.
      intros Hrun [H0 H1]. apply (IH w1 Hrun).
      destruct (step_requests ev w0 w1 Hs) as (new & Hi & Hnew).
      split.
      + rewrite Hi. apply Forall_app. split; [exact H0|exact (Hnew H1)].
      + pose proof (step_shape ev w0 w1 Hs) as Hsh. unfold page_shape in Hsh.
        injection Hsh as _ _ Hp _ _ _ _. rewrite H1 in Hp.
        destruct (el_recentEvents (elements w1)); [discriminate|reflexivity]. }
  split; [|exact Hw].
  intros Hin. rewrite Forall_forall in Hw. specialize (Hw _ Hin). discriminate.
Qed.

End Shape.

Lemma page_shape_is_invariant_witness :
  run (DP := sample_dates) one_error_then_timeouts sample_world
  = Some (sample_after one_error_then_timeouts)
  ∧ page_shape (sample_after one_error_then_timeouts) = page_shape sample_world.
Proof.
  assert (Hrun : run (DP := sample_dates) one_error_then_timeouts sample_world
                 = Some (sample_after one_error_then_timeouts))
    by (vm_compute; reflexivity).
  split; [exact Hrun|].
  exact (page_shape_is_invariant (DP := sample_dates) one_error_then_timeouts
           sample_world _ Hrun).
Defined.

Lemma no_feed_no_refresh_request_witness :
  let es := [EvAdvance 30000; EvTimer 0; EvVisibility true; EvVisibility false] in
  let w0 := init (page config bare_elements sample_indicators 0) in
  el_recentEvents bare_elements = None
  ∧ run (DP := sample_dates) es w0
    = Some (default w0 (run (DP := sample_dates) es w0))
  ∧ (EventsCh ∉ issued (default w0 (run (DP := sample_dates) es w0)))
  ∧ Forall (λ x, x = StatusCh) (issued (default w0 (run (DP := sample_dates) es w0))).
Proof.
  intros es w0.
  assert (Hrun : run (DP := sample_dates) es w0
                 = Some (default w0 (run (DP := sample_dates) es w0)))
    by (vm_compute; reflexivity).
  split; [reflexivity|]. split; [exact Hrun|].
  exact (no_feed_no_refresh_request (DP := sample_dates) config bare_elements
           sample_indicators 0 es _ eq_refl Hrun).
Defined.

(** ** CSV export *)

Lemma has_char_app (c : ascii) (a b : string) :
  has_char c (a +:+ b) = has_char c a || has_char c b.
Proof.
  induction a as [|x a IH]; [reflexivity|].
  change (String x a +:+ b) with (String x (a +:+ b)).
  cbn [has_char]. destruct (Ascii.eqb x c); [reflexivity|exact IH].
Qed.

Lemma has_char_join (c : ascii) (sep : string) (l : list string) :
  has_char c sep = false →
  Forall (λ s, has_char c s = false) l →
  has_char c (join sep l) = false.
Proof.
  intros Hsep. induction 1 as [|s l Hs Hl IH]; [reflexivity|].
  destruct l as [|s2 l]; [exact Hs|].
  change (join sep (s :: s2 :: l)) with (s +:+ sep +:+ join sep (s2 :: l)).
  rewrite !has_char_app, Hs, Hsep, IH. reflexivity.
Qed.

Lemma split_on_plain (c : ascii) (s : string) :
  has_char c s = false → split_on c s = [s].
Proof.
  induction s as [|a s IH]; [reflexivity|]. cbn [has_char split_on].
  destruct (Ascii.eqb a c); [discriminate|]. intros Hs. rewrite (IH Hs). reflexivity.
Qed.

Lemma split_on_app (c : ascii) (s r : string) :
  has_char c s = false →
  split_on c (s +:+ String c r) = s :: split_on c r.
Proof.
  induction s as [|a s IH].
  - intros _. change (EmptyString +:+ String c r) with (String c r).
    cbn [split_on]. rewrite Ascii.eqb_refl. reflexivity.
  - change (String a s +:+ String c r) with (String a (s +:+ String c r)).
    cbn [has_char split_on].
    destruct (Ascii.eqb a c); [discriminate|]. intros Hs. rewrite (IH Hs). reflexivity.
Qed.

(** Joining strings that are free of the separator and splitting the
    result gives the strings back. *)
Lemma split_on_join (c : ascii) (l : list string) :
  l ≠ [] →
  Forall (λ s, has_char c s = false) l →
  split_on c (join (String c EmptyString) l) = l.
Proof.
  intros Hne Hl. induction Hl as [|s l Hs Hl IH]; [congruence|].
  destruct l as [|s2 l]; [apply split_on_plain, Hs|].
  change (join (String c EmptyString) (s :: s2 :: l))
    with (s +:+ String c (join (String c EmptyString) (s2 :: l))).
  rewrite (split_on_app c s _ Hs), IH by discriminate. reflexivity.
Qed.



(** Cells are written as they are, without quoting: a cell that holds a
    comma is exported exactly like two cells, and a row without cells
    exactly like a row with one empty cell.  Different tables can so give
    the same file. *)
Example export_does_not_quote
    (header : list string) (a b : string) (rows : list (list string))
    (filename : JsVal) :
  exportToCSV (Some (mkTable header ([a +:+ "," +:+ b] :: rows))) filename
  = exportToCSV (Some (mkTable header ([a; b] :: rows))) filename
  ∧ exportToCSV (Some (mkTable header ([] :: rows))) filename
    = exportToCSV (Some (mkTable header ([""] :: rows))) filename.
Proof. split; reflexivity. Qed.


(** ** Image preview *)

Lemma prefix_spec (pat s : string) :
  String.prefix pat s = true ↔ ∃ b : string, s = pat +:+ b.
Proof.
  revert s. induction pat as [|c pat IH]; intros s.
  - split; [intros _; exists s; reflexivity|]. intros _. destruct s; reflexivity.
  - destruct s as [|c' s]; cbn [String.prefix].
    + split; [discriminate|]. intros [b Hb]. discriminate.
    + destruct (ascii_dec c c') as [->|Hne].
      * rewrite IH. split; intros [b Hb]; exists b.
        -- rewrite Hb. reflexivity.
        -- change (String c' pat +:+ b) with (String c' (pat +:+ b)) in Hb.
           congruence.
      * split; [discriminate|]. intros [b Hb].
        change (String c pat +:+ b) with (String c (pat +:+ b)) in Hb. congruence.
Qed.

(** [contains pat s] holds exactly when [pat] occurs somewhere in [s]. *)
Lemma contains_spec (pat s : string) :
  contains pat s = true ↔ ∃ a b : string, s = a +:+ pat +:+ b.
Proof.
  split.
  - induction s as [|c s IH]; cbn [contains].
    + destruct (String.prefix pat "") eqn:E; [|discriminate].
      intros _. apply prefix_spec in E. destruct E as [b Hb]. exists "", b. exact Hb.
    + destruct (String.prefix pat (String c s)) eqn:E.
      * intros _. apply prefix_spec in E. destruct E as [b Hb]. exists "", b. exact Hb.
      * intros H. destruct (IH H) as (a & b & ->). exists (String c a), b. reflexivity.
  - intros (a & b & ->). induction a as [|c a IH].
    + change ("" +:+ pat +:+ b) with (pat +:+ b).
      assert (E : String.prefix pat (pat +:+ b) = true) by (apply prefix_spec; eauto).
      destruct (pat +:+ b); cbn [contains]; rewrite E; reflexivity.
    + change (String c a +:+ pat +:+ b) with (String c (a +:+ pat +:+ b)).
      cbn [contains]. rewrite IH. destruct (String.prefix _ _); reflexivity.
Qed.

(** Pending reads and shown previews together are conserved by every
    completed read. *)
Lemma loads_conserve (order : list nat) (p p' : PreviewPage) (shown : list ImagePreview) :
  previewContainer p = Some shown →
  loads order p = Some p' →
  ∃ shown' : list ImagePreview,
    previewContainer p' = Some shown'
    ∧ shown' ++ (preview_of <$> reading p') ≡ₚ shown ++ (preview_of <$> reading p).
Proof.
  revert p shown. induction order as [|i order IH]; intros p shown Hp; cbn [loads].
  - intros [= <-]. exists shown. split; [exact Hp|reflexivity].
  - unfold reader_onload at 1. destruct (reading p !! i) as [f|] eqn:Hi; [|discriminate].
    cbn. rewrite Hp. cbn. intros Hrest.
    destruct (IH (mkPreviewPage (Some (shown ++ [preview_of f]))
                                (delete i (reading p)))
                 (shown ++ [preview_of f]) eq_refl Hrest) as (shown' & Hs' & Hperm).
    exists shown'. split; [exact Hs'|]. rewrite Hperm. cbn [reading].
    rewrite (delete_Permutation (reading p) i f Hi) at 2.
    rewrite fmap_cons, <- app_assoc. reflexivity.
Qed.

(** After a file selection on a page with the preview container, once
    every read has finished (in whatever order), the container shows
    exactly one preview per file whose type contains the text [image]
    anywhere, be it [image/png] or not, together with the previews of an
    earlier selection that were still being read; what the container
    showed before is gone. *)
Theorem preview_shows_the_image_files
    (files : list File) (p p' : PreviewPage) (shown : list ImagePreview)
    (order : list nat) :
  previewContainer p = Some shown →
  loads order (handleFileSelection files p) = Some p' →
  reading p' = [] →
  ∃ previews : list ImagePreview,
    previewContainer p' = Some previews
    ∧ previews ≡ₚ preview_of <$> (reading p ++ List.filter is_image files)
    ∧ ∀ f : File,
        f ∈ files →
        (f ∈ List.filter is_image files
         ↔ ∃ a b : string, file_type f = a +:+ "image" +:+ b).
Proof.
  intros Hp Hloads Hdone. unfold handleFileSelection in Hloads. rewrite Hp in Hloads.
  destruct (loads_conserve order
              (mkPreviewPage (Some []) (reading p ++ List.filter is_image files))
              p' [] eq_refl Hloads) as (previews & Hs & Hperm).
  exists previews. split; [exact Hs|]. split.
  - rewrite Hdone in Hperm. cbn in Hperm. rewrite app_nil_r in Hperm. exact Hperm.
  - intros f Hf. rewrite list_elem_of_In, filter_In, <- list_elem_of_In.
    unfold is_image. rewrite contains_spec. tauto.
Qed.

Lemma preview_shows_the_image_files_witness :
  let files := [mkFile "a.png" "image/png" "data:a";
                mkFile "notes.txt" "text/plain" "data:n";
                mkFile "b.svg" "application/x-image" "data:b"] in
  let p := mkPreviewPage (Some [mkPreview "data:old" "old.png"]) [] in
  let p' := mkPreviewPage (Some [mkPreview "data:b" "b.svg"; mkPreview "data:a" "a.png"])
                          [] in
  loads [1%nat; 0%nat] (handleFileSelection files p) = Some p'
  ∧ ∃ previews : list ImagePreview,
      previewContainer p' = Some previews
      ∧ previews ≡ₚ preview_of <$> (reading p ++ List.filter is_image files)
      ∧ ∀ f : File,
          f ∈ files →
          (f ∈ List.filter is_image files
           ↔ ∃ a b : string, file_type f = a +:+ "image" +:+ b).
Proof.
  intros files p p'.
  assert (Hl : loads [1%nat; 0%nat] (handleFileSelection files p) = Some p')
    by (vm_compute; reflexivity).
  split; [exact Hl|].
  exact (preview_shows_the_image_files files p p' _ [1%nat; 0%nat]
           eq_refl Hl eq_refl).
Defined.

(** ** The camera flag and its indicator *)

Lemma updateCameraStatus_view (b : bool) (w : World) :
  st_cameraConnected (state (updateCameraStatus b w)) = st_cameraConnected (state w)
  ∧ el_videoFeed (elements (updateCameraStatus b w)) = el_videoFeed (elements w)
  ∧ closures (updateCameraStatus b w) = closures w.
Proof.
  unfold updateCameraStatus.
  destruct (camera (indicators w)); [destruct b|]; repeat split.
Qed.

Lemma updateCameraStatus_sync (b : bool) (w : World) (ind : Indicator) :
  camera (indicators (updateCameraStatus b w)) = Some ind →
  ("status-online" ∈ classList ind ↔ b = true)
  ∧ ("status-offline" ∈ classList ind ↔ b = false).
Proof.
  unfold updateCameraStatus. destruct (camera (indicators w)) as [old|] eqn:E.
  - destruct b; cbn; intros [= <-]; cbn [classList].
    + destruct (classList_swap_spec "status-online" "status-offline" (classList old))
        as (Hin & Hout & _); [discriminate|].
      split; [tauto|]. split; [contradiction|discriminate].
    + destruct (classList_swap_spec "status-offline" "status-online" (classList old))
        as (Hin & Hout & _); [discriminate|].
      split; [|tauto]. split; [contradiction|discriminate].
  - rewrite E. discriminate.
Qed.

Lemma checkStatus_view (w : World) :
  st_cameraConnected (state (checkStatus w)) = st_cameraConnected (state w)
  ∧ camera (indicators (checkStatus w))
    = camera (indicators (updateCameraStatus (st_cameraConnected (state w)) w))
  ∧ el_videoFeed (elements (checkStatus w)) = el_videoFeed (elements w)
  ∧ closures (checkStatus w) = closures w.
Proof.
  unfold checkStatus.
  destruct (updateCameraStatus_view (st_cameraConnected (state w)) w) as (H1 & H2 & H3).
  repeat split; cbn; assumption.
Qed.

Lemma tryReconnect_view (s : nat) (w : World) :
  st_cameraConnected (state (tryReconnect s w)) = st_cameraConnected (state w)
  ∧ camera (indicators (tryReconnect s w)) = camera (indicators w).
Proof.
  unfold tryReconnect. destruct (closures w !! s); [|split; reflexivity].
  destruct (_ >=? _); [split; reflexivity|].
  destruct w as [c [vf vs re rc] i st ck h ts nt cl inf iss con].
  destruct vf, vs; split; reflexivity.
Qed.

Section Camera.
Context {DP : DatePlatform}.

Lemma settle_stream_view (c : Channel) (o : FetchOutcome) (w : World) :
  stream_view (fst (settle c o w)) = stream_view w.
Proof.
  destruct c; cbn [settle].
  - apply (status_chain_keeps_obs stream_view o).
    + intros e w0. reflexivity.
    + intros v w0. unfold updateSystemStatus.
      destruct (system (indicators w0)); [|reflexivity].
      repeat (match goal with |- context [if ?b then _ else _] => destruct b end);
        reflexivity.
    + intros v w0. unfold updateNetworkStatus.
      destruct (network (indicators w0)); [destruct (truthy v)|]; reflexivity.
  - apply (logs_chain_keeps_obs stream_view o).
    + intros e w0. reflexivity.
    + intros v w0. reflexivity.
    + intros l w0 _. reflexivity.
    + intros x w0. unfold appendChild.
      destruct (el_recentEvents (elements w0)); reflexivity.
    + intros x w0 _. reflexivity.
Qed.

Lemma step_camera_in_sync (e : Event) (w w' : World) :
  camera_in_sync w → step e w = Some w' → camera_in_sync w'.
Proof.
  intros Hw. destruct e as [| |h|dt|id|i o]; cbn [step].
  - intros [= <-] ind. unfold handleVideoError, attemptReconnect.
    destruct (tryReconnect_view (length (closures (updateCameraStatus false
               (set_cameraConnected false
                  (console_push (LogError "Video feed error:") w)))))
               (set_closures (λ l, l ++ [0])
                  (updateCameraStatus false
                     (set_cameraConnected false
                        (console_push (LogError "Video feed error:") w)))))
      as [Hst Hcam].
    rewrite Hst, Hcam. cbn [state indicators set_closures].
    rewrite (proj1 (updateCameraStatus_view _ _)). cbn.
    apply updateCameraStatus_sync.
  - intros [= <-] ind. unfold handleVideoLoad.
    rewrite (proj1 (updateCameraStatus_view _ _)). cbn.
    apply updateCameraStatus_sync.
  - destruct (Bool.eqb h (hidden w)); [discriminate|]. intros [= <-].
    unfold handleVisibilityChange. cbn [hidden set_hidden].
    destruct (negb h); [|exact Hw].
    intros ind. destruct (checkStatus_view (refreshRecentEvents (set_hidden h w)))
      as (Hst & Hcam & _).
    rewrite Hst, Hcam. apply updateCameraStatus_sync.
  - destruct (0 <=? dt); [|discriminate]. intros [= <-]. exact Hw.
  - destruct (timers w !! id) as [t|]; [|discriminate]. cbn.
    destruct (due t <=? clock w); [|discriminate]. intros [= <-].
    unfold fire. destruct (kind t) as [s| |].
    + unfold reconnectTimerExpired. cbn [state set_timers].
      destruct (negb (st_cameraConnected (state w))); [|exact Hw].
      intros ind. destruct (tryReconnect_view s (set_timers (delete id) w)) as [Hst Hcam].
      rewrite Hst, Hcam. apply Hw.
    + unfold refreshRecentEvents. cbn [elements set_timers].
      destruct (el_recentEvents (elements w)); exact Hw.
    + intros ind.
      match goal with |- context [checkStatus ?x] =>
        destruct (checkStatus_view x) as (Hst & Hcam & _) end.
      rewrite Hst, Hcam. apply updateCameraStatus_sync.
  - destruct (inflight w !! i) as [c|]; [|discriminate]. cbn. intros [= <-].
    pose proof (settle_stream_view c o (set_inflight (delete i) w)) as Hv.
    unfold stream_view in Hv. injection Hv as Hst Hcam _ _.
    intros ind. rewrite Hst, Hcam. apply Hw.
Qed.

(** Along every run from a freshly initialised page, the camera
    indicator agrees with the camera flag: it carries [status-online]
    exactly when the stream is taken to be connected and
    [status-offline] exactly when it is not, whatever status responses
    arrive in between. *)
Theorem camera_indicator_follows_flag
    (c : Config) (e : Elements) (i : Indicators) (now : Z)
    (es : list Event) (w : World) (ind : Indicator) :
  run es (init (page c e i now)) = Some w →
  camera (indicators w) = Some ind →
  ("status-online" ∈ classList ind ↔ st_cameraConnected (state w) = true)
  ∧ ("status-offline" ∈ classList ind ↔ st_cameraConnected (state w) = false).
Proof.
  intros Hrun. revert ind. change (camera_in_sync w).
  assert (H0 : camera_in_sync (init (page c e i now))).
  { intros ind. unfold init, startRefreshTimers.
    cbn [indicators state console_push arm set_nextTimer set_timers].
    match goal with |- context [checkStatus ?x] =>
      destruct (checkStatus_view x) as (Hst & Hcam & _) end.
    rewrite Hst, Hcam. apply updateCameraStatus_sync. }
  revert Hrun H0. generalize (init (page c e i now)).
  induction es as [|ev es IH]; intros w0; cbn [run].
  - intros [= <-] H0. exact H0.
  - destruct (step ev w0) as [w1|] eqn:Hs; [|discriminate]. cbn.
    intros Hrun H0. exact (IH w1 Hrun (step_camera_in_sync ev w0 w1 H0 Hs)).
Qed.

Lemma step_connected_quiet (e : Event) (w w' : World) :
  e ≠ EvVideoError →
  st_cameraConnected (state w) = true →
  step e w = Some w' →
  st_cameraConnected (state w') = true
  ∧ closures w' = closures w
  ∧ el_videoFeed (elements w') = el_videoFeed (elements w).
Proof.
  intros Hne Hc. destruct e as [| |h|dt|id|i o]; cbn [step]; [congruence| | | | |].
  - intros [= <-]. unfold handleVideoLoad.
    destruct (updateCameraStatus_view true
                (set_cameraConnected true
                   (console_push (LogInfo "Video feed loaded successfully") w)))
      as (H1 & H2 & H3).
    rewrite H1, H2, H3. repeat split.
  - destruct (Bool.eqb h (hidden w)); [discriminate|]. intros [= <-].
    unfold handleVisibilityChange. cbn [hidden set_hidden].
    destruct (negb h); [|repeat split; exact Hc].
    destruct (checkStatus_view (refreshRecentEvents (set_hidden h w)))
      as (H1 & _ & H2 & H3).
    rewrite H1, H2, H3. unfold refreshRecentEvents. cbn [elements set_hidden].
    destruct (el_recentEvents (elements w)); repeat split; exact Hc.
  - destruct (0 <=? dt); [|discriminate]. intros [= <-]. repeat split. exact Hc.
  - destruct (timers w !! id) as [t|]; [|discriminate]. cbn.
    destruct (due t <=? clock w); [|discriminate]. intros [= <-].
    unfold fire. destruct (kind t) as [s| |].
    + unfold reconnectTimerExpired. cbn [state set_timers]. rewrite Hc.
      repeat split. exact Hc.
    + unfold refreshRecentEvents. cbn [elements set_timers].
      destruct (el_recentEvents (elements w)); repeat split; exact Hc.
    + match goal with |- context [checkStatus ?x] =>
        destruct (checkStatus_view x) as (H1 & _ & H2 & H3) end.
      rewrite H1, H2, H3. repeat split. exact Hc.
  - destruct (inflight w !! i) as [c|]; [|discriminate]. cbn. intros [= <-].
    pose proof (settle_stream_view c o (set_inflight (delete i) w)) as Hv.
    unfold stream_view in Hv. injection Hv as Hst _ Hvf Hcl.
    rewrite Hst, Hvf, Hcl. repeat split. exact Hc.
Qed.

(** Once the stream is connected, only a new stream error makes the
    dashboard touch it again: along any run without a stream-error event
    the camera flag stays set, no attempt is counted and the stream's
    [src] is not rewritten, whichever reconnect timers of earlier
    sequences expire on the way. *)
Theorem connected_stream_left_alone (es : list Event) (w w' : World) :
  st_cameraConnected (state w) = true →
  EvVideoError ∉ es →
  run es w = Some w' →
  st_cameraConnected (state w') = true
  ∧ closures w' = closures w
  ∧ el_videoFeed (elements w') = el_videoFeed (elements w).
Proof.
  revert w. induction es as [|ev es IH]; intros w Hc Hno; cbn [run].
  - intros [= <-]. repeat split. exact Hc.
  - destruct (step ev w) as [w1|] eqn:Hs; [|discriminate]. cbn. intros Hrun.
    apply not_elem_of_cons in Hno. destruct Hno as [Hne Hno].
    destruct (step_connected_quiet ev w w1 (not_eq_sym Hne) Hc Hs) as (H1 & H2 & H3).
    destruct (IH w1 H1 Hno Hrun) as (H4 & H5 & H6).
    split; [exact H4|]. split; congruence.
Qed.

(** Settling a request takes exactly that request off the list of
    outstanding ones and starts no other: a rejected or malformed
    response is never retried on the spot, the next request of the
    channel comes with the next tick. *)
Theorem response_starts_no_request
    (w : World) (i : nat) (c : Channel) (o : FetchOutcome) :
  inflight w !! i = Some c →
  ∃ w' : World,
    step (EvSettle i o) w = Some w'
    ∧ inflight w' = delete i (inflight w)
    ∧ issued w' = issued w
    ∧ timers w' = timers w.
Proof.
  intros Hi. cbn [step]. rewrite Hi. cbn. eexists. split; [reflexivity|].
  pose proof (settle_browser c o (set_inflight (delete i) w)) as Hb.
  unfold browser_of in Hb. injection Hb as _ _ _ Ht _ _ Hin Hiss.
  repeat split; assumption.
Qed.

End Camera.

(** When [reconnectAttempts] is zero or negative, a stream error marks
    the camera disconnected and logs the failure at once: the stream is
    not reloaded and no timer is armed. *)
Theorem no_attempts_allowed (w : World) :
  reconnectAttempts (cfg w) <= 0 →
  st_cameraConnected (state (handleVideoError w)) = false
  ∧ timers (handleVideoError w) = timers w
  ∧ el_videoFeed (elements (handleVideoError w)) = el_videoFeed (elements w)
  ∧ console (handleVideoError w)
    = console w ++ [LogError "Video feed error:";
                    LogError "Failed to reconnect after multiple attempts"].
Proof.
  intros Hmax. unfold handleVideoError, attemptReconnect.
  set (w1 := updateCameraStatus false _).
  assert (E : cfg w1 = cfg w ∧ timers w1 = timers w
              ∧ st_cameraConnected (state w1) = false
              ∧ el_videoFeed (elements w1) = el_videoFeed (elements w)
              ∧ console w1 = console w ++ [LogError "Video feed error:"]).
  { subst w1. unfold updateCameraStatus. cbn.
    destruct (camera (indicators w)); cbn; repeat split. }
  destruct E as (Ecfg & Etm & Est & Evf & Econ).
  rewrite (tryReconnect_exhausted _ (length (closures w1)) 0).
  - cbn. rewrite Etm, Est, Evf, Econ, <- app_assoc. repeat split.
  - cbn. rewrite lookup_app_r by lia.
    replace (length (closures w1) - length (closures w1))%nat with 0%nat by lia.
    reflexivity.
  - cbn. rewrite Ecfg. exact Hmax.
Qed.

Lemma camera_indicator_follows_flag_witness :
  let es := [EvVideoError; EvVideoLoad; EvSettle 0 NetworkFailure] in
  let ind := mkIndicator ["status-indicator"; "camera-status"; "status-online"]
                         "Camera Connected" in
  run (DP := sample_dates) es (init (page config sample_elements sample_indicators 0))
  = Some (sample_after es)
  ∧ camera (indicators (sample_after es)) = Some ind
  ∧ ("status-online" ∈ classList ind
     ↔ st_cameraConnected (state (sample_after es)) = true)
  ∧ ("status-offline" ∈ classList ind
     ↔ st_cameraConnected (state (sample_after es)) = false).
Proof.
  intros es ind.
  assert (Hrun : run (DP := sample_dates) es
                     (init (page config sample_elements sample_indicators 0))
                 = Some (sample_after es)) by (vm_compute; reflexivity).
  assert (Hc : camera (indicators (sample_after es)) = Some ind)
    by (vm_compute; reflexivity).
  split; [exact Hrun|]. split; [exact Hc|].
  exact (camera_indicator_follows_flag (DP := sample_dates) config sample_elements
           sample_indicators 0 es _ ind Hrun Hc).
Defined.

Lemma connected_stream_left_alone_witness :
  let w := sample_after [EvVideoError; EvVideoLoad] in
  let es := [EvAdvance 2000; EvTimer 2; EvSettle 0 NetworkFailure] in
  st_cameraConnected (state w) = true
  ∧ run (DP := sample_dates) es w
    = Some (default w (run (DP := sample_dates) es w))
  ∧ st_cameraConnected (state (default w (run (DP := sample_dates) es w))) = true
  ∧ closures (default w (run (DP := sample_dates) es w)) = closures w
  ∧ el_videoFeed (elements (default w (run (DP := sample_dates) es w)))
    = el_videoFeed (elements w).
Proof.
  intros w es.
  assert (Hc : st_cameraConnected (state w) = true) by (vm_compute; reflexivity).
  assert (Hrun : run (DP := sample_dates) es w
                 = Some (default w (run (DP := sample_dates) es w)))
    by (vm_compute; reflexivity).
  assert (Hno : EvVideoError ∉ es).
  { intros Hin. repeat (apply elem_of_cons in Hin; destruct Hin as [Hin|Hin];
                        [discriminate|]).
    apply elem_of_nil in Hin. exact Hin. }
  split; [exact Hc|]. split; [exact Hrun|].
  exact (connected_stream_left_alone (DP := sample_dates) es w _ Hc Hno Hrun).
Defined.

Lemma response_starts_no_request_witness :
  inflight sample_world !! 0%nat = Some StatusCh
  ∧ ∃ w' : World,
      step (DP := sample_dates) (EvSettle 0 (Response None)) sample_world = Some w'
      ∧ inflight w' = delete 0%nat (inflight sample_world)
      ∧ issued w' = issued sample_world
      ∧ timers w' = timers sample_world.
Proof.
  assert (Hi : inflight sample_world !! 0%nat = Some StatusCh)
    by (vm_compute; reflexivity).
  split; [exact Hi|].
  exact (response_starts_no_request (DP := sample_dates) sample_world 0%nat StatusCh
           (Response None) Hi).
Defined.

Lemma no_attempts_allowed_witness :
  let w := init (page no_retry_config sample_elements sample_indicators 0) in
  reconnectAttempts (cfg w) <= 0
  ∧ st_cameraConnected (state (handleVideoError w)) = false
  ∧ timers (handleVideoError w) = timers w
  ∧ el_videoFeed (elements (handleVideoError w)) = el_videoFeed (elements w)
  ∧ console (handleVideoError w)
    = console w ++ [LogError "Video feed error:";
                    LogError "Failed to reconnect after multiple attempts"].
Proof.
  intros w.
  assert (Hm : reconnectAttempts (cfg w) <= 0) by (vm_compute; discriminate).
  split; [exact Hm|].
  exact (no_attempts_allowed w Hm).
Defined.

(** ** Employee management *)

Lemma showNotification_shown (type message : string) (p : EmployeePage)
    (notes : list Notification) :
  mainContent p = Some notes →
  showNotification type message p
  = (mkEmployeePage
       (Some (mkNotification (nextNote p)
                ("alert alert-" +:+ type +:+ " alert-dismissible fade show")
                message :: notes))
       (noteTimers p ++ [nextNote p]) (S (nextNote p)) (cards p) (form p)
       (modal p) (reloading p) (deleting p) (adding p) (emp_console p),
     Ok tt).
Proof. intros Hm. unfold showNotification. rewrite Hm. reflexivity. Qed.

Lemma showNotification_throws (type message : string) (p : EmployeePage) :
  mainContent p = None →
  showNotification type message p
  = (p, Thrown (TypeError "Cannot read properties of null")).
Proof. intros Hm. unfold showNotification. rewrite Hm. reflexivity. Qed.

(** What the callbacks do with a response that is not a success: a
    rejection, a body that is not JSON, [null], or a body whose [success]
    is falsy. *)
Lemma not_succeeds_cases (o : FetchOutcome) :
  succeeds o = false →
  (∃ e, settled_body o = Thrown e)
  ∨ (∃ data e, settled_body o = Ok data ∧ get_prop data "success" = Thrown e)
  ∨ (∃ data ok, settled_body o = Ok data ∧ get_prop data "success" = Ok ok
                ∧ truthy ok = false).
Proof.
  unfold succeeds. destruct (settled_body o) as [data|e]; [|eauto].
  destruct (get_prop data "success") as [ok|e] eqn:E; [|eauto 7].
  intros Hok. right. right. eauto.
Qed.

Lemma succeeds_cases (o : FetchOutcome) :
  succeeds o = true →
  ∃ data ok, settled_body o = Ok data ∧ get_prop data "success" = Ok ok
             ∧ truthy ok = true.
Proof.
  unfold succeeds. destruct (settled_body o) as [data|e]; [|discriminate].
  destruct (get_prop data "success") as [ok|e] eqn:E; [|discriminate]. eauto.
Qed.

Lemma get_prop_after_success (data ok : JsVal) (k : string) :
  get_prop data "success" = Ok ok → ∃ v, get_prop data k = Ok v.
Proof.
  destruct data; cbn; try discriminate; intros _; eauto;
    destruct (String.eqb k "length"); eauto.
Qed.

(** On a page with [.main-content], a delete request that does not come
    back as a success (it is rejected, or the body is not JSON, or its
    [success] is false or missing) puts the button back: trash icon and
    "Delete", enabled.  One danger alert is shown, the card stays on the
    page, and no error leaves the handler. *)
Theorem failed_delete_restores_button
    (p : EmployeePage) (i : nat) (c : EmployeeCard) (notes : list Notification)
    (o : FetchOutcome) :
  cards p !! i = Some c →
  mainContent p = Some notes →
  succeeds o = false →
  ∃ (p' : EmployeePage) (message : string),
    delete_chain i (card_name c) o (handleDeleteEmployee i true p) = (p', Ok tt)
    ∧ cards p' !! i
      = Some (mkCard (card_name c) (mkButton trash_html false)
                     (card_wrapped c) (card_removed c))
    ∧ mainContent p'
      = Some (mkNotification (nextNote p)
                "alert alert-danger alert-dismissible fade show" message :: notes).
Proof.
  intros Hc Hm Hfail.
  assert (Hlt : (i < length (cards p))%nat) by (apply lookup_lt_is_Some; eauto).
  unfold handleDeleteEmployee. rewrite Hc.
  set (p1 := set_deleting _ _).
  assert (Hm1 : mainContent p1 = Some notes) by exact Hm.
  assert (Hrestore : ∀ q : EmployeePage,
            cards q = cards p1 →
            cards (set_card_button i (mkButton trash_html false) q) !! i
            = Some (mkCard (card_name c) (mkButton trash_html false)
                           (card_wrapped c) (card_removed c))).
  { intros q Hq. unfold set_card_button. cbn [cards set_cards]. rewrite Hq.
    subst p1. cbn [cards set_deleting set_card_button set_cards]. rewrite Hc.
    rewrite list_lookup_insert_eq by exact Hlt. cbn.
    rewrite list_lookup_insert_eq by (rewrite length_insert; exact Hlt).
    reflexivity. }
  unfold delete_chain, ecatch, eeval, mbind, EEff_bind.
  destruct (not_succeeds_cases o Hfail)
    as [[e He]|[(data & e & Hd & He)|(data & ok & Hd & Hok & Hf)]].
  - rewrite He. unfold delete_catch, elift, mbind, EEff_bind.
    rewrite (showNotification_shown _ _ _ notes) by exact Hm1.
    unfold restore_delete_button, elift.
    eexists _, _. split; [reflexivity|]. split; [|reflexivity].
    apply Hrestore. reflexivity.
  - rewrite Hd. unfold delete_then, eeval, mbind, EEff_bind. rewrite He.
    unfold delete_catch, elift, mbind, EEff_bind.
    rewrite (showNotification_shown _ _ _ notes) by exact Hm1.
    unfold restore_delete_button, elift.
    eexists _, _. split; [reflexivity|]. split; [|reflexivity].
    apply Hrestore. reflexivity.
  - rewrite Hd. unfold delete_then, eeval, mbind, EEff_bind. rewrite Hok, Hf.
    destruct (get_prop_after_success data ok "error" Hok) as [err Herr].
    rewrite Herr. unfold template. destruct (unprintable err).
    + unfold delete_catch, elift, mbind, EEff_bind.
      rewrite (showNotification_shown _ _ _ notes) by exact Hm1.
      unfold restore_delete_button, elift.
      eexists _, _. split; [reflexivity|]. split; [|reflexivity].
      apply Hrestore. reflexivity.
    + rewrite (showNotification_shown _ _ _ notes) by exact Hm1.
      unfold restore_delete_button, elift.
      eexists _, _. split; [reflexivity|]. split; [|reflexivity].
      apply Hrestore. reflexivity.
Qed.

(** On a page with [.main-content], a delete request that comes back as
    a success removes the card's parent from the page and shows one
    success alert naming the employee; the button is left as the click
    put it. *)
Theorem successful_delete_removes_card
    (p : EmployeePage) (i : nat) (c : EmployeeCard) (notes : list Notification)
    (o : FetchOutcome) :
  cards p !! i = Some c →
  card_wrapped c = true →
  mainContent p = Some notes →
  succeeds o = true →
  ∃ p' : EmployeePage,
    delete_chain i (card_name c) o (handleDeleteEmployee i true p) = (p', Ok tt)
    ∧ cards p' !! i
      = Some (mkCard (card_name c) (mkButton spinner_html true) true true)
    ∧ mainContent p'
      = Some (mkNotification (nextNote p)
                "alert alert-success alert-dismissible fade show"
                ("Employee " +:+ to_string (card_name c) +:+ " deleted successfully!")
              :: notes).
Proof.
  intros Hc Hw Hm Hok.
  assert (Hlt : (i < length (cards p))%nat) by (apply lookup_lt_is_Some; eauto).
  destruct (succeeds_cases o Hok) as (data & ok & Hd & Hs & Ht).
  unfold handleDeleteEmployee. rewrite Hc.
  unfold delete_chain, ecatch, eeval, mbind, EEff_bind. rewrite Hd.
  unfold delete_then, eeval, mbind, EEff_bind. rewrite Hs, Ht.
  rewrite (showNotification_shown _ _ _ notes) by exact Hm.
  unfold remove_card. cbn [cards set_deleting set_card_button set_cards].
  rewrite Hc. rewrite list_lookup_insert_eq by exact Hlt. cbn [card_wrapped].
  rewrite Hw. eexists. split; [reflexivity|]. split; [|reflexivity].
  cbn [cards set_cards]. rewrite list_lookup_insert_eq
    by (rewrite length_insert; exact Hlt).
  reflexivity.
Qed.

(** On a page without [.main-content] a confirmed delete can never end
    well: whatever comes back, [showNotification] throws, also inside the
    [catch] callback, so the error leaves the handler, the button is
    never restored (it stays disabled, with the spinner) and the card is
    not removed even when the server reports success. *)
Theorem delete_without_main_content
    (p : EmployeePage) (i : nat) (c : EmployeeCard) (o : FetchOutcome) :
  cards p !! i = Some c →
  mainContent p = None →
  ∃ (p' : EmployeePage) (e : JsError),
    delete_chain i (card_name c) o (handleDeleteEmployee i true p) = (p', Thrown e)
    ∧ cards p' !! i
      = Some (mkCard (card_name c) (mkButton spinner_html true)
                     (card_wrapped c) (card_removed c)).
Proof.
  intros Hc Hm.
  assert (Hlt : (i < length (cards p))%nat) by (apply lookup_lt_is_Some; eauto).
  unfold handleDeleteEmployee. rewrite Hc.
  set (p1 := set_deleting _ _).
  assert (Hm1 : mainContent p1 = None) by exact Hm.
  assert (Hc1 : cards p1 !! i
                = Some (mkCard (card_name c) (mkButton spinner_html true)
                               (card_wrapped c) (card_removed c))).
  { subst p1. cbn [cards set_deleting set_card_button set_cards]. rewrite Hc.
    apply list_lookup_insert_eq. exact Hlt. }
  assert (Hcatch : ∀ e, delete_catch i e p1
                        = (emp_log (LogCaught "Error deleting employee:" e) p1,
                           Thrown (TypeError "Cannot read properties of null"))).
  { intros e. unfold delete_catch, elift, mbind, EEff_bind.
    rewrite showNotification_throws by exact Hm1. reflexivity. }
  unfold delete_chain, ecatch, eeval, mbind, EEff_bind.
  destruct (settled_body o) as [data|e].
  - unfold delete_then, eeval, mbind, EEff_bind.
    destruct (get_prop data "success") as [ok|e] eqn:Hs.
    + destruct (truthy ok).
      * rewrite showNotification_throws by exact Hm1. rewrite Hcatch.
        eexists _, _. split; [reflexivity|exact Hc1].
      * destruct (get_prop_after_success data ok "error" Hs) as [err Herr].
        rewrite Herr. unfold template. destruct (unprintable err).
        -- rewrite Hcatch. eexists _, _. split; [reflexivity|exact Hc1].
        -- rewrite showNotification_throws by exact Hm1. rewrite Hcatch.
           eexists _, _. split; [reflexivity|exact Hc1].
    + rewrite Hcatch. eexists _, _. split; [reflexivity|exact Hc1].
  - rewrite Hcatch. eexists _, _. split; [reflexivity|exact Hc1].
Qed.

(** Whatever comes back for an add request (success, failure, a
    malformed body) and whether or not the page can show alerts, the
    [finally] callback puts the submit button back: the text it had when
    the form was submitted, enabled. *)
Theorem add_always_restores_submit (p : EmployeePage) (o : FetchOutcome) :
  form_valid (form p) = true →
  adding (handleAddEmployee p)
  = adding p ++ [(field "name" (form_fields (form p)), btn_html (form_submit (form p)))]
  ∧ form_submit (form (handleAddEmployee p))
    = mkButton (spinner_html +:+ " Saving...") true
  ∧ form_submit
      (form (fst (add_chain (field "name" (form_fields (form p)))
                            (btn_html (form_submit (form p))) o
                            (handleAddEmployee p))))
    = mkButton (btn_html (form_submit (form p))) false.
Proof.
  intros Hv. unfold handleAddEmployee. rewrite Hv. cbn [negb].
  split; [reflexivity|]. split; [reflexivity|].
  unfold add_chain, efinally.
  destruct (ecatch _ _ _) as [p1 r]. unfold add_finally, elift. reflexivity.
Qed.

(** On a page with [.main-content], an add request that comes back as a
    success shows one success alert naming the employee, hides the modal
    if there is one, resets the form to its default values and asks for
    the page to be reloaded. *)
Theorem successful_add_resets_and_reloads
    (p : EmployeePage) (name : JsVal) (originalText : string)
    (notes : list Notification) (o : FetchOutcome) :
  mainContent p = Some notes →
  succeeds o = true →
  ∃ p' : EmployeePage,
    add_chain name originalText o p = (p', Ok tt)
    ∧ reloading p' = true
    ∧ form_fields (form p') = form_defaults (form p)
    ∧ modal p' = (λ _, false) <$> modal p
    ∧ mainContent p'
      = Some (mkNotification (nextNote p)
                "alert alert-success alert-dismissible fade show"
                ("Employee " +:+ to_string name +:+ " added successfully!")
              :: notes).
Proof.
  intros Hm Hok. destruct (succeeds_cases o Hok) as (data & ok & Hd & Hs & Ht).
  unfold add_chain, efinally, ecatch, eeval, mbind, EEff_bind. rewrite Hd.
  unfold add_then, eeval, mbind, EEff_bind. rewrite Hs, Ht.
  rewrite (showNotification_shown _ _ _ notes) by exact Hm.
  unfold elift, add_finally, elift, hide_modal. cbn [modal].
  destruct (modal p); eexists; (split; [reflexivity|repeat split]).
Qed.

(** On a page with [.main-content], an add request that does not come
    back as a success shows one danger alert and leaves the rest alone:
    the form keeps what was typed and the page is not reloaded. *)
Theorem failed_add_keeps_form
    (p : EmployeePage) (name : JsVal) (originalText : string)
    (notes : list Notification) (o : FetchOutcome) :
  mainContent p = Some notes →
  succeeds o = false →
  ∃ (p' : EmployeePage) (message : string),
    add_chain name originalText o p = (p', Ok tt)
    ∧ reloading p' = reloading p
    ∧ form_fields (form p') = form_fields (form p)
    ∧ modal p' = modal p
    ∧ mainContent p'
      = Some (mkNotification (nextNote p)
                "alert alert-danger alert-dismissible fade show" message :: notes).
Proof.
  intros Hm Hfail.
  unfold add_chain, efinally, ecatch, eeval, mbind, EEff_bind.
  destruct (not_succeeds_cases o Hfail)
    as [[e He]|[(data & e & Hd & He)|(data & ok & Hd & Hok & Hf)]].
  - rewrite He. unfold add_catch, elift, mbind, EEff_bind.
    rewrite (showNotification_shown _ _ _ notes) by exact Hm.
    unfold add_finally, elift. eexists _, _. split; [reflexivity|repeat split].
  - rewrite Hd. unfold add_then, eeval, mbind, EEff_bind. rewrite He.
    unfold add_catch, elift, mbind, EEff_bind.
    rewrite (showNotification_shown _ _ _ notes) by exact Hm.
    unfold add_finally, elift. eexists _, _. split; [reflexivity|repeat split].
  - rewrite Hd. unfold add_then, eeval, mbind, EEff_bind. rewrite Hok, Hf.
    destruct (get_prop_after_success data ok "error" Hok) as [err Herr].
    rewrite Herr. unfold template. destruct (unprintable err).
    + unfold add_catch, elift, mbind, EEff_bind.
      rewrite (showNotification_shown _ _ _ notes) by exact Hm.
      unfold add_finally, elift. eexists _, _. split; [reflexivity|repeat split].
    + rewrite (showNotification_shown _ _ _ notes) by exact Hm.
      unfold add_finally, elift. eexists _, _. split; [reflexivity|repeat split].
Qed.

Lemma failed_delete_restores_button_witness :
  let o := Response (Some (VObj [("success", VBool false); ("error", VStr "in use")])) in
  let c := mkCard (VStr "J. Doe") (mkButton trash_html false) true false in
  cards sample_employee_page !! 0%nat = Some c
  ∧ succeeds o = false
  ∧ ∃ (p' : EmployeePage) (message : string),
      delete_chain 0 (card_name c) o (handleDeleteEmployee 0 true sample_employee_page)
      = (p', Ok tt)
      ∧ cards p' !! 0%nat
        = Some (mkCard (card_name c) (mkButton trash_html false)
                       (card_wrapped c) (card_removed c))
      ∧ mainContent p'
        = Some [mkNotification (nextNote sample_employee_page)
                  "alert alert-danger alert-dismissible fade show" message].
Proof.
  intros o c. split; [reflexivity|]. split; [reflexivity|].
  exact (failed_delete_restores_button sample_employee_page 0%nat c [] o
           eq_refl eq_refl eq_refl).
Defined.

Lemma successful_delete_removes_card_witness :
  let o := Response (Some (VObj [("success", VBool true)])) in
  let c := mkCard (VStr "J. Doe") (mkButton trash_html false) true false in
  cards sample_employee_page !! 0%nat = Some c
  ∧ succeeds o = true
  ∧ ∃ p' : EmployeePage,
      delete_chain 0 (card_name c) o (handleDeleteEmployee 0 true sample_employee_page)
      = (p', Ok tt)
      ∧ cards p' !! 0%nat
        = Some (mkCard (card_name c) (mkButton spinner_html true) true true)
      ∧ mainContent p'
        = Some [mkNotification (nextNote sample_employee_page)
                  "alert alert-success alert-dismissible fade show"
                  ("Employee " +:+ to_string (card_name c)
                   +:+ " deleted successfully!")].
Proof.
  intros o c. split; [reflexivity|]. split; [reflexivity|].
  exact (successful_delete_removes_card sample_employee_page 0%nat c [] o
           eq_refl eq_refl eq_refl eq_refl).
Defined.

Lemma delete_without_main_content_witness :
  let o := Response (Some (VObj [("success", VBool true)])) in
  let c := mkCard (VStr "J. Doe") (mkButton trash_html false) true false in
  cards sample_bare_employee_page !! 0%nat = Some c
  ∧ mainContent sample_bare_employee_page = None
  ∧ ∃ (p' : EmployeePage) (e : JsError),
      delete_chain 0 (card_name c) o
        (handleDeleteEmployee 0 true sample_bare_employee_page)
      = (p', Thrown e)
      ∧ cards p' !! 0%nat
        = Some (mkCard (card_name c) (mkButton spinner_html true)
                       (card_wrapped c) (card_removed c)).
Proof.
  intros o c. split; [reflexivity|]. split; [reflexivity|].
  exact (delete_without_main_content sample_bare_employee_page 0%nat c o
           eq_refl eq_refl).
Defined.

Lemma add_always_restores_submit_witness :
  let p := sample_bare_employee_page in
  form_valid (form p) = true
  ∧ adding (handleAddEmployee p)
    = adding p ++ [(field "name" (form_fields (form p)),
                    btn_html (form_submit (form p)))]
  ∧ form_submit (form (handleAddEmployee p))
    = mkButton (spinner_html +:+ " Saving...") true
  ∧ form_submit
      (form (fst (add_chain (field "name" (form_fields (form p)))
                            (btn_html (form_submit (form p))) NetworkFailure
                            (handleAddEmployee p))))
    = mkButton (btn_html (form_submit (form p))) false.
Proof.
  intros p. split; [reflexivity|].
  exact (add_always_restores_submit p NetworkFailure eq_refl).
Defined.

Lemma successful_add_resets_and_reloads_witness :
  let o := Response (Some (VObj [("success", VBool true)])) in
  let p := handleAddEmployee sample_employee_page in
  succeeds o = true
  ∧ ∃ p' : EmployeePage,
      add_chain (VStr "A. Roe") "Save Employee" o p = (p', Ok tt)
      ∧ reloading p' = true
      ∧ form_fields (form p') = form_defaults (form p)
      ∧ modal p' = (λ _, false) <$> modal p
      ∧ mainContent p'
        = Some [mkNotification (nextNote p)
                  "alert alert-success alert-dismissible fade show"
                  ("Employee " +:+ to_string (VStr "A. Roe")
                   +:+ " added successfully!")].
Proof.
  intros o p. split; [reflexivity|].
  exact (successful_add_resets_and_reloads p (VStr "A. Roe") "Save Employee" [] o
           eq_refl eq_refl).
Defined.

Lemma failed_add_keeps_form_witness :
  let o := Response None in
  let p := handleAddEmployee sample_employee_page in
  succeeds o = false
  ∧ ∃ (p' : EmployeePage) (message : string),
      add_chain (VStr "A. Roe") "Save Employee" o p = (p', Ok tt)
      ∧ reloading p' = reloading p
      ∧ form_fields (form p') = form_fields (form p)
      ∧ modal p' = modal p
      ∧ mainContent p'
        = Some [mkNotification (nextNote p)
                  "alert alert-danger alert-dismissible fade show" message].
Proof.
  intros o p. split; [reflexivity|].
  exact (failed_add_keeps_form p (VStr "A. Roe") "Save Employee" [] o
           eq_refl eq_refl).
Defined.

Lemma filter_keeps_all {A : Type} (P : A → Prop) `{∀ x, Decision (P x)} (l : list A) :
  Forall P l → filter P l = l.
Proof.
  induction 1 as [|x l Hx Hl IH]; [reflexivity|].
  rewrite filter_cons, decide_True by exact Hx. rewrite IH. reflexivity.
Qed.

(** An alert leaves the page when its five-second timer fires, and the
    alerts shown before it stay: showing an alert and letting its timer
    run out gives back the list of alerts and of pending timers there was
    (alerts being told apart by the order in which they were created). *)
Theorem alert_comes_and_goes
    (type message : string) (p : EmployeePage) (notes : list Notification) :
  mainContent p = Some notes →
  Forall (λ n, note_id n ≠ nextNote p) notes →
  Forall (λ id, id ≠ nextNote p) (noteTimers p) →
  ∃ p1 : EmployeePage,
    showNotification type message p = (p1, Ok tt)
    ∧ mainContent p1
      = Some (mkNotification (nextNote p)
                ("alert alert-" +:+ type +:+ " alert-dismissible fade show")
                message :: notes)
    ∧ mainContent (dismiss (nextNote p) p1) = Some notes
    ∧ noteTimers (dismiss (nextNote p) p1) = noteTimers p.
Proof.
  intros Hm Hnotes Htimers.
  rewrite (showNotification_shown type message p notes Hm).
  eexists. split; [reflexivity|]. split; [reflexivity|].
  unfold dismiss. cbn [mainContent noteTimers fmap option_fmap option_map].
  split.
  - f_equal. rewrite filter_cons, decide_False by (cbn; tauto).
    apply filter_keeps_all, Hnotes.
  - rewrite filter_app, (filter_keeps_all _ _ Htimers).
    rewrite filter_cons, decide_False by tauto. apply app_nil_r.
Qed.

Lemma alert_comes_and_goes_witness :
  let p := fst (showNotification "success" "Saved" sample_employee_page) in
  mainContent p
  = Some [mkNotification 0 "alert alert-success alert-dismissible fade show" "Saved"]
  ∧ ∃ p1 : EmployeePage,
      showNotification "danger" "Error: in use" p = (p1, Ok tt)
      ∧ mainContent p1
        = Some [mkNotification (nextNote p)
                  ("alert alert-" +:+ "danger" +:+ " alert-dismissible fade show")
                  "Error: in use";
                mkNotification 0 "alert alert-success alert-dismissible fade show"
                               "Saved"]
      ∧ mainContent (dismiss (nextNote p) p1)
        = Some [mkNotification 0 "alert alert-success alert-dismissible fade show"
                               "Saved"]
      ∧ noteTimers (dismiss (nextNote p) p1) = noteTimers p.
Proof.
  intros p. split; [reflexivity|].
  refine (alert_comes_and_goes "danger" "Error: in use" p _ eq_refl _ _).
  - repeat constructor. discriminate.
  - repeat constructor. discriminate.
Defined.

(** ** What a comma in a cell does to the export *)

Lemma length_split_on (c : ascii) (s : string) :
  length (split_on c s) = S (count_char c s).
Proof.
  induction s as [|a s IH]; [reflexivity|]. cbn [split_on count_char].
  destruct (Ascii.eqb a c); [cbn; rewrite IH; reflexivity|].
  destruct (split_on c s) as [|h t]; [discriminate|exact IH].
Qed.

Lemma count_char_app (c : ascii) (a b : string) :
  count_char c (a +:+ b) = (count_char c a + count_char c b)%nat.
Proof.
  induction a as [|x a IH]; [reflexivity|].
  change (String x a +:+ b) with (String x (a +:+ b)). cbn [count_char].
  destruct (Ascii.eqb x c); rewrite IH; reflexivity.
Qed.

Lemma count_char_join (c : ascii) (l : list string) :
  count_char c (join (String c EmptyString) l)
  = (pred (length l) + sum_list_with (count_char c) l)%nat.
Proof.
  induction l as [|s l IH]; [reflexivity|].
  destruct l as [|s2 l]; [cbn; lia|].
  change (join (String c EmptyString) (s :: s2 :: l))
    with (s +:+ String c (join (String c EmptyString) (s2 :: l))).
  rewrite count_char_app. cbn [count_char]. rewrite Ascii.eqb_refl, IH.
  cbn [length sum_list_with pred]. lia.
Qed.

Lemma has_char_count (c : ascii) (s : string) :
  has_char c s = true → (1 <= count_char c s)%nat.
Proof.
  induction s as [|a s IH]; cbn [has_char count_char]; [discriminate|].
  destruct (Ascii.eqb a c); [lia|exact IH].
Qed.

(** A row with a comma in one of its cells reads back with more cells
    than it had. *)
Lemma comma_adds_cells (row : list string) :
  row ≠ [] →
  Exists (λ s, has_char ","%char s = true) row →
  (length row < length (split_on ","%char (join "," row)))%nat.
Proof.
  intros Hne Hex. rewrite length_split_on, (count_char_join ","%char row).
  assert (1 <= sum_list_with (count_char ","%char) row)%nat.
  { clear Hne. induction Hex as [s l Hs|s l _ IH]; cbn [sum_list_with].
    - apply has_char_count in Hs. lia.
    - lia. }
  destruct row; [congruence|]. cbn [length pred]. lia.
Qed.

Lemma map_fixes_members {A : Type} (f : A → A) (l : list A) (x : A) :
  List.map f l = l → x ∈ l → f x = x.
Proof.
  induction l as [|y l IH]; intros Hmap Hx; [inversion Hx|].
  cbn in Hmap. injection Hmap as Hy Hl.
  apply elem_of_cons in Hx. destruct Hx as [->|Hx]; [exact Hy|exact (IH Hl Hx)].
Qed.

(** The export does not quote its cells, so a comma inside a cell is
    taken for a separator: for a table without line feeds in its cells
    and without empty rows, as soon as one cell (header or body) holds a
    comma the exported text no longer reads back as the table's rows. *)
Theorem comma_in_a_cell_breaks_the_export
    (t : Table) (filename : JsVal) (d : Download) :
  Forall (λ row, row ≠ []) (thead t :: tbody t) →
  Forall (Forall (λ s, has_char newline_char s = false)) (thead t :: tbody t) →
  Exists (Exists (λ s, has_char ","%char s = true)) (thead t :: tbody t) →
  exportToCSV (Some t) filename = Some d →
  parse_csv (dl_content d) ≠ thead t :: tbody t.
Proof.
  intros Hne Hnl Hcomma [= <-]. cbn [dl_content]. unfold parse_csv, csv_content.
  change (join "," (thead t) :: List.map (join ",") (tbody t))
    with (List.map (join ",") (thead t :: tbody t)).
  set (rows := thead t :: tbody t) in *.
  unfold newline. rewrite split_on_join.
  - rewrite List.map_map. intros Hfix.
    apply Exists_exists in Hcomma. destruct Hcomma as (row & Hrow & Hex).
    pose proof (map_fixes_members _ rows row Hfix Hrow) as Hsame. cbn beta in Hsame.
    rewrite Forall_forall in Hne.
    pose proof (comma_adds_cells row (Hne row Hrow) Hex) as Hlen.
    rewrite Hsame in Hlen. lia.
  - subst rows. discriminate.
  - clear Hne Hcomma. induction Hnl as [|row l Hrow Hl IH]; [constructor|].
    cbn [List.map]. constructor; [|exact IH].
    apply has_char_join; [reflexivity|exact Hrow].
Qed.

Lemma comma_in_a_cell_breaks_the_export_witness :
  let t := mkTable ["Name"; "Date"] [["Doe, J."; "2024-01-01"]] in
  exportToCSV (Some t) (VStr "log.csv")
  = Some (mkDownload (csv_content t) "text/csv;charset=utf-8;" "log.csv")
  ∧ parse_csv (csv_content t) ≠ thead t :: tbody t.
Proof.
  intros t. split; [reflexivity|].
  refine (comma_in_a_cell_breaks_the_export t (VStr "log.csv") _ _ _ _ eq_refl).
  - repeat constructor; discriminate.
  - repeat constructor.
  - right. left. left. reflexivity.
Defined.
